(** * OneKeyVE: reframing decisions, compositing geometry and encode supervision

    A shallow embedding of the decision logic of the OneKeyVE scripts:

    - [Final]      : VE_QW_FInal_prefect.py (probe arithmetic, ratio check,
                     trim, rotation, foreground geometry, output validation,
                     VRAM guard, batch loop);
    - [EditFF]     : Video_Edit_FF.py (ratio check, canvas, main loop);
    - [Wallpaper]  : ve_wallpaper.py (rotation, filter graph, progress loop);
    - [Gui]        : main_gui_v3_release.py (progress bar, watchdog loop,
                     GPU/CPU fallback).

    Numbers.  Python [int] is [Z].  A Python [float] is the rational number
    it denotes, in [Q].  The ratio tests ([is_target_ratio],
    [is_valid_aspect_ratio]) and the arithmetic of [get_video_info] round
    every operation and every literal as the interpreter does, to the nearest
    binary64 number ([Float]); the other comparisons and truncations are
    written with exact arithmetic, which gives the same answers on the
    sizes, durations and clock readings they are applied to.
    External tools (ffprobe, ffmpeg, the clock, the child's output pipe) are
    oracles: records of what they answer. *)

From Stdlib Require Import ZArith QArith Qabs Bool List String Ascii Sorted Lia Lqa.
Import ListNotations.

(** ** Python numeric operations *)

Module Py.

(** [x < y] and [x <= y] on floats. *)
Definition ltb (x y : Q) : bool := negb (Qle_bool y x).
Definition leb (x y : Q) : bool := Qle_bool x y.

(** [int(x)] for a float [x]: truncation toward zero. *)
Definition int_of (x : Q) : Z := Z.quot (Qnum x) (Zpos (Qden x)).

(** [a / b] on ints is true division and raises [ZeroDivisionError] for
    [b = 0]; [int(a / b)] truncates the quotient toward zero (the double
    quotient of two ints below 2^53 truncates to the integer quotient). *)
Definition int_truediv (a b : Z) : option Z :=
  if (b =? 0)%Z then None else Some (Z.quot a b).

End Py.

(** ** Binary64 arithmetic

    A Python [float] is an IEEE 754 binary64 number and every operation
    rounds the exact result to the nearest one, ties to even.  [round] does
    so on rationals, with 53 significant bits and an unbounded exponent:
    overflow and subnormal numbers do not occur in the computations
    modelled, which are on ratios of picture sizes. *)

Module Float.

(** The integer nearest to [n / d], the even one on a tie. *)
Definition nearest_even (n d : Z) : Z :=
  let q := (n / d)%Z in
  match (2 * (n mod d) ?= d)%Z with
  | Lt => q
  | Gt => (q + 1)%Z
  | Eq => if Z.even q then q else (q + 1)%Z
  end.

(** [2 ^ e] as the fraction [up e / down e]. *)
Definition up (e : Z) : Z := (2 ^ Z.max 0 e)%Z.
Definition down (e : Z) : Z := (2 ^ Z.max 0 (- e))%Z.

(** The exponent [e] with [2 ^ 52 <= (n / d) / 2 ^ e < 2 ^ 53]. *)
Definition exponent (n d : Z) : Z :=
  let e := (Z.log2 n - Z.log2 d - 52)%Z in
  if (n * down e <? 2 ^ 52 * (d * up e))%Z then (e - 1)%Z else e.

Definition round_pos (n d : Z) : Q :=
  let e := exponent n d in
  let m := nearest_even (n * down e) (d * up e) in
  (m * up e) # Z.to_pos (down e).

Definition round (x : Q) : Q :=
  match Qnum x with
  | Z0 => 0
  | Zpos n => round_pos (Zpos n) (Zpos (Qden x))
  | Zneg n => - round_pos (Zpos n) (Zpos (Qden x))
  end.

(** [x - y], [x * y] and [x / y] on floats. *)
Definition sub (x y : Q) : Q := round (x - y).
Definition mul (x y : Q) : Q := round (x * y).
Definition div (x y : Q) : Q := round (x / y).

(** Half a unit in the last place, relative to the value. *)
Definition ulp : Q := 1 # 9007199254740992.

End Float.

(** ** VE_QW_FInal_prefect.py *)

Module Final.

(** Global constants. *)
Definition TARGET_RATIO : Q := 9 # 16.
Definition FEATHER_WIDTH : Z := 30.
Definition MAX_DURATION : Q := 60.
Definition TRIM_DURATION : Q := 14.
Definition MAX_VRAM_USAGE : Z := 4 * 1024 * 1024 * 1024.

(** [is_target_ratio(ratio)]: the literal [0.01], the quotients [9/18]
    and [9/15] and the three subtractions are rounded. *)
Definition is_target_ratio (ratio : Q) : bool :=
  let tolerance : Q := Float.round (1 # 100) in
  let target_ratio := TARGET_RATIO in
  if Py.ltb (Qabs (Float.sub ratio target_ratio)) tolerance then true
  else if Py.ltb (Qabs (Float.sub ratio (Float.div 9 18))) tolerance
          || Py.ltb (Qabs (Float.sub ratio (Float.div 9 15))) tolerance
       then true
  else false.

(** [calculate_target_resolution]: always 1080 x 1920. *)
Definition calculate_target_resolution
           (original_width original_height : Z) (original_ratio : Q) : Z * Z :=
  (1080, 1920)%Z.

(** The test [duration > MAX_DURATION] of [process_video] and the length
    handed to [trim_video] when it holds. *)
Definition trim_target (duration : Q) : option Q :=
  if Py.ltb MAX_DURATION duration then Some TRIM_DURATION else None.

(** [needs_rotation = 1.0 <= original_ratio <= 16/9]. *)
Definition needs_rotation (original_ratio : Q) : bool :=
  Py.leb 1 original_ratio && Py.leb original_ratio (16 # 9).

(** *** The external world of [process_video] *)

(** Files the function reads: the source, the copy cut by [trim_video]
    ([TEMP_DIR/trimmed_<time>_<name>]) and the transposed copy
    ([TEMP_DIR/rotated_<time>_<name>]). *)
Inductive path :=
| File (name : string)
| Trimmed (src : path)
| Rotated (src : path).

(** The fields of the [video_info] dictionary that [process_video] reads. *)
Record video_info := mk_info {
  width : Z;
  height : Z;
  display_ratio : Q;
  duration : Q;
  fps : Q;
  has_audio : bool;
  audio_codec : option string
}.

(** What the tools answer.  [get_video_info] is [None] where the script
    gets the empty dictionary; a [run_*] field is [false] where
    [output.run] raises [ffmpeg.Error]; [output_size] is the size in bytes
    of [output/<name>] after the final run, [None] if the file is absent. *)
Record world := mk_world {
  ffmpeg_path : bool;
  cuda_support : bool;
  get_video_info : path -> option video_info;
  run_trim : path -> Q -> bool;
  run_transpose : path -> bool;
  run_fg_scale : path -> bool;
  run_fg_feather : path -> bool;
  run_fg_blur : path -> bool;
  run_composite : path -> bool;
  output_size : string -> option Z
}.

Inductive feather_method := MethodA (feather : Z) | MethodB (boxblur : Z).
Inductive encoder := H264_nvenc | Libx264.
Inductive audio_args := NoAudio | AudioCopy | AudioAac.

(** Scale and position of the foreground layer. *)
Record fg_geometry := mk_fg {
  scaled_width : Z;
  scaled_height : Z;
  pad_x : Z;
  pad_y : Z
}.

(** What [process_video] does to the outside, in order. *)
Inductive event :=
| StartUnit (name : string)
| SkipTargetRatio
| RunTrim (src dst : path) (t : Q)
| WarnTrimFailed
| RunTranspose (src dst : path)
| CallForeground (orig_w orig_h : Z) (original_ratio : Q)
                 (target_width target_height : Z)
| RunFgScale (g : fg_geometry)
| RunFgFeather (m : feather_method)
| RunComposite (input : path) (target_width target_height : Z)
               (bg_sigma : Z) (g : fg_geometry) (m : feather_method)
               (enc : encoder) (audio : audio_args)
| WarnSmallOutput
| ErrOutputMissing
| ErrException.

(** *** Control flow: early [return], exceptions, and the event log *)

Inductive flow (A : Type) :=
| Val (a : A)
| Return (b : bool)
| Raise.
Arguments Val {A} a.
Arguments Return {A} b.
Arguments Raise {A}.

Definition M (A : Type) : Type := list event -> flow A * list event.

Definition ret {A} (a : A) : M A := fun l => (Val a, l).

Definition bind {A B} (m : M A) (f : A -> M B) : M B :=
  fun l =>
    match m l with
    | (Val a, l') => f a l'
    | (Return b, l') => (Return b, l')
    | (Raise, l') => (Raise, l')
    end.

Definition emit (e : event) : M unit := fun l => (Val tt, l ++ [e]).
Definition return_ {A} (b : bool) : M A := fun l => (Return b, l).
Definition raise {A} : M A := fun l => (Raise, l).
Definition check_run (ok : bool) : M unit := if ok then ret tt else raise.

(** [try: ... except: return False]. *)
Definition try_except (m : M bool) : M bool :=
  fun l =>
    match m l with
    | (Raise, l') => (Return false, l' ++ [ErrException])
    | r => r
    end.

Definition run_M (m : M bool) : bool * list event :=
  match m [] with
  | (Val b, l) => (b, l)
  | (Return b, l) => (b, l)
  | (Raise, l) => (false, l)
  end.

(** A computation whose answer does not depend on the log it starts from
    and which only adds to that log. *)
Definition appends {A} (m : M A) : Prop :=
  forall l, m l = (fst (m []), l ++ snd (m [])).

Notation "x <- m ;; k" := (bind m (fun x => k))
  (at level 61, m at next level, right associativity).
Notation "m ;;; k" := (bind m (fun _ => k))
  (at level 61, right associativity).

(** *** [trim_video] *)

Definition trim_video (w : world) (input_path output_path : path)
           (duration : Q) : M bool :=
  try_except (
    if negb (ffmpeg_path w) then return_ false else
    match get_video_info w input_path with
    | None => return_ false
    | Some _ =>
        emit (RunTrim input_path output_path duration) ;;;
        check_run (run_trim w input_path duration) ;;;
        match get_video_info w output_path with
        | Some _ => return_ true
        | None => return_ false
        end
    end).

(** [trim_video] as a call: its result is a value of the caller. *)
Definition call {A} (m : M bool) (k : bool -> M A) : M A :=
  fun l =>
    match m l with
    | (Val b, l') => k b l'
    | (Return b, l') => k b l'
    | (Raise, l') => (Raise, l')
    end.

(** *** [create_feathered_foreground] *)

Definition foreground_geometry (orig_w orig_h : Z) (original_ratio : Q)
           (target_width target_height : Z) : option fg_geometry :=
  if Py.ltb TARGET_RATIO original_ratio then
    match Py.int_truediv (orig_h * target_width) orig_w with
    | None => None
    | Some scaled_height =>
        Some {| scaled_width := target_width;
                scaled_height := scaled_height;
                pad_x := 0;
                pad_y := (target_height - scaled_height) / 2 |}
    end
  else
    match Py.int_truediv (orig_w * target_height) orig_h with
    | None => None
    | Some scaled_width =>
        Some {| scaled_width := scaled_width;
                scaled_height := target_height;
                pad_x := (target_width - scaled_width) / 2;
                pad_y := 0 |}
    end.

(** The foreground is no larger than the canvas and is padded by
    non-negative offsets. *)
Definition fits (g : fg_geometry) (target_width target_height : Z) : Prop :=
  (scaled_width g <= target_width)%Z /\ (scaled_height g <= target_height)%Z
  /\ (0 <= pad_x g)%Z /\ (0 <= pad_y g)%Z.

(** The display ratio [r] of an [ow] x [oh] source lies on the same side of
    9/16 as width / height: so it does with square pixels, where the two are
    equal up to the rounding of the division. *)
Definition same_side (ow oh : Z) (r : Q) : Prop :=
  TARGET_RATIO < r <-> TARGET_RATIO < inject_Z ow / inject_Z oh.

(** The [geq] alpha expression of the analytic feather, at pixel [(X, Y)]
    of a [W] x [H] foreground. *)
Definition alpha_expr (W H X Y : Q) : Q :=
  let F := inject_Z FEATHER_WIDTH in
  (if Py.ltb X F then X / F
   else if Py.ltb (W - F) X then (W - X) / F
   else if Py.ltb Y F then Y / F
   else if Py.ltb (H - F) Y then (H - Y) / F
   else 1) * 255.

Definition create_feathered_foreground (w : world) (input_path : path)
           (orig_w orig_h : Z) (original_ratio : Q)
           (target_width target_height : Z)
  : M (fg_geometry * feather_method) :=
  emit (CallForeground orig_w orig_h original_ratio
                       target_width target_height) ;;;
  match foreground_geometry orig_w orig_h original_ratio
                            target_width target_height with
  | None => raise
  | Some g =>
      emit (RunFgScale g) ;;;
      check_run (run_fg_scale w input_path) ;;;
      emit (RunFgFeather (MethodA FEATHER_WIDTH)) ;;;
      if run_fg_feather w input_path then
        ret (g, MethodA FEATHER_WIDTH)
      else
        emit (RunFgFeather (MethodB 15)) ;;;
        check_run (run_fg_blur w input_path) ;;;
        ret (g, MethodB 15)
  end.

(** *** [process_video]

    The log messages and the removal of the temporary files in the
    [finally] clause are left out. *)

Definition choose_encoder (use_cuda : bool) : encoder :=
  if use_cuda then H264_nvenc else Libx264.

Definition string_in (s : string) (l : list string) : bool :=
  existsb (String.eqb s) l.

Definition choose_audio (info : video_info) : audio_args :=
  if has_audio info then
    match audio_codec info with
    | Some c =>
        if string_in c ["aac"; "mp3"; "opus"; "ac3"]%string
        then AudioCopy else AudioAac
    | None => AudioAac
    end
  else NoAudio.

(** The check of the written file: [output_size] is [st_size / (1024 * 1024)]
    and the file is suspicious below [0.1]. *)
Definition validate_output (size : option Z) : M bool :=
  match size with
  | Some st_size =>
      let output_size := inject_Z st_size / inject_Z (1024 * 1024) in
      (if Py.ltb output_size (1 # 10) then emit WarnSmallOutput else ret tt) ;;;
      return_ true
  | None =>
      emit ErrOutputMissing ;;;
      return_ false
  end.

(** The duration check: the source [process_video] goes on with. *)
Definition trim_stage (w : world) (input_path : path) (info : video_info)
  : M (path * video_info) :=
  match trim_target (duration info) with
  | Some t =>
      let temp_trimmed_path := Trimmed input_path in
      call (trim_video w input_path temp_trimmed_path t)
           (fun trimmed =>
              if trimmed then
                match get_video_info w temp_trimmed_path with
                | Some i => ret (temp_trimmed_path, i)
                | None => return_ false
                end
              else
                emit WarnTrimFailed ;;;
                ret (input_path, info))
  | None => ret (input_path, info)
  end.

(** The rotation check: the source the compositing reads. *)
Definition rotate_stage (w : world) (src : path * video_info)
  : M (path * video_info) :=
  let '(input_path, video_info) := src in
  if needs_rotation (display_ratio video_info) then
    let temp_rotated_path := Rotated input_path in
    emit (RunTranspose input_path temp_rotated_path) ;;;
    check_run (run_transpose w input_path) ;;;
    match get_video_info w temp_rotated_path with
    | Some i => ret (temp_rotated_path, i)
    | None => return_ false
    end
  else ret (input_path, video_info).

(** Background, foreground, overlay, encoding and the check of the file. *)
Definition compose_stage (w : world) (src : path * video_info)
           (output_name : string) (target_width target_height : Z)
           (use_cuda : bool) : M bool :=
  let '(input_path, video_info) := src in
  fg <- create_feathered_foreground w input_path
          (width video_info) (height video_info) (display_ratio video_info)
          target_width target_height ;;
  emit (RunComposite input_path target_width target_height 15
                     (fst fg) (snd fg)
                     (choose_encoder use_cuda) (choose_audio video_info)) ;;;
  check_run (run_composite w input_path) ;;;
  validate_output (output_size w output_name).

(** What follows the duration check. *)
Definition after_trim (w : world) (src : path * video_info)
           (output_name : string) (target_width target_height : Z)
           (use_cuda : bool) : M bool :=
  src <- rotate_stage w src ;;
  compose_stage w src output_name target_width target_height use_cuda.

Definition process_video_body (w : world) (input_path : path)
           (output_name : string) (target_width target_height : Z)
           (use_cuda : bool) : M bool :=
  (if ffmpeg_path w then ret tt else return_ false) ;;;
  video_info <- match get_video_info w input_path with
                | Some i => ret i
                | None => return_ false
                end ;;
  src <- trim_stage w input_path video_info ;;
  after_trim w src output_name target_width target_height use_cuda.

Definition process_video (w : world) (input_path : path)
           (output_name : string) (target_width target_height : Z)
           (use_cuda : bool) : bool * list event :=
  run_M (try_except (process_video_body w input_path output_name
                                        target_width target_height use_cuda)).

(** *** The batch: [process_single_video] and [process_all_videos] *)

Definition estimate_vram_usage (width height : Z) (duration fps : Q) : Z :=
  let bytes_per_frame := (width * height * 3)%Z in
  let frames_needed := Z.min 60 (Py.int_of (fps * 2)) in
  (bytes_per_frame * frames_needed * 2)%Z.

Definition process_single_video (w : world) (name : string)
  : bool * list event :=
  match get_video_info w (File name) with
  | None => (false, [])
  | Some video_info =>
      let original_ratio := display_ratio video_info in
      if is_target_ratio original_ratio then (true, [SkipTargetRatio])
      else
        let '(target_width, target_height) :=
          calculate_target_resolution (width video_info) (height video_info)
                                      original_ratio in
        let estimated_vram :=
          estimate_vram_usage (width video_info) (height video_info)
                              (duration video_info) (fps video_info) in
        let use_cuda :=
          if cuda_support w && (MAX_VRAM_USAGE <? estimated_vram)%Z
          then false else cuda_support w in
        process_video w (File name) name target_width target_height use_cuda
  end.

(** The loop of [process_all_videos]: [success_count] and the events of
    every unit, each announced by [StartUnit]. *)
Fixpoint process_all_videos (w : world) (video_files : list string)
  : Z * list event :=
  match video_files with
  | [] => (0%Z, [])
  | video_file :: rest =>
      let '(ok, evs) := process_single_video w video_file in
      let '(success_count, evs') := process_all_videos w rest in
      ((if ok then 1 else 0) + success_count,
       StartUnit video_file :: evs ++ evs')%Z
  end.

(** A computation all of whose new events satisfy [P]. *)
Definition emits {A} (P : event -> Prop) (m : M A) : Prop :=
  forall l, Forall P l -> Forall P (snd (m l)).

(** A computation that leaves by [return b] only with [R b]. *)
Definition returns_only {A} (R : bool -> Prop) (m : M A) : Prop :=
  forall l b, fst (m l) = Return b -> R b.

(** The encoder flag [process_single_video] passes on: CUDA unless the
    estimate exceeds [MAX_VRAM_USAGE]. *)
Definition use_cuda_for (w : world) (info : video_info) : bool :=
  let estimated_vram :=
    estimate_vram_usage (width info) (height info)
                        (duration info) (fps info) in
  if cuda_support w && (MAX_VRAM_USAGE <? estimated_vram)%Z
  then false else cuda_support w.

(** A computation that answers [b], by [return b] or as its value, only
    with [R b]. *)
Definition answers_only (R : bool -> Prop) (m : M bool) : Prop :=
  forall l b, fst (m l) = Return b \/ fst (m l) = Val b -> R b.

(** [Q] holds of the canvas and the encoder of [e] if [e] is a compositing
    run. *)
Definition composite_with (Q : Z -> Z -> encoder -> Prop) (e : event)
  : Prop :=
  match e with
  | RunComposite _ target_width target_height _ _ _ enc _ =>
      Q target_width target_height enc
  | _ => True
  end.

(** *** [get_video_info]: from the answer of ffprobe to the dictionary

    A stream of the answer with its fields converted as the function
    converts them.  [stream_width] and [stream_height] are [None] where the
    key is absent or [int] fails, which ends [get_video_info] with the
    empty dictionary; [sample_aspect_ratio] and [avg_frame_rate] are [None]
    where the key is absent, is the literal ['0:1'] (for the frame rate
    ['0/0']) or is not two integers, which leaves the default in place. *)
Record stream := mk_stream {
  codec_type : string;
  codec_name : option string;
  stream_width : option Z;
  stream_height : option Z;
  sample_aspect_ratio : option (Z * Z);
  avg_frame_rate : option (Z * Z)
}.

(** [probe['streams']] and the duration read from [probe['format']]. *)
Record probe := mk_probe {
  streams : list stream;
  format_duration : Q
}.

Definition is_type (t : string) (s : stream) : bool :=
  String.eqb (codec_type s) t.

(** [sar_ratio]: 1.0 unless the pixel aspect ratio can be divided out. *)
Definition sar_ratio_of (video_stream : stream) : Q :=
  match sample_aspect_ratio video_stream with
  | Some (sar_num, sar_den) =>
      if (sar_den =? 0)%Z then 1
      else Float.div (inject_Z sar_num) (inject_Z sar_den)
  | None => 1
  end.

(** [fps]: 30.0 unless the average frame rate has a denominator. *)
Definition fps_of (video_stream : stream) : Q :=
  match avg_frame_rate video_stream with
  | Some (num, den) =>
      if negb (den =? 0)%Z then Float.div (inject_Z num) (inject_Z den)
      else 30
  | None => 30
  end.

(** The dictionary [get_video_info] builds, [None] where it returns the
    empty one: no video stream, a size that cannot be read, or the
    [ZeroDivisionError] of [dar_numerator / dar_denominator]. *)
Definition parse_video_info (p : probe) : option video_info :=
  match find (is_type "video") (streams p) with
  | None => None
  | Some video_stream =>
      match stream_width video_stream, stream_height video_stream with
      | Some width, Some height =>
          let sar_ratio := sar_ratio_of video_stream in
          if (height =? 0)%Z then None else
          let dar_numerator := Float.mul (inject_Z width) sar_ratio in
          let display_ratio := Float.div dar_numerator (inject_Z height) in
          let fps := fps_of video_stream in
          let has_audio := existsb (is_type "audio") (streams p) in
          let audio_codec :=
            match find (is_type "audio") (streams p) with
            | Some s => Some (match codec_name s with
                              | Some c => c
                              | None => EmptyString
                              end)
            | None => None
            end in
          Some (mk_info width height display_ratio (format_duration p) fps
                        has_audio audio_codec)
      | _, _ => None
      end
  end.

End Final.

(** ** Video_Edit_FF.py *)

Module EditFF.

(** [width / height if height != 0 else 0]. *)
Definition ratio_of (width height : Z) : Q :=
  if negb (height =? 0)%Z then Float.div (inject_Z width) (inject_Z height)
  else 0.

(** [is_valid_aspect_ratio(width, height)]: the quotients, the literal
    [0.01] and the two subtractions are rounded. *)
Definition is_valid_aspect_ratio (width height : Z) : bool :=
  let ratio := ratio_of width height in
  let target_ratio_9_16 : Q := Float.div 9 16 in
  let target_ratio_16_9 : Q := Float.div 16 9 in
  let tolerance : Q := Float.round (1 # 100) in
  Py.ltb (Qabs (Float.sub ratio target_ratio_9_16)) tolerance
  || Py.ltb (Qabs (Float.sub ratio target_ratio_16_9)) tolerance.

(** The canvas of [process_video]: [None] where [width / height] raises
    [ZeroDivisionError], which the function turns into [False]. *)
Definition canvas (width height : Z) : option (Z * Z) :=
  if (height =? 0)%Z then None else
  let ratio := inject_Z width / inject_Z height in
  let target_ratio : Q := 9 # 16 in
  let '(new_width, new_height) :=
    if Py.ltb target_ratio ratio
    then (width, Py.int_of (inject_Z width / target_ratio))
    else (Py.int_of (inject_Z height * target_ratio), height) in
  let new_width :=
    if (new_width mod 2 =? 0)%Z then new_width else (new_width + 1)%Z in
  let new_height :=
    if (new_height mod 2 =? 0)%Z then new_height else (new_height + 1)%Z in
  Some (new_width, new_height).

(** [process_video(input_path, output_path, width, height)]: [run_ffmpeg]
    tells whether the command built for a canvas ends with return code 0
    and without an exception. *)
Definition process_video (run_ffmpeg : Z * Z -> bool) (width height : Z)
  : bool :=
  match canvas width height with
  | Some c => run_ffmpeg c
  | None => false
  end.

(** The counters of [main]. *)
Record counts := mk_counts {
  processed_count : Z;
  skipped_count : Z;
  error_count : Z
}.

(** The loop of [main] over the files found: [probe] is [get_video_info]
    ([None] where it returns [None]); the result is [None] where the loop is
    left by an exception, which ends the program with [sys.exit(1)]: the
    log line after the probe formats [width/height]. *)
Fixpoint main_loop (probe : string -> option (Z * Z))
         (run_ffmpeg : string -> Z * Z -> bool)
         (video_files : list string) (c : counts) : option counts :=
  match video_files with
  | [] => Some c
  | video_file :: rest =>
      match probe video_file with
      | None =>
          main_loop probe run_ffmpeg rest
            (mk_counts (processed_count c) (skipped_count c)
                       (error_count c + 1))
      | Some (width, height) =>
          if (height =? 0)%Z then None
          else if is_valid_aspect_ratio width height then
            main_loop probe run_ffmpeg rest
              (mk_counts (processed_count c) (skipped_count c + 1)
                         (error_count c))
          else if process_video (run_ffmpeg video_file) width height then
            main_loop probe run_ffmpeg rest
              (mk_counts (processed_count c + 1) (skipped_count c)
                         (error_count c))
          else
            main_loop probe run_ffmpeg rest
              (mk_counts (processed_count c) (skipped_count c)
                         (error_count c + 1))
      end
  end.

End EditFF.

(** ** The progress lines of the transcoder *)

Module Progress.

Local Open Scope string_scope.

Fixpoint strip_prefix (p s : string) : option string :=
  match p with
  | EmptyString => Some s
  | String a p' =>
      match s with
      | EmptyString => None
      | String b s' => if Ascii.eqb a b then strip_prefix p' s' else None
      end
  end.

(** [p in s]. *)
Fixpoint contains (p s : string) : bool :=
  match strip_prefix p s with
  | Some _ => true
  | None =>
      match s with
      | EmptyString => false
      | String _ s' => contains p s'
      end
  end.

(** The classes [\d] and [\s] of [re] on ASCII text. *)
Definition is_digit (c : ascii) : bool :=
  let n := nat_of_ascii c in (48 <=? n)%nat && (n <=? 57)%nat.

Definition is_space (c : ascii) : bool :=
  let n := nat_of_ascii c in
  ((9 <=? n)%nat && (n <=? 13)%nat)
  || ((28 <=? n)%nat && (n <=? 32)%nat).

Definition digit_value (c : ascii) : Z := Z.of_nat (nat_of_ascii c) - 48.

Fixpoint skip_spaces (s : string) : string :=
  match s with
  | String c s' => if is_space c then skip_spaces s' else s
  | EmptyString => s
  end.

(** The longest run of digits at the head of [s], as [int] reads it. *)
Fixpoint read_digits (s : string) (acc : Z) : Z :=
  match s with
  | String c s' =>
      if is_digit c then read_digits s' (10 * acc + digit_value c) else acc
  | EmptyString => acc
  end.

(** [(\d+)] at the head of [s]. *)
Definition match_digits (s : string) : option Z :=
  match s with
  | String c _ => if is_digit c then Some (read_digits s 0) else None
  | EmptyString => None
  end.

(** [re.search(r'frame=\s*(\d+)', s)] when [spaces] is set,
    [re.search(r'frame=(\d+)', s)] otherwise: the leftmost match. *)
Fixpoint re_search_frame (spaces : bool) (s : string) : option Z :=
  match s with
  | EmptyString => None
  | String _ s' =>
      match strip_prefix "frame=" s with
      | Some r =>
          match match_digits (if spaces then skip_spaces r else r) with
          | Some n => Some n
          | None => re_search_frame spaces s'
          end
      | None => re_search_frame spaces s'
      end
  end.

End Progress.

(** ** The filter graph handed to the transcoder *)

Module Graph.

(** The filters the wallpaper scripts write into [-filter_complex], with
    the parameters the scripts compute. *)
Inductive filter :=
| Transpose (dir : Z)
| Copy
| Setsar (sar : Z)
| Split (n : Z)
| ScaleIncrease (w h : Z)
| Crop (w h : Z)
| Gblur (sigma : Z)
| ColorWhite (w h : Z)
| DrawboxBlack (x y w h : Z)
| Boxblur (radius power : Z)
| Format (pix_fmt : string)
| Alphamerge
| Overlay (x y : Z).

(** [[in1][in2]f1,f2,...[out1][out2]]. *)
Record chain := mk_chain {
  inputs : list string;
  filters : list filter;
  outputs : list string
}.

Definition graph := list chain.

Definition all_filters (g : graph) : list filter :=
  flat_map filters g.

(** Reading a graph back: the first filter of a kind, with its size or
    position, and all the border boxes. *)
Fixpoint first_of {A} (pick : filter -> option A) (l : list filter)
  : option A :=
  match l with
  | [] => None
  | f :: l' => match pick f with Some a => Some a | None => first_of pick l' end
  end.

Definition cover_size (g : graph) : option (Z * Z) :=
  first_of (fun f => match f with ScaleIncrease w h => Some (w, h) | _ => None end)
           (all_filters g).

Definition crop_size (g : graph) : option (Z * Z) :=
  first_of (fun f => match f with Crop w h => Some (w, h) | _ => None end)
           (all_filters g).

Definition mask_size (g : graph) : option (Z * Z) :=
  first_of (fun f => match f with ColorWhite w h => Some (w, h) | _ => None end)
           (all_filters g).

Definition overlay_at (g : graph) : option (Z * Z) :=
  first_of (fun f => match f with Overlay x y => Some (x, y) | _ => None end)
           (all_filters g).

Definition border_boxes (g : graph) : list filter :=
  List.filter
    (fun f => match f with DrawboxBlack _ _ _ _ => true | _ => false end)
    (all_filters g).

(** The foreground (the mask it is merged with) is no larger than the
    canvas the background is cropped to, and is laid at a non-negative
    offset. *)
Definition foreground_fits (g : graph) : Prop :=
  exists cw ch fw fh x y,
    crop_size g = Some (cw, ch) /\ mask_size g = Some (fw, fh)
    /\ overlay_at g = Some (x, y)
    /\ (fw <= cw)%Z /\ (fh <= ch)%Z /\ (0 <= x)%Z /\ (0 <= y)%Z.

End Graph.

(** ** ve_wallpaper.py *)

Module Wallpaper.

Import Graph.
Local Open Scope Z_scope.

(** [build_complex_filter(rotate, w, h, target_h)]. *)
Definition build_complex_filter (rotate : bool) (w h target_h : Z) : graph :=
  let sw := w / 2 * 2 in
  let sh := h / 2 * 2 in
  let sth := target_h / 2 * 2 in
  let y_offset := (sth - sh) / 2 in
  let trans := if rotate then Transpose 1 else Copy in
  [ mk_chain ["0:v"] [trans; Setsar 1] ["fg_raw"];
    mk_chain ["fg_raw"] [Split 2] ["fg_for_bg"; "fg_for_main"];
    mk_chain ["fg_for_bg"] [ScaleIncrease sw sth; Crop sw sth; Gblur 20] ["bg"];
    mk_chain [] [ColorWhite sw sh] ["m_base"];
    mk_chain ["m_base"]
             [DrawboxBlack 0 0 sw 30;
              DrawboxBlack 0 (sh - 30) sw 30;
              DrawboxBlack 0 0 30 sh;
              DrawboxBlack (sw - 30) 0 30 sh;
              Boxblur 30 1; Format "gray"]
             ["mask_feathered"];
    mk_chain ["fg_for_main"] [Format "yuva420p"] ["fg_alpha"];
    mk_chain ["fg_alpha"; "mask_feathered"] [Alphamerge] ["fg_feathered"];
    mk_chain ["bg"; "fg_feathered"]
             [Overlay 0 y_offset; Format "yuv420p"] ["outv"] ]%string.

(** The rotation test of [process_file] and the working size it leads to. *)
Definition rotate (ow oh : Z) : bool := oh <? ow.

Definition working_size (ow oh : Z) : Z * Z :=
  if rotate ow oh then (oh, ow) else (ow, oh).

(** The two target presets. *)
Definition presets : list (string * Q) :=
  [("9x20"%string, 9 # 20); ("5x11"%string, 5 # 11)]%Q.

(** [target_h = int(w / ratio)]. *)
Definition target_height (w : Z) (ratio : Q) : Z :=
  Py.int_of (inject_Z w / ratio).

(** The graph [process_file] builds for a source of [ow] x [oh] pixels and
    one preset. *)
Definition plan (ow oh : Z) (ratio : Q) : graph :=
  let '(w, h) := working_size ow oh in
  build_complex_filter (rotate ow oh) w h (target_height w ratio).

(** The child's standard output as [readline] sees it: a line and what
    [poll()] answers after it, or no line, ever. *)
Inductive pipe :=
| Blocked
| Read (line : string) (poll : option Z) (rest : pipe).

(** The read loop of [process_file]: the arguments of the calls
    [pbar.update(curr_f - last_f)] and the return code, or [None] if the
    loop never ends. *)
Fixpoint progress_loop (p : pipe) (last_f : Z) (updates : list Z)
  : option (Z * list Z) :=
  match p with
  | Blocked => None
  | Read line poll rest =>
      match line, poll with
      | EmptyString, Some returncode => Some (returncode, updates)
      | _, _ =>
          match Progress.re_search_frame false line with
          | Some curr_f =>
              progress_loop rest curr_f (updates ++ [curr_f - last_f])
          | None => progress_loop rest last_f updates
          end
      end
  end.

(** The value of [last_f] when the read loop ends. *)
Fixpoint final_frame (p : pipe) (last_f : Z) : option Z :=
  match p with
  | Blocked => None
  | Read line poll rest =>
      match line, poll with
      | EmptyString, Some _ => Some last_f
      | _, _ =>
          match Progress.re_search_frame false line with
          | Some curr_f => final_frame rest curr_f
          | None => final_frame rest last_f
          end
      end
  end.

(** The position of the bar after the calls [pbar.update(n)]. *)
Definition bar_position (updates : list Z) : Z := fold_right Z.add 0 updates.

End Wallpaper.

(** ** main_gui_v3_release.py *)

Module Gui.

Import Graph.

(** Signals of [VideoWorker] and calls on the child process.
    [TotalProgress] stands for
    [total_progress_signal.emit(int((completed_tasks / total_sub_tasks) * 100))]
    and keeps the two counters. *)
Inductive event :=
| LogProgress (pct : Z)
| LogStall
| Terminate
| LogUnit (label : string)
| LogGpuFailed
| Popen (codec : string) (filter_str : graph)
| LogDone
| TotalProgress (completed_tasks total_sub_tasks : Z).

(** One turn of the [while True] loop as the world presents it: the flag
    [is_running] is down ([Cancelled]); or [readline] never returns
    ([Blocked]); or it returns [line], [poll()] answers [poll], and
    [time.time()] reads [clock_advance] where the last advance is stamped
    and [clock_check] where the watchdog looks. *)
Record tick := mk_tick {
  line : string;
  poll : option Z;
  clock_advance : Q;
  clock_check : Q
}.

Inductive pipe :=
| Cancelled
| Blocked
| Read (k : tick) (rest : pipe).

(** A call either returns or never does. *)
Inductive outcome (A : Type) :=
| Returns (a : A) (evs : list event)
| Hangs (evs : list event).
Arguments Returns {A} a evs.
Arguments Hangs {A} evs.

Record watch := mk_watch {
  last_frame_count : Z;
  last_active_time : Q
}.

(** The frame counter on a line: ['frame=' in line] and then the match of
    [frame=\s*(\d+)]. *)
Definition frame_of (line : string) : option Z :=
  if Progress.contains "frame=" line
  then Progress.re_search_frame true line
  else None.

(** [min(100, int(current_frame * 100 / total_frames))], computed where
    [total_frames > 0]. *)
Definition percent (total_frames current_frame : Z) : Z :=
  Z.min 100 (Z.quot (current_frame * 100) total_frames).

(** The [frame=] clause of the loop body. *)
Definition on_line (total_frames : Z) (k : tick) (s : watch)
  : watch * list event :=
  match frame_of (line k) with
  | Some current_frame =>
      if negb (current_frame =? last_frame_count s)%Z then
        (mk_watch current_frame (clock_advance k),
         if (0 <? total_frames)%Z then
           [LogProgress (percent total_frames current_frame)]
         else [])
      else (s, [])
  | None => (s, [])
  end.

(** The watchdog test. *)
Definition stalled (k : tick) (s : watch) : bool :=
  Py.ltb 25 (clock_check k - last_active_time s).

Fixpoint watch_loop (total_frames : Z) (p : pipe) (s : watch)
         (evs : list event) : outcome bool :=
  match p with
  | Cancelled => Returns false (evs ++ [Terminate])
  | Blocked => Hangs evs
  | Read k rest =>
      match line k, poll k with
      | EmptyString, Some returncode =>
          Returns (returncode =? 0)%Z evs
      | _, _ =>
          let '(s', out) := on_line total_frames k s in
          if stalled k s' then
            Returns false (evs ++ out ++ [LogStall; Terminate])
          else watch_loop total_frames rest s' (evs ++ out)
      end
  end.

(** The child started by [Popen]: the clock when the loop is entered and
    what its pipe does. *)
Record child := mk_child {
  started : Q;
  stdout : pipe
}.

(** [run_ffmpeg_task(cmd, total_frames)]. *)
Definition run_ffmpeg_task (c : child) (total_frames : Z) : outcome bool :=
  watch_loop total_frames (stdout c) (mk_watch (-1) (started c)) [].

(** [filter_str] of [run]. *)
Definition filter_str (is_landscape : bool) (w h target_h : Z) : graph :=
  let sw := (w / 2 * 2)%Z in
  let sh := (h / 2 * 2)%Z in
  let sth := (target_h / 2 * 2)%Z in
  let y_off := ((sth - sh) / 2)%Z in
  let trans := if is_landscape then Transpose 1 else Copy in
  [ mk_chain ["0:v"] [trans; Setsar 1] ["raw"];
    mk_chain ["raw"] [Split 2] ["bg_s"; "fg_s"];
    mk_chain ["bg_s"] [ScaleIncrease sw sth; Crop sw sth; Gblur 20] ["bg"];
    mk_chain [] [ColorWhite sw sh] ["m_base"];
    mk_chain ["m_base"]
             [DrawboxBlack 0 0 sw 30;
              DrawboxBlack 0 (sh - 30) sw 30;
              DrawboxBlack 0 0 30 sh;
              DrawboxBlack (sw - 30) 0 30 sh;
              Boxblur 30 1; Format "gray"]
             ["mask"];
    mk_chain ["fg_s"] [Format "yuva420p"] ["fg_a"];
    mk_chain ["fg_a"; "mask"] [Alphamerge] ["fg_f"];
    mk_chain ["bg"; "fg_f"] [Overlay 0 y_off; Format "yuv420p"] ["outv"]
  ]%string.

(** The body of the inner [for label, ratio] loop of [run] for one video of
    [raw_w] x [raw_h] pixels and [total_f] frames: [gpu] and [cpu] are the
    children the two commands start; the result is [completed_tasks]. *)
Definition run_unit (raw_w raw_h total_f : Z) (label : string) (ratio : Q)
           (gpu cpu : child) (completed_tasks total_sub_tasks : Z)
  : outcome Z :=
  let is_landscape := (raw_h <? raw_w)%Z in
  let '(w, h) := if is_landscape then (raw_h, raw_w) else (raw_w, raw_h) in
  let target_h := Py.int_of (inject_Z w / ratio) in
  let graph := filter_str is_landscape w h target_h in
  let finish evs :=
    let completed_tasks := (completed_tasks + 1)%Z in
    Returns completed_tasks
      (evs ++ [LogDone; TotalProgress completed_tasks total_sub_tasks]) in
  let evs0 := [LogUnit label; Popen "h264_nvenc" graph] in
  match run_ffmpeg_task gpu total_f with
  | Hangs evs => Hangs (evs0 ++ evs)
  | Returns success evs =>
      if negb success then
        let evs1 := evs0 ++ evs ++ [LogGpuFailed; Popen "libx264" graph] in
        match run_ffmpeg_task cpu total_f with
        | Hangs evs' => Hangs (evs1 ++ evs')
        | Returns _ evs' => finish (evs1 ++ evs')
        end
      else finish (evs0 ++ evs)
  end.

(** The frame counters on the lines of a pipe, and the percentages in a
    log. *)
Fixpoint frames_of (p : pipe) : list Z :=
  match p with
  | Read k rest =>
      match frame_of (line k) with
      | Some f => f :: frames_of rest
      | None => frames_of rest
      end
  | _ => []
  end.

Fixpoint progress_values (evs : list event) : list Z :=
  match evs with
  | LogProgress pct :: evs' => pct :: progress_values evs'
  | _ :: evs' => progress_values evs'
  | [] => []
  end.

Definition events_of {A} (o : outcome A) : list event :=
  match o with
  | Returns _ evs => evs
  | Hangs evs => evs
  end.

(** Every percentage in the log is at most the percentage of every frame
    in [frames]. *)
Definition below (total_frames : Z) (evs : list event) (frames : list Z)
  : Prop :=
  forall pct f, In pct (progress_values evs) -> In f frames ->
                (pct <= percent total_frames f)%Z.

(** [create_progress_bar_text(percent, length)]: the cells of the bar
    between the two [|], [true] for a full block; a string repeated a
    negative number of times is empty. *)
Definition create_progress_bar_text (percent length : Z) : list bool :=
  let filled_len := (length * percent / 100)%Z in
  repeat true (Z.to_nat filled_len)
  ++ repeat false (Z.to_nat (length - filled_len)).

(** The turns of a pipe, and a pipe that starts with given turns. *)
Fixpoint ticks (p : pipe) : list tick :=
  match p with
  | Read k rest => k :: ticks rest
  | _ => []
  end.

Definition reads (ks : list tick) (p : pipe) : pipe := fold_right Read p ks.

(** The commands started in a log: codec and filter graph. *)
Fixpoint commands (evs : list event) : list (string * graph) :=
  match evs with
  | [] => []
  | Popen codec filter_str :: evs' => (codec, filter_str) :: commands evs'
  | _ :: evs' => commands evs'
  end.

(** A turn that is not the end of the child and does not change the frame
    counter. *)
Definition idle (s : watch) (k : tick) : Prop :=
  (line k <> EmptyString \/ poll k = None)
  /\ (frame_of (line k) = None
      \/ frame_of (line k) = Some (last_frame_count s)).

End Gui.

(** ** Sample worlds *)

Module Sample.

Import Final.
Local Open Scope string_scope.

(** A 1080 x 1440 source with square pixels, ten seconds long, and the
    same source ninety seconds long. *)
Definition short_3x4 : video_info :=
  mk_info 1080 1440 (3 # 4) 10 30 true (Some "aac").
Definition long_3x4 : video_info :=
  mk_info 1080 1440 (3 # 4) 90 30 true (Some "aac").

(** A 1280 x 720 source and its transposed copy. *)
Definition wide_16x9 : video_info :=
  mk_info 1280 720 (16 # 9) 10 30 true (Some "aac").
Definition tall_9x16 : video_info :=
  mk_info 720 1280 (9 # 16) 10 30 true (Some "aac").

(** A world where every tool succeeds: the source answers [info], the
    transposed copy [tall_9x16], no cut copy can be probed, and the written
    file has [size] bytes. *)
Definition world_of (info : video_info) (size : option Z) : world :=
  mk_world true false
    (fun p => match p with
              | File _ => Some info
              | Rotated _ => Some tall_9x16
              | Trimmed _ => None
              end)
    (fun _ _ => true) (fun _ => true) (fun _ => true) (fun _ => true)
    (fun _ => true) (fun _ => true) (fun _ => size).

(** Children of the GUI worker.  [silent]: one progress line one second
    after the start, then nothing, the process staying alive.  [late]: frame
    1 at once, frame 2 thirty seconds later, then a clean exit.
    [backwards]: frame 50, then frame 30, then a clean exit.  [stuck]:
    frame 1 at once and frame 1 again thirty seconds later.  [failing]: no
    output and exit code 1. *)
Definition silent : Gui.child :=
  Gui.mk_child 0 (Gui.Read (Gui.mk_tick "frame=120" None 1 1) Gui.Blocked).

Definition late : Gui.child :=
  Gui.mk_child 0
    (Gui.Read (Gui.mk_tick "frame=1" None 0 0)
       (Gui.Read (Gui.mk_tick "frame=2" None 30 30)
          (Gui.Read (Gui.mk_tick "" (Some 0%Z) 31 31) Gui.Blocked))).

Definition backwards : Gui.child :=
  Gui.mk_child 0
    (Gui.Read (Gui.mk_tick "frame=50" None 1 1)
       (Gui.Read (Gui.mk_tick "frame=30" None 2 2)
          (Gui.Read (Gui.mk_tick "" (Some 0%Z) 3 3) Gui.Blocked))).

Definition stuck : Gui.child :=
  Gui.mk_child 0
    (Gui.Read (Gui.mk_tick "frame=1" None 0 0)
       (Gui.Read (Gui.mk_tick "frame=1" None 30 30)
          (Gui.Read (Gui.mk_tick "" (Some 0%Z) 31 31) Gui.Blocked))).

Definition failing : Gui.child :=
  Gui.mk_child 0 (Gui.Read (Gui.mk_tick "" (Some 1%Z) 1 1) Gui.Blocked).

(** The same backwards output as the wallpaper script reads it. *)
Definition backwards_pipe : Wallpaper.pipe :=
  Wallpaper.Read "frame=50" None
    (Wallpaper.Read "frame=30" None
       (Wallpaper.Read "" (Some 0%Z) Wallpaper.Blocked)).

End Sample.

(** * Properties *)

(** ** Comparisons *)

Lemma ltb_lt (x y : Q) : Py.ltb x y = true <-> x < y.
Proof.
  unfold Py.ltb. rewrite negb_true_iff, <- not_true_iff_false, Qle_bool_iff.
  split; [apply Qnot_le_lt | apply Qlt_not_le].
Qed.

Lemma ltb_ge (x y : Q) : Py.ltb x y = false <-> y <= x.
Proof.
  unfold Py.ltb. rewrite negb_false_iff. apply Qle_bool_iff.
Qed.

Lemma leb_le (x y : Q) : Py.leb x y = true <-> x <= y.
Proof. apply Qle_bool_iff. Qed.

(** ** Binary64 rounding

    [Float.round] is within half a unit in the last place of its argument. *)

Lemma nearest_even_close (n d : Z) :
  (0 < d)%Z -> (- d <= 2 * (Float.nearest_even n d * d - n) <= d)%Z.
Proof.
  intros Hd. unfold Float.nearest_even.
  pose proof (Z.div_mod n d ltac:(lia)) as Hn.
  pose proof (Z.mod_pos_bound n d Hd) as Hr.
  set (q := (n / d)%Z) in *. set (r := (n mod d)%Z) in *.
  assert (Hq : (q * d = d * q)%Z) by lia.
  assert (Hq1 : ((q + 1) * d = d * q + d)%Z) by lia.
  destruct (Z.compare_spec (2 * r) d) as [E | E | E];
    [destruct (Z.even q) | |]; rewrite ?Hq, ?Hq1; lia.
Qed.

Lemma up_down_pos (e : Z) : (0 < Float.up e /\ 0 < Float.down e)%Z.
Proof. unfold Float.up, Float.down. split; apply Z.pow_pos_nonneg; lia. Qed.

Lemma up_down_shift (e : Z) :
  (Float.down (e - 1) * Float.up e = 2 * (Float.down e * Float.up (e - 1)))%Z.
Proof.
  unfold Float.up, Float.down.
  destruct (Z_le_gt_dec e 0) as [H | H].
  - rewrite (Z.max_l 0 e), (Z.max_l 0 (e - 1)) by lia.
    rewrite (Z.max_r 0 (- (e - 1))), (Z.max_r 0 (- e)) by lia.
    replace (- (e - 1))%Z with (Z.succ (- e)) by lia.
    rewrite Z.pow_succ_r by lia. lia.
  - rewrite (Z.max_r 0 e), (Z.max_r 0 (e - 1)) by lia.
    rewrite (Z.max_l 0 (- (e - 1))), (Z.max_l 0 (- e)) by lia.
    replace e with (Z.succ (e - 1)) at 1 by lia.
    rewrite Z.pow_succ_r by lia. lia.
Qed.

Lemma log2_scale (n d : Z) :
  (0 < n)%Z -> (0 < d)%Z ->
  let e := (Z.log2 n - Z.log2 d - 52)%Z in
  (2 ^ 52 * (d * Float.up e) < 2 * (n * Float.down e))%Z.
Proof.
  intros Hn Hd e.
  destruct (Z.log2_spec n Hn) as [Ha _].
  destruct (Z.log2_spec d Hd) as [_ Hb].
  pose proof (Z.log2_nonneg n) as Hln. pose proof (Z.log2_nonneg d) as Hld.
  assert (E : (2 ^ Z.log2 n * Float.down e
               = 2 ^ 52 * (2 ^ Z.log2 d * Float.up e))%Z).
  { unfold Float.up, Float.down. rewrite <- !Z.pow_add_r by lia.
    f_equal. subst e. lia. }
  rewrite Z.pow_succ_r in Hb by lia.
  destruct (up_down_pos e) as [Hu Hdn].
  assert (H1 : (2 ^ Z.log2 n * Float.down e <= n * Float.down e)%Z)
    by (apply Z.mul_le_mono_nonneg_r; lia).
  assert (H2 : (d * Float.up e < 2 * 2 ^ Z.log2 d * Float.up e)%Z)
    by (apply Z.mul_lt_mono_pos_r; lia).
  lia.
Qed.

Lemma exponent_normal (n d : Z) :
  (0 < n)%Z -> (0 < d)%Z ->
  let e := Float.exponent n d in
  (2 ^ 52 * (d * Float.up e) <= n * Float.down e)%Z.
Proof.
  intros Hn Hd. unfold Float.exponent.
  set (e0 := (Z.log2 n - Z.log2 d - 52)%Z).
  destruct (n * Float.down e0 <? 2 ^ 52 * (d * Float.up e0))%Z eqn:E.
  - pose proof (log2_scale n d Hn Hd) as H. cbv zeta in H. fold e0 in H.
    pose proof (up_down_shift e0) as Hs.
    destruct (up_down_pos e0) as [Hu Hdn].
    destruct (up_down_pos (e0 - 1)) as [Hu' Hdn'].
    cbv zeta.
    apply Z.mul_le_mono_pos_r with (p := (Float.up e0 * Float.down e0)%Z);
      [lia |].
    nia.
  - apply Z.ltb_ge in E. exact E.
Qed.

Lemma round_pos_error (n d : Z) :
  (0 < n)%Z -> (0 < d)%Z ->
  Qabs (Float.round_pos n d - (n # Z.to_pos d)) <= (n # Z.to_pos d) * Float.ulp.
Proof.
  intros Hn Hd. unfold Float.round_pos.
  pose proof (exponent_normal n d Hn Hd) as Hnorm. cbv zeta in Hnorm.
  set (e := Float.exponent n d) in *.
  destruct (up_down_pos e) as [Hu Hdn].
  pose proof (nearest_even_close (n * Float.down e) (d * Float.up e)
                ltac:(nia)) as Hm.
  set (m := Float.nearest_even (n * Float.down e) (d * Float.up e)) in *.
  set (U := Float.up e) in *. set (P := Float.down e) in *.
  assert (K : (- (n * P) <= (m * U * d - n * P) * 2 ^ 53 <= n * P)%Z).
  { replace (m * U * d)%Z with (m * (d * U))%Z by lia.
    change (2 ^ 53)%Z with (2 * 2 ^ 52)%Z. lia. }
  apply Qabs_Qle_condition. unfold Float.ulp, Qle, Qminus, Qplus, Qopp, Qmult.
  cbn [Qnum Qden]. rewrite !Pos2Z.inj_mul, !Z2Pos.id by lia.
  change (2 ^ 53)%Z with 9007199254740992%Z in K.
  split; nia.
Qed.

Lemma round_error (x : Q) : Qabs (Float.round x - x) <= Qabs x * Float.ulp.
Proof.
  destruct x as [[| n | n] d]; unfold Float.round; cbn [Qnum Qden].
  - unfold Float.ulp, Qle, Qabs, Qminus, Qplus, Qopp, Qmult. simpl. lia.
  - pose proof (round_pos_error (Zpos n) (Zpos d) ltac:(lia) ltac:(lia)) as H.
    cbn [Z.to_pos] in H. exact H.
  - pose proof (round_pos_error (Zpos n) (Zpos d) ltac:(lia) ltac:(lia)) as H.
    cbn [Z.to_pos] in H.
    assert (E1 : - Float.round_pos (Zpos n) (Zpos d) - (Zneg n # d)
                 == - (Float.round_pos (Zpos n) (Zpos d) - (Zpos n # d))).
    { change (Zneg n # d) with (- (Zpos n # d)). ring. }
    rewrite E1, Qabs_opp.
    change (Qabs (Zneg n # d)) with (Zpos n # d). exact H.
Qed.

Lemma round_abs (x : Q) :
  Qabs x * (1 - Float.ulp) <= Qabs (Float.round x)
  /\ Qabs (Float.round x) <= Qabs x * (1 + Float.ulp).
Proof.
  pose proof (round_error x) as H. revert H. unfold Float.ulp.
  apply (Qabs_case (Float.round x - x)); intros H1;
    apply (Qabs_case x); intros H2;
    apply (Qabs_case (Float.round x)); intros H3 H; split; lra.
Qed.

(** ** Ratio classification *)

Lemma tolerance_value :
  Float.round (1 # 100) = 5764607523034235 # 576460752303423488.
Proof. vm_compute. reflexivity. Qed.

(** The rounded test [abs(r - cd) < 0.01], where the double [cd] stands for
    the ratio [c]: it holds 5e-16 inside the band around [c] and fails
    5e-16 outside. *)
Lemma within_tolerance (r c cd : Q) :
  Qabs (cd - c) <= 2 # 10000000000000000 ->
  Qabs (r - c) <= (1 # 100) - (1 # 2000000000000000) ->
  Py.ltb (Qabs (Float.sub r cd)) (Float.round (1 # 100)) = true.
Proof.
  intros Hc Hr. apply ltb_lt. rewrite tolerance_value. unfold Float.sub.
  destruct (round_abs (r - cd)) as [_ Hub]. revert Hc Hr Hub.
  unfold Float.ulp.
  apply (Qabs_case (cd - c)); intros H1;
    apply (Qabs_case (r - c)); intros H2;
    apply (Qabs_case (r - cd)); intros H3;
    apply (Qabs_case (Float.round (r - cd))); intros H4 Hc Hr Hub; lra.
Qed.

Lemma beyond_tolerance (r c cd : Q) :
  Qabs (cd - c) <= 2 # 10000000000000000 ->
  (1 # 100) + (1 # 2000000000000000) <= Qabs (r - c) ->
  Py.ltb (Qabs (Float.sub r cd)) (Float.round (1 # 100)) = false.
Proof.
  intros Hc Hr. apply ltb_ge. rewrite tolerance_value. unfold Float.sub.
  destruct (round_abs (r - cd)) as [Hlb _]. revert Hc Hr Hlb.
  unfold Float.ulp.
  apply (Qabs_case (cd - c)); intros H1;
    apply (Qabs_case (r - c)); intros H2;
    apply (Qabs_case (r - cd)); intros H3;
    apply (Qabs_case (Float.round (r - cd))); intros H4 Hc Hr Hlb; lra.
Qed.

Lemma double_9_16 : Qabs (Float.div 9 16 - (9 # 16)) <= 2 # 10000000000000000.
Proof. vm_compute. discriminate. Qed.

Lemma double_9_18 : Qabs (Float.div 9 18 - (9 # 18)) <= 2 # 10000000000000000.
Proof. vm_compute. discriminate. Qed.

Lemma double_9_15 : Qabs (Float.div 9 15 - (9 # 15)) <= 2 # 10000000000000000.
Proof. vm_compute. discriminate. Qed.

Lemma double_16_9 : Qabs (Float.div 16 9 - (16 # 9)) <= 2 # 10000000000000000.
Proof. vm_compute. discriminate. Qed.

Lemma target_ratio_exact :
  Qabs (Final.TARGET_RATIO - (9 # 16)) <= 2 # 10000000000000000.
Proof. vm_compute. discriminate. Qed.

(** The quotient [width / height] of a ratio below 2 is rounded by less
    than 5e-16, and a ratio outside a band stays outside. *)
Lemma quotient_near (q c : Q) :
  0 <= c <= 2 - (1 # 100) ->
  Qabs (q - c) <= (1 # 100) - (1 # 1000000000000000) ->
  Qabs (Float.round q - c) <= (1 # 100) - (1 # 2000000000000000).
Proof.
  intros Hc Hq. pose proof (round_error q) as He. revert Hq He.
  unfold Float.ulp.
  apply (Qabs_case (q - c)); intros H1;
    apply (Qabs_case q); intros H2;
    apply (Qabs_case (Float.round q - q)); intros H3;
    apply (Qabs_case (Float.round q - c)); intros H4 Hq He; lra.
Qed.

Lemma quotient_far (q c : Q) :
  (1 # 2) <= c <= 2 - (1 # 100) ->
  (1 # 100) + (1 # 1000000000000000) <= Qabs (q - c) ->
  (1 # 100) + (1 # 2000000000000000) <= Qabs (Float.round q - c).
Proof.
  intros Hc Hq. pose proof (round_error q) as He. revert Hq He.
  unfold Float.ulp.
  apply (Qabs_case (q - c)); intros H1;
    apply (Qabs_case q); intros H2;
    apply (Qabs_case (Float.round q - q)); intros H3;
    apply (Qabs_case (Float.round q - c)); intros H4 Hq He; lra.
Qed.

Lemma is_target_ratio_near (r : Q) :
  Qabs (r - (9 # 16)) <= (1 # 100) - (1 # 1000000000000000)
  \/ Qabs (r - (9 # 18)) <= (1 # 100) - (1 # 1000000000000000)
  \/ Qabs (r - (9 # 15)) <= (1 # 100) - (1 # 1000000000000000) ->
  Final.is_target_ratio r = true.
Proof.
  assert (Hm : forall x : Q,
             x <= (1 # 100) - (1 # 1000000000000000) ->
             x <= (1 # 100) - (1 # 2000000000000000)) by (intros x Hx; lra).
  unfold Final.is_target_ratio. intros [H | [H | H]].
  - rewrite (within_tolerance r (9 # 16) _ target_ratio_exact (Hm _ H)).
    reflexivity.
  - rewrite (within_tolerance r (9 # 18) _ double_9_18 (Hm _ H)).
    now destruct (Py.ltb _ _).
  - rewrite (within_tolerance r (9 # 15) _ double_9_15 (Hm _ H)).
    rewrite orb_true_r. now destruct (Py.ltb _ _).
Qed.

Lemma is_target_ratio_far (r : Q) :
  (1 # 100) + (1 # 1000000000000000) <= Qabs (r - (9 # 16)) ->
  (1 # 100) + (1 # 1000000000000000) <= Qabs (r - (9 # 18)) ->
  (1 # 100) + (1 # 1000000000000000) <= Qabs (r - (9 # 15)) ->
  Final.is_target_ratio r = false.
Proof.
  assert (Hm : forall x : Q,
             (1 # 100) + (1 # 1000000000000000) <= x ->
             (1 # 100) + (1 # 2000000000000000) <= x) by (intros x Hx; lra).
  unfold Final.is_target_ratio. intros H1 H2 H3.
  rewrite (beyond_tolerance r (9 # 16) _ target_ratio_exact (Hm _ H1)).
  rewrite (beyond_tolerance r (9 # 18) _ double_9_18 (Hm _ H2)).
  rewrite (beyond_tolerance r (9 # 15) _ double_9_15 (Hm _ H3)).
  reflexivity.
Qed.

Lemma ratio_of_rounds (width height : Z) :
  height <> 0%Z ->
  EditFF.ratio_of width height
  = Float.round (inject_Z width / inject_Z height).
Proof.
  intros H. unfold EditFF.ratio_of, Float.div.
  apply Z.eqb_neq in H. now rewrite H.
Qed.

Lemma is_valid_aspect_ratio_near (width height : Z) :
  height <> 0%Z ->
  Qabs (inject_Z width / inject_Z height - (9 # 16))
  <= (1 # 100) - (1 # 1000000000000000)
  \/ Qabs (inject_Z width / inject_Z height - (16 # 9))
     <= (1 # 100) - (1 # 1000000000000000) ->
  EditFF.is_valid_aspect_ratio width height = true.
Proof.
  intros Hh H. unfold EditFF.is_valid_aspect_ratio.
  rewrite (ratio_of_rounds width height Hh). apply orb_true_iff.
  destruct H as [H | H]; [left | right].
  - apply (within_tolerance _ (9 # 16) _ double_9_16).
    apply quotient_near; [lra | exact H].
  - apply (within_tolerance _ (16 # 9) _ double_16_9).
    apply quotient_near; [lra | exact H].
Qed.

Lemma is_valid_aspect_ratio_far (width height : Z) :
  height <> 0%Z ->
  (1 # 100) + (1 # 1000000000000000)
  <= Qabs (inject_Z width / inject_Z height - (9 # 16)) ->
  (1 # 100) + (1 # 1000000000000000)
  <= Qabs (inject_Z width / inject_Z height - (16 # 9)) ->
  EditFF.is_valid_aspect_ratio width height = false.
Proof.
  intros Hh H1 H2. unfold EditFF.is_valid_aspect_ratio.
  rewrite (ratio_of_rounds width height Hh). apply orb_false_iff. split.
  - apply (beyond_tolerance _ (9 # 16) _ double_9_16).
    apply quotient_far; [lra | exact H1].
  - apply (beyond_tolerance _ (16 # 9) _ double_16_9).
    apply quotient_far; [lra | exact H2].
Qed.

(** C5, as stated, fails on [is_valid_aspect_ratio]: a 1000 x 2000 source has
    ratio 9/18 exactly and is not skipped, and a 1920 x 1080 source is skipped
    although its ratio is near none of 9/16, 9/18 and 9/15. *)
Lemma C5_is_valid_aspect_ratio_counterexample :
  ~ (Qabs (EditFF.ratio_of 1000 2000 - (9 # 18)) < 1 # 100 ->
     EditFF.is_valid_aspect_ratio 1000 2000 = true)
  /\ ~ (EditFF.is_valid_aspect_ratio 1920 1080 = true ->
        Qabs (EditFF.ratio_of 1920 1080 - (9 # 16)) < 1 # 100
        \/ Qabs (EditFF.ratio_of 1920 1080 - (9 # 18)) < 1 # 100
        \/ Qabs (EditFF.ratio_of 1920 1080 - (9 # 15)) < 1 # 100).
Proof.
  split.
  - intros H. assert (E : EditFF.is_valid_aspect_ratio 1000 2000 = false)
      by (vm_compute; reflexivity).
    rewrite H in E; [discriminate | vm_compute; reflexivity].
  - intros H. destruct H as [H | [H | H]];
      [vm_compute; reflexivity | | | ]; vm_compute in H; discriminate.
Qed.

(** C5 (amended).  With every operation rounded as the interpreter rounds
    it, [is_target_ratio] answers true for every ratio at most
    0.01 - 1e-15 from 9/16, 9/18 or 9/15 and false for every ratio at least
    0.01 + 1e-15 from all three; [is_valid_aspect_ratio] answers true for
    every size whose ratio is at most 0.01 - 1e-15 from 9/16 or 16/9, false
    for every size whose ratio is at least 0.01 + 1e-15 from both, and false
    for height 0; so both skip the ratios that close to 9/16.  Within
    1e-15 of the edge of a band the rounding decides: the double 0.61 is
    less than 0.01 from 9/15 and is not skipped, and the display ratio of a
    354 x 640 picture with pixel aspect 16:15, which is 0.59 and so exactly
    0.01 from 9/15, is skipped. *)
Theorem C5_ratio_classification :
  (forall r : Q,
      Qabs (r - (9 # 16)) <= (1 # 100) - (1 # 1000000000000000)
      \/ Qabs (r - (9 # 18)) <= (1 # 100) - (1 # 1000000000000000)
      \/ Qabs (r - (9 # 15)) <= (1 # 100) - (1 # 1000000000000000) ->
      Final.is_target_ratio r = true)
  /\ (forall r : Q,
         (1 # 100) + (1 # 1000000000000000) <= Qabs (r - (9 # 16)) ->
         (1 # 100) + (1 # 1000000000000000) <= Qabs (r - (9 # 18)) ->
         (1 # 100) + (1 # 1000000000000000) <= Qabs (r - (9 # 15)) ->
         Final.is_target_ratio r = false)
  /\ (forall width height : Z,
         height <> 0%Z ->
         Qabs (inject_Z width / inject_Z height - (9 # 16))
         <= (1 # 100) - (1 # 1000000000000000)
         \/ Qabs (inject_Z width / inject_Z height - (16 # 9))
            <= (1 # 100) - (1 # 1000000000000000) ->
         EditFF.is_valid_aspect_ratio width height = true)
  /\ (forall width height : Z,
         height <> 0%Z ->
         (1 # 100) + (1 # 1000000000000000)
         <= Qabs (inject_Z width / inject_Z height - (9 # 16)) ->
         (1 # 100) + (1 # 1000000000000000)
         <= Qabs (inject_Z width / inject_Z height - (16 # 9)) ->
         EditFF.is_valid_aspect_ratio width height = false)
  /\ (forall width : Z, EditFF.is_valid_aspect_ratio width 0 = false)
  /\ (Qabs (Float.round (61 # 100) - (9 # 15)) < 1 # 100
      /\ Final.is_target_ratio (Float.round (61 # 100)) = false)
  /\ (Float.div (Float.mul 354 (Float.div 16 15)) 640 > 59 # 100
      /\ Final.is_target_ratio
           (Float.div (Float.mul 354 (Float.div 16 15)) 640) = true).
Proof.
  split; [exact is_target_ratio_near |].
  split; [exact is_target_ratio_far |].
  split; [exact is_valid_aspect_ratio_near |].
  split; [exact is_valid_aspect_ratio_far |].
  split; [intros width; reflexivity |].
  split; (split; vm_compute; reflexivity).
Qed.

Lemma C5_ratio_classification_witness :
  (Qabs ((57 # 100) - (9 # 16)) <= (1 # 100) - (1 # 1000000000000000)
   /\ Final.is_target_ratio (57 # 100) = true)
  /\ (((1 # 100) + (1 # 1000000000000000) <= Qabs ((3 # 4) - (9 # 16))
       /\ (1 # 100) + (1 # 1000000000000000) <= Qabs ((3 # 4) - (9 # 18))
       /\ (1 # 100) + (1 # 1000000000000000) <= Qabs ((3 # 4) - (9 # 15)))
      /\ Final.is_target_ratio (3 # 4) = false)
  /\ ((1080%Z <> 0%Z
       /\ Qabs (inject_Z 1920 / inject_Z 1080 - (16 # 9))
          <= (1 # 100) - (1 # 1000000000000000))
      /\ EditFF.is_valid_aspect_ratio 1920 1080 = true)
  /\ ((2000%Z <> 0%Z
       /\ (1 # 100) + (1 # 1000000000000000)
          <= Qabs (inject_Z 1000 / inject_Z 2000 - (9 # 16))
       /\ (1 # 100) + (1 # 1000000000000000)
          <= Qabs (inject_Z 1000 / inject_Z 2000 - (16 # 9)))
      /\ EditFF.is_valid_aspect_ratio 1000 2000 = false).
Proof.
  assert (H1 : Qabs ((57 # 100) - (9 # 16))
               <= (1 # 100) - (1 # 1000000000000000))
    by (vm_compute; discriminate).
  assert (H2 : (1 # 100) + (1 # 1000000000000000)
               <= Qabs ((3 # 4) - (9 # 16))) by (vm_compute; discriminate).
  assert (H3 : (1 # 100) + (1 # 1000000000000000)
               <= Qabs ((3 # 4) - (9 # 18))) by (vm_compute; discriminate).
  assert (H4 : (1 # 100) + (1 # 1000000000000000)
               <= Qabs ((3 # 4) - (9 # 15))) by (vm_compute; discriminate).
  assert (H5 : 1080%Z <> 0%Z) by discriminate.
  assert (H6 : Qabs (inject_Z 1920 / inject_Z 1080 - (16 # 9))
               <= (1 # 100) - (1 # 1000000000000000))
    by (vm_compute; discriminate).
  assert (H7 : 2000%Z <> 0%Z) by discriminate.
  assert (H8 : (1 # 100) + (1 # 1000000000000000)
               <= Qabs (inject_Z 1000 / inject_Z 2000 - (9 # 16)))
    by (vm_compute; discriminate).
  assert (H9 : (1 # 100) + (1 # 1000000000000000)
               <= Qabs (inject_Z 1000 / inject_Z 2000 - (16 # 9)))
    by (vm_compute; discriminate).
  split; [split; [exact H1 |] | split; [split; [auto |] | split;
    [split; [auto |] | split; [auto |]]]].
  - exact (proj1 C5_ratio_classification (57 # 100) (or_introl H1)).
  - exact (proj1 (proj2 C5_ratio_classification) (3 # 4) H2 H3 H4).
  - exact (proj1 (proj2 (proj2 C5_ratio_classification)) 1920%Z 1080%Z H5
             (or_intror H6)).
  - exact (proj1 (proj2 (proj2 (proj2 C5_ratio_classification)))
             1000%Z 2000%Z H7 H8 H9).
Defined.

(** ** The trim decision *)

Lemma trim_target_some (d t : Q) :
  Final.trim_target d = Some t <-> 60 < d /\ t = 14.
Proof.
  unfold Final.trim_target, Final.MAX_DURATION, Final.TRIM_DURATION.
  destruct (Py.ltb 60 d) eqn:E.
  - apply ltb_lt in E. split.
    + intros [= <-]. auto.
    + intros [_ ->]. reflexivity.
  - apply ltb_ge in E. split; [discriminate |].
    intros [H _]. exfalso. exact (Qlt_not_le _ _ H E).
Qed.

Lemma trim_target_none (d : Q) :
  Final.trim_target d = None <-> d <= 60.
Proof.
  unfold Final.trim_target, Final.MAX_DURATION.
  destruct (Py.ltb 60 d) eqn:E.
  - apply ltb_lt in E. split; [discriminate |].
    intros H. exfalso. exact (Qlt_not_le _ _ E H).
  - apply ltb_ge in E. tauto.
Qed.

(** ** The rotation decision *)

Lemma needs_rotation_spec (r : Q) :
  Final.needs_rotation r = true <-> 1 <= r /\ r <= 16 # 9.
Proof.
  unfold Final.needs_rotation. rewrite andb_true_iff, !leb_le. reflexivity.
Qed.

Lemma wallpaper_rotate_spec (ow oh : Z) :
  Wallpaper.rotate ow oh = true <-> (oh < ow)%Z.
Proof. unfold Wallpaper.rotate. apply Z.ltb_lt. Qed.

(** ** The stages of [process_video] *)

Section Stages.

Import Final.
Variable w : world.

(** No trim is attempted for a source of at most 60 seconds. *)
Lemma trim_stage_short (input_path : path) (info : video_info)
      (l : list event) :
  duration info <= 60 ->
  trim_stage w input_path info l = (Val (input_path, info), l).
Proof.
  intros H. apply trim_target_none in H.
  unfold trim_stage. rewrite H. reflexivity.
Qed.

(** A longer source is handed to [trim_video] with [t = 14]. *)
Lemma trim_stage_long (input_path : path) (info : video_info)
      (l : list event) :
  ffmpeg_path w = true ->
  get_video_info w input_path = Some info ->
  60 < duration info ->
  exists r l',
    trim_stage w input_path info l
    = (r, l ++ RunTrim input_path (Trimmed input_path) 14 :: l').
Proof.
  intros Hf Hp Hd.
  assert (Ht : trim_target (duration info) = Some TRIM_DURATION).
  { apply trim_target_some. split; [exact Hd | reflexivity]. }
  unfold trim_stage. rewrite Ht.
  unfold call, trim_video, try_except, bind, emit, check_run, return_, ret,
    raise.
  rewrite Hf, Hp. simpl.
  destruct (run_trim w input_path TRIM_DURATION); simpl.
  - destruct (get_video_info w (Trimmed input_path)) as [i |]; simpl;
      eexists; eexists; rewrite <- ?app_assoc; simpl; reflexivity.
  - eexists; eexists; rewrite <- ?app_assoc; simpl; reflexivity.
Qed.

(** When the cut fails, the stage warns and hands on the source it was
    given, with the metadata of that source. *)
Lemma trim_stage_failed (input_path : path) (info : video_info)
      (l : list event) :
  ffmpeg_path w = true ->
  get_video_info w input_path = Some info ->
  60 < duration info ->
  run_trim w input_path 14 = false
  \/ get_video_info w (Trimmed input_path) = None ->
  trim_stage w input_path info l
  = (Val (input_path, info),
     l ++ [RunTrim input_path (Trimmed input_path) 14]
       ++ (if run_trim w input_path 14 then [] else [ErrException])
       ++ [WarnTrimFailed]).
Proof.
  intros Hf Hp Hd Hfail.
  assert (Ht : trim_target (duration info) = Some TRIM_DURATION).
  { apply trim_target_some. split; [exact Hd | reflexivity]. }
  unfold trim_stage. rewrite Ht.
  unfold call, trim_video, try_except, bind, emit, check_run, return_, ret,
    raise.
  rewrite Hf, Hp. simpl. change TRIM_DURATION with (14 : Q).
  destruct (run_trim w input_path 14) eqn:Hrun; simpl.
  - destruct Hfail as [Hfail | Hfail]; [discriminate |].
    rewrite Hfail. simpl. rewrite <- !app_assoc. reflexivity.
  - rewrite <- !app_assoc. reflexivity.
Qed.

(** A source outside the band is composited as it is. *)
Lemma rotate_stage_skip (src : path * video_info) (l : list event) :
  needs_rotation (display_ratio (snd src)) = false ->
  rotate_stage w src l = (Val src, l).
Proof.
  destruct src as [p info]. simpl. intros H.
  unfold rotate_stage. rewrite H. reflexivity.
Qed.

(** A source inside the band is transposed, and the compositing reads the
    transposed copy and the metadata probed from it. *)
Lemma rotate_stage_apply (p : path) (info info' : video_info)
      (l : list event) :
  needs_rotation (display_ratio info) = true ->
  run_transpose w p = true ->
  get_video_info w (Rotated p) = Some info' ->
  rotate_stage w (p, info) l
  = (Val (Rotated p, info'), l ++ [RunTranspose p (Rotated p)]).
Proof.
  intros Hn Hr Hp.
  unfold rotate_stage, bind, emit, check_run, ret.
  rewrite Hn, Hr, Hp. reflexivity.
Qed.

End Stages.

(** ** The event log only grows *)

Section Appends.

Import Final.

Lemma appends_ret {A} (a : A) : appends (ret a).
Proof. intros l. unfold ret. simpl. now rewrite app_nil_r. Qed.

Lemma appends_return {A} (b : bool) : appends (@return_ A b).
Proof. intros l. unfold return_. simpl. now rewrite app_nil_r. Qed.

Lemma appends_raise {A} : appends (@raise A).
Proof. intros l. unfold raise. simpl. now rewrite app_nil_r. Qed.

Lemma appends_emit (e : event) : appends (emit e).
Proof. intros l. reflexivity. Qed.

Lemma appends_check_run (ok : bool) : appends (check_run ok).
Proof. destruct ok; [apply appends_ret | apply appends_raise]. Qed.

Lemma appends_bind {A B} (m : M A) (f : A -> M B) :
  appends m -> (forall a, appends (f a)) -> appends (bind m f).
Proof.
  intros Hm Hf l. unfold bind. rewrite (Hm l).
  destruct (m []) as [[a | b |] l0]; simpl.
  - rewrite (Hf a (l ++ l0)), (Hf a l0). simpl.
    now rewrite app_assoc.
  - reflexivity.
  - reflexivity.
Qed.

Lemma appends_call {A} (m : M bool) (k : bool -> M A) :
  appends m -> (forall b, appends (k b)) -> appends (call m k).
Proof.
  intros Hm Hk l. unfold call. rewrite (Hm l).
  destruct (m []) as [[a | b |] l0]; simpl.
  - rewrite (Hk a (l ++ l0)), (Hk a l0). simpl. now rewrite app_assoc.
  - rewrite (Hk b (l ++ l0)), (Hk b l0). simpl. now rewrite app_assoc.
  - reflexivity.
Qed.

Lemma appends_try_except (m : M bool) : appends m -> appends (try_except m).
Proof.
  intros Hm l. unfold try_except. rewrite (Hm l).
  destruct (m []) as [[a | b |] l0]; simpl; try reflexivity.
  now rewrite app_assoc.
Qed.

Create HintDb appends.
#[local] Hint Resolve appends_ret appends_return appends_raise appends_emit
  appends_check_run appends_try_except : appends.

Ltac appends_step :=
  match goal with
  | |- appends (bind _ _) => apply appends_bind; [| intros ?]
  | |- appends (call _ _) => apply appends_call; [| intros ?]
  | |- appends (try_except _) => apply appends_try_except
  | |- appends (match ?x with _ => _ end) => destruct x
  | |- appends (let '(_, _) := ?x in _) => destruct x
  | |- _ => solve [auto with appends]
  end.

Variable w : world.

Lemma appends_trim_video (p q : path) (t : Q) : appends (trim_video w p q t).
Proof. unfold trim_video. repeat appends_step. Qed.

Lemma appends_trim_stage (p : path) (info : video_info) :
  appends (trim_stage w p info).
Proof.
  unfold trim_stage. pose proof appends_trim_video. repeat appends_step.
Qed.

Lemma appends_rotate_stage (src : path * video_info) :
  appends (rotate_stage w src).
Proof. unfold rotate_stage. repeat appends_step. Qed.

Lemma appends_foreground (p : path) (ow oh : Z) (r : Q) (tw th : Z) :
  appends (create_feathered_foreground w p ow oh r tw th).
Proof. unfold create_feathered_foreground. repeat appends_step. Qed.

Lemma appends_validate_output (size : option Z) :
  appends (validate_output size).
Proof. unfold validate_output. repeat appends_step. Qed.

Lemma appends_compose_stage (src : path * video_info) (name : string)
      (tw th : Z) (cuda : bool) :
  appends (compose_stage w src name tw th cuda).
Proof.
  unfold compose_stage.
  pose proof appends_foreground. pose proof appends_validate_output.
  repeat appends_step.
Qed.

Lemma appends_after_trim (src : path * video_info) (name : string)
      (tw th : Z) (cuda : bool) :
  appends (after_trim w src name tw th cuda).
Proof.
  unfold after_trim. apply appends_bind.
  - apply appends_rotate_stage.
  - intros a. apply appends_compose_stage.
Qed.

(** [process_video] when the duration check hands on [src] after logging
    [evs]: the log is [evs] followed by what the later stages do. *)
Lemma process_video_after_trim (input_path : path) (info : video_info)
      (src : path * video_info) (evs : list event) (name : string)
      (tw th : Z) (cuda : bool) :
  ffmpeg_path w = true ->
  get_video_info w input_path = Some info ->
  trim_stage w input_path info [] = (Val src, evs) ->
  let rest := run_M (try_except (after_trim w src name tw th cuda)) in
  process_video w input_path name tw th cuda = (fst rest, evs ++ snd rest).
Proof.
  intros Hf Hp Ht rest. subst rest.
  unfold process_video, process_video_body, run_M, try_except.
  unfold bind at 1. rewrite Hf. unfold ret at 1.
  unfold bind at 1. rewrite Hp. unfold ret at 1.
  unfold bind at 1. rewrite Ht.
  rewrite (appends_after_trim src name tw th cuda evs).
  destruct (after_trim w src name tw th cuda []) as [[a | b |] l0]; simpl;
    try reflexivity.
  now rewrite app_assoc.
Qed.

End Appends.

(** ** The claims on [process_video] *)

(** C6: the duration check asks for a cut to the leading 14 seconds exactly
    when the duration exceeds 60 seconds and for none otherwise; 90 seconds
    gives 14, 40 seconds gives none; and [process_video] acts on it: over 60
    seconds it runs the cut with [t = 14] on its input, up to 60 seconds it
    goes on with the input untouched. *)
Theorem C6_trim_decision :
  (forall d : Q, Final.trim_target d = Some 14 <-> 60 < d)
  /\ (forall d : Q, Final.trim_target d = None <-> d <= 60)
  /\ Final.trim_target 90 = Some 14
  /\ Final.trim_target 40 = None
  /\ (forall (w : Final.world) (input_path : Final.path)
             (info : Final.video_info) (l : list Final.event),
         Final.ffmpeg_path w = true ->
         Final.get_video_info w input_path = Some info ->
         60 < Final.duration info ->
         exists r l',
           Final.trim_stage w input_path info l
           = (r, l ++ Final.RunTrim input_path (Final.Trimmed input_path) 14
                   :: l'))
  /\ (forall (w : Final.world) (input_path : Final.path)
             (info : Final.video_info) (l : list Final.event),
         Final.duration info <= 60 ->
         Final.trim_stage w input_path info l
         = (Final.Val (input_path, info), l)).
Proof.
  repeat split.
  - intros H. apply trim_target_some in H. tauto.
  - intros H. apply trim_target_some. split; [exact H | reflexivity].
  - apply trim_target_none.
  - apply trim_target_none.
  - intros w p info l. apply trim_stage_long.
  - intros w p info l. apply trim_stage_short.
Qed.

Lemma C6_trim_decision_witness :
  let w := Sample.world_of Sample.long_3x4 (Some 5000000%Z) in
  let p := Final.File "clip.mp4" in
  (Final.ffmpeg_path w = true
   /\ Final.get_video_info w p = Some Sample.long_3x4
   /\ 60 < Final.duration Sample.long_3x4
   /\ Final.duration Sample.short_3x4 <= 60)
  /\ (exists r l',
         Final.trim_stage w p Sample.long_3x4 []
         = (r, [] ++ Final.RunTrim p (Final.Trimmed p) 14 :: l'))
  /\ Final.trim_stage w p Sample.short_3x4 []
     = (Final.Val (p, Sample.short_3x4), []).
Proof.
  intros w p.
  assert (H1 : Final.ffmpeg_path w = true) by reflexivity.
  assert (H2 : Final.get_video_info w p = Some Sample.long_3x4) by reflexivity.
  assert (H3 : 60 < Final.duration Sample.long_3x4) by reflexivity.
  assert (H4 : Final.duration Sample.short_3x4 <= 60)
    by (vm_compute; discriminate).
  split; [auto |].
  split.
  - exact (proj1 (proj2 (proj2 (proj2 (proj2 C6_trim_decision))))
             w p Sample.long_3x4 [] H1 H2 H3).
  - exact (proj2 (proj2 (proj2 (proj2 (proj2 C6_trim_decision))))
             w p Sample.short_3x4 [] H4).
Defined.

(** ** Output validation and the batch *)

Lemma small_output_iff (st_size : Z) :
  Py.ltb (inject_Z st_size / inject_Z (1024 * 1024)) (1 # 10) = true
  <-> (st_size * 10 < 1024 * 1024)%Z.
Proof.
  rewrite ltb_lt. unfold Qlt, Qdiv, Qmult, Qinv, inject_Z. simpl. lia.
Qed.

Lemma validate_output_present (st_size : Z) (l : list Final.event) :
  Final.validate_output (Some st_size) l
  = (Final.Return true,
     l ++ (if (st_size * 10 <? 1024 * 1024)%Z
           then [Final.WarnSmallOutput] else [])).
Proof.
  unfold Final.validate_output, Final.bind, Final.emit, Final.ret,
    Final.return_.
  destruct (Py.ltb _ _) eqn:E.
  - apply small_output_iff in E. apply Z.ltb_lt in E. now rewrite E.
  - destruct (st_size * 10 <? 1024 * 1024)%Z eqn:E'.
    + apply Z.ltb_lt, small_output_iff in E'. congruence.
    + now rewrite app_nil_r.
Qed.

Lemma validate_output_missing (l : list Final.event) :
  Final.validate_output None l
  = (Final.Return false, l ++ [Final.ErrOutputMissing]).
Proof. reflexivity. Qed.

(** The compositing stage when every run succeeds: the answer is that of
    [validate_output]. *)
Lemma compose_stage_runs (w : Final.world) (p : Final.path)
      (info : Final.video_info) (name : string) (tw th : Z) (cuda : bool)
      (g : Final.fg_geometry) (l : list Final.event) :
  Final.foreground_geometry (Final.width info) (Final.height info)
                            (Final.display_ratio info) tw th = Some g ->
  Final.run_fg_scale w p = true ->
  Final.run_fg_feather w p = true ->
  Final.run_composite w p = true ->
  exists evs,
    Final.compose_stage w (p, info) name tw th cuda l
    = Final.validate_output (Final.output_size w name) (l ++ evs).
Proof.
  intros Hg Hs Hf Hc.
  unfold Final.compose_stage, Final.create_feathered_foreground, Final.bind,
    Final.emit, Final.check_run, Final.ret.
  rewrite Hg, Hs, Hf, Hc. simpl.
  eexists. rewrite <- !app_assoc. simpl. reflexivity.
Qed.

(** The compositing stage when every run succeeds and the output is there:
    all it does, on the source it is given. *)
Lemma compose_stage_succeeds (w : Final.world) (p : Final.path)
      (info : Final.video_info) (name : string) (tw th : Z) (cuda : bool)
      (g : Final.fg_geometry) (st_size : Z) (l : list Final.event) :
  Final.foreground_geometry (Final.width info) (Final.height info)
                            (Final.display_ratio info) tw th = Some g ->
  Final.run_fg_scale w p = true ->
  Final.run_fg_feather w p = true ->
  Final.run_composite w p = true ->
  Final.output_size w name = Some st_size ->
  Final.compose_stage w (p, info) name tw th cuda l
  = (Final.Return true,
     l ++ [Final.CallForeground (Final.width info) (Final.height info)
                                (Final.display_ratio info) tw th;
           Final.RunFgScale g;
           Final.RunFgFeather (Final.MethodA 30);
           Final.RunComposite p tw th 15 g (Final.MethodA 30)
                              (Final.choose_encoder cuda)
                              (Final.choose_audio info)]
       ++ (if (st_size * 10 <? 1024 * 1024)%Z
           then [Final.WarnSmallOutput] else [])).
Proof.
  intros Hg Hs Hf Hc Ho.
  unfold Final.compose_stage, Final.create_feathered_foreground, Final.bind,
    Final.emit, Final.check_run, Final.ret.
  rewrite Hg, Hs, Hf, Hc. simpl. rewrite Ho, validate_output_present.
  rewrite <- !app_assoc. reflexivity.
Qed.

(** The first thing the stages after the duration check do is on the
    source they are given: its transposition inside the rotation band, the
    call of [create_feathered_foreground] with its size outside. *)
Lemma rotate_stage_begins (w : Final.world) (p : Final.path)
      (info : Final.video_info) :
  Final.needs_rotation (Final.display_ratio info) = true ->
  exists r l',
    Final.rotate_stage w (p, info) []
    = (r, Final.RunTranspose p (Final.Rotated p) :: l').
Proof.
  intros Hn.
  unfold Final.rotate_stage, Final.bind, Final.emit, Final.check_run,
    Final.ret, Final.raise, Final.return_.
  rewrite Hn. simpl.
  destruct (Final.run_transpose w p); simpl;
    [destruct (Final.get_video_info w (Final.Rotated p)) |];
    eexists; eexists; reflexivity.
Qed.

Lemma foreground_begins (w : Final.world) (p : Final.path) (ow oh : Z)
      (r0 : Q) (tw th : Z) :
  exists r l',
    Final.create_feathered_foreground w p ow oh r0 tw th []
    = (r, Final.CallForeground ow oh r0 tw th :: l').
Proof.
  unfold Final.create_feathered_foreground, Final.bind, Final.emit,
    Final.check_run, Final.ret, Final.raise.
  simpl.
  destruct (Final.foreground_geometry ow oh r0 tw th); simpl;
    [destruct (Final.run_fg_scale w p); simpl;
     [destruct (Final.run_fg_feather w p); simpl;
      [| destruct (Final.run_fg_blur w p); simpl] |] |];
    eexists; eexists; reflexivity.
Qed.

Lemma begins_bind {A B} (m : Final.M A) (f : A -> Final.M B)
      (e : Final.event) :
  (exists r l', m [] = (r, e :: l')) ->
  (forall a, Final.appends (f a)) ->
  exists r l', Final.bind m f [] = (r, e :: l').
Proof.
  intros (r & l' & E) Hf. unfold Final.bind. rewrite E.
  destruct r as [a | b |]; [rewrite (Hf a (e :: l')) | |];
    eexists; eexists; simpl; reflexivity.
Qed.

Lemma after_trim_begins (w : Final.world) (p : Final.path)
      (info : Final.video_info) (name : string) (tw th : Z) (cuda : bool) :
  exists r l',
    Final.after_trim w (p, info) name tw th cuda []
    = (r, (if Final.needs_rotation (Final.display_ratio info)
           then Final.RunTranspose p (Final.Rotated p)
           else Final.CallForeground (Final.width info) (Final.height info)
                                     (Final.display_ratio info) tw th)
          :: l').
Proof.
  unfold Final.after_trim.
  destruct (Final.needs_rotation (Final.display_ratio info)) eqn:Hn.
  - apply begins_bind; [now apply rotate_stage_begins |].
    intros src. apply appends_compose_stage.
  - unfold Final.bind at 1.
    rewrite (rotate_stage_skip w (p, info) [] Hn).
    unfold Final.compose_stage. apply begins_bind; [apply foreground_begins |].
    intros fg. apply appends_bind; [apply appends_emit | intros _].
    apply appends_bind; [apply appends_check_run | intros _].
    apply appends_validate_output.
Qed.

(** C10: when the source is over 60 seconds and the cut fails (the run fails
    or the cut copy cannot be probed), [process_video] logs the attempt and a
    warning and goes on with the original source: the next thing it does is
    the transposition of the original file, inside the rotation band, or the
    call of [create_feathered_foreground] with the original size; outside
    the band, when the foreground runs and the compositing succeed on the
    original file and the output is there, it answers [True] having
    composited the original file; inside the band, when the transposition
    succeeds too, it answers [True] having composited the transposed copy of
    the original file. *)
Theorem C10_trim_failure_tolerated
        (w : Final.world) (input_path : Final.path) (info : Final.video_info)
        (name : string) (tw th : Z) (cuda : bool) :
  Final.ffmpeg_path w = true ->
  Final.get_video_info w input_path = Some info ->
  60 < Final.duration info ->
  Final.run_trim w input_path 14 = false
  \/ Final.get_video_info w (Final.Trimmed input_path) = None ->
  let tried :=
    [Final.RunTrim input_path (Final.Trimmed input_path) 14]
      ++ (if Final.run_trim w input_path 14 then [] else [Final.ErrException])
      ++ [Final.WarnTrimFailed] in
  (exists b rest,
      Final.process_video w input_path name tw th cuda
      = (b, tried
            ++ (if Final.needs_rotation (Final.display_ratio info)
                then Final.RunTranspose input_path (Final.Rotated input_path)
                else Final.CallForeground
                       (Final.width info) (Final.height info)
                       (Final.display_ratio info) tw th)
               :: rest))
  /\ (forall (g : Final.fg_geometry) (st_size : Z),
         Final.needs_rotation (Final.display_ratio info) = false ->
         Final.foreground_geometry (Final.width info) (Final.height info)
                                   (Final.display_ratio info) tw th
         = Some g ->
         Final.run_fg_scale w input_path = true ->
         Final.run_fg_feather w input_path = true ->
         Final.run_composite w input_path = true ->
         Final.output_size w name = Some st_size ->
         Final.process_video w input_path name tw th cuda
         = (true,
            tried
              ++ [Final.CallForeground (Final.width info) (Final.height info)
                                       (Final.display_ratio info) tw th;
                  Final.RunFgScale g;
                  Final.RunFgFeather (Final.MethodA 30);
                  Final.RunComposite input_path tw th 15 g (Final.MethodA 30)
                                     (Final.choose_encoder cuda)
                                     (Final.choose_audio info)]
              ++ (if (st_size * 10 <? 1024 * 1024)%Z
                  then [Final.WarnSmallOutput] else [])))
  /\ (forall (info' : Final.video_info) (g : Final.fg_geometry)
             (st_size : Z),
         Final.needs_rotation (Final.display_ratio info) = true ->
         Final.run_transpose w input_path = true ->
         Final.get_video_info w (Final.Rotated input_path) = Some info' ->
         Final.foreground_geometry (Final.width info') (Final.height info')
                                   (Final.display_ratio info') tw th
         = Some g ->
         Final.run_fg_scale w (Final.Rotated input_path) = true ->
         Final.run_fg_feather w (Final.Rotated input_path) = true ->
         Final.run_composite w (Final.Rotated input_path) = true ->
         Final.output_size w name = Some st_size ->
         Final.process_video w input_path name tw th cuda
         = (true,
            tried
              ++ [Final.RunTranspose input_path (Final.Rotated input_path);
                  Final.CallForeground
                    (Final.width info') (Final.height info')
                    (Final.display_ratio info') tw th;
                  Final.RunFgScale g;
                  Final.RunFgFeather (Final.MethodA 30);
                  Final.RunComposite (Final.Rotated input_path) tw th 15 g
                                     (Final.MethodA 30)
                                     (Final.choose_encoder cuda)
                                     (Final.choose_audio info')]
              ++ (if (st_size * 10 <? 1024 * 1024)%Z
                  then [Final.WarnSmallOutput] else []))).
Proof.
  intros Hf Hp Hd Hfail tried.
  assert (Hpv : Final.process_video w input_path name tw th cuda
                = (fst (Final.run_M
                          (Final.try_except
                             (Final.after_trim w (input_path, info)
                                               name tw th cuda))),
                   tried
                     ++ snd (Final.run_M
                               (Final.try_except
                                  (Final.after_trim w (input_path, info)
                                                    name tw th cuda))))).
  { apply (process_video_after_trim w input_path info (input_path, info)
             tried name tw th cuda Hf Hp).
    subst tried. now apply trim_stage_failed. }
  rewrite Hpv. split; [| split].
  - destruct (after_trim_begins w input_path info name tw th cuda)
      as (r & l' & E).
    unfold Final.run_M, Final.try_except. rewrite E.
    destruct r as [a | b |]; simpl; eexists; eexists; reflexivity.
  - intros g st_size Hn Hg Hs Hfe Hc Ho.
    assert (E : Final.after_trim w (input_path, info) name tw th cuda []
                = Final.compose_stage w (input_path, info) name tw th cuda
                                      []).
    { unfold Final.after_trim, Final.bind.
      now rewrite (rotate_stage_skip w (input_path, info) [] Hn). }
    rewrite (compose_stage_succeeds w input_path info name tw th cuda g
               st_size [] Hg Hs Hfe Hc Ho) in E.
    unfold Final.run_M, Final.try_except. rewrite E. reflexivity.
  - intros info' g st_size Hn Hr Hp' Hg Hs Hfe Hc Ho.
    assert (E : Final.after_trim w (input_path, info) name tw th cuda []
                = Final.compose_stage w (Final.Rotated input_path, info')
                    name tw th cuda
                    [Final.RunTranspose input_path
                                        (Final.Rotated input_path)]).
    { unfold Final.after_trim, Final.bind.
      now rewrite (rotate_stage_apply w input_path info info' [] Hn Hr Hp'). }
    rewrite (compose_stage_succeeds w (Final.Rotated input_path) info' name
               tw th cuda g st_size _ Hg Hs Hfe Hc Ho) in E.
    unfold Final.run_M, Final.try_except. rewrite E. reflexivity.
Qed.

Lemma C10_trim_failure_tolerated_witness :
  let w := Sample.world_of Sample.long_3x4 (Some 5000000%Z) in
  let p := Final.File "clip.mp4" in
  let g := Final.mk_fg 1080 1440 0 240 in
  (Final.ffmpeg_path w = true
   /\ Final.get_video_info w p = Some Sample.long_3x4
   /\ 60 < Final.duration Sample.long_3x4
   /\ (Final.run_trim w p 14 = false
       \/ Final.get_video_info w (Final.Trimmed p) = None))
  /\ (Final.needs_rotation (Final.display_ratio Sample.long_3x4) = false
      /\ Final.foreground_geometry 1080 1440 (3 # 4) 1080 1920 = Some g
      /\ Final.run_fg_scale w p = true
      /\ Final.run_fg_feather w p = true
      /\ Final.run_composite w p = true
      /\ Final.output_size w "clip.mp4"%string = Some 5000000%Z)
  /\ Final.process_video w p "clip.mp4" 1080 1920 false
     = (true,
        [Final.RunTrim p (Final.Trimmed p) 14; Final.WarnTrimFailed;
         Final.CallForeground 1080 1440 (3 # 4) 1080 1920;
         Final.RunFgScale g;
         Final.RunFgFeather (Final.MethodA 30);
         Final.RunComposite p 1080 1920 15 g (Final.MethodA 30)
                            Final.Libx264 Final.AudioCopy]).
Proof.
  intros w p g.
  assert (H1 : Final.ffmpeg_path w = true) by reflexivity.
  assert (H2 : Final.get_video_info w p = Some Sample.long_3x4) by reflexivity.
  assert (H3 : 60 < Final.duration Sample.long_3x4) by reflexivity.
  assert (H4 : Final.run_trim w p 14 = false
               \/ Final.get_video_info w (Final.Trimmed p) = None)
    by (right; reflexivity).
  assert (H5 : Final.needs_rotation (Final.display_ratio Sample.long_3x4)
               = false) by reflexivity.
  assert (H6 : Final.foreground_geometry
                 (Final.width Sample.long_3x4) (Final.height Sample.long_3x4)
                 (Final.display_ratio Sample.long_3x4) 1080 1920 = Some g)
    by reflexivity.
  assert (H7 : Final.run_fg_scale w p = true) by reflexivity.
  assert (H8 : Final.run_fg_feather w p = true) by reflexivity.
  assert (H9 : Final.run_composite w p = true) by reflexivity.
  assert (H10 : Final.output_size w "clip.mp4"%string = Some 5000000%Z)
    by reflexivity.
  split; [auto |]. split; [repeat split; assumption |].
  exact (proj1 (proj2 (C10_trim_failure_tolerated w p Sample.long_3x4
                         "clip.mp4"%string 1080 1920 false H1 H2 H3 H4))
           g 5000000%Z H5 H6 H7 H8 H9 H10).
Defined.

Lemma process_all_videos_visits (w : Final.world) (files : list string)
      (f : string) :
  In f files -> In (Final.StartUnit f) (snd (Final.process_all_videos w files)).
Proof.
  induction files as [| a rest IH]; simpl; [tauto |].
  intros [E | H];
    destruct (Final.process_single_video w a) as [ok evs];
    destruct (Final.process_all_videos w rest) as [n evs']; simpl.
  - left. now rewrite E.
  - right. apply in_or_app. right. now apply IH.
Qed.

Lemma process_all_videos_count (w : Final.world) (files : list string) :
  fst (Final.process_all_videos w files)
  = Z.of_nat (List.length (filter (fun f => fst (Final.process_single_video w f))
                             files)).
Proof.
  induction files as [| a rest IH]; simpl; [reflexivity |].
  destruct (Final.process_single_video w a) as [ok evs].
  destruct (Final.process_all_videos w rest) as [n evs']. simpl in *.
  rewrite IH. destruct ok; simpl List.length; lia.
Qed.

(** C9, as stated, fails: with every tool succeeding and an output file of
    0 bytes, [process_video] answers success and the batch counts the unit. *)
Lemma C9_empty_output_counterexample :
  let w := Sample.world_of Sample.short_3x4 (Some 0%Z) in
  ~ (Final.output_size w "clip.mp4" = Some 0%Z ->
     fst (Final.process_video w (Final.File "clip.mp4") "clip.mp4"
                              1080 1920 false) = false)
  /\ fst (Final.process_all_videos w ["clip.mp4"%string]) = 1%Z.
Proof.
  intros w. split.
  - intros H. specialize (H eq_refl). vm_compute in H. discriminate.
  - vm_compute. reflexivity.
Qed.

(** C9 (amended): when the encode step succeeds and the output file exists,
    whatever its size, 0 bytes included, the check answers success and only
    logs a warning below 0.1 MB; only a missing output file makes it answer
    failure; and the batch visits every file and counts exactly the units
    that answered success. *)
Theorem C9_output_validation :
  (forall (w : Final.world) (p : Final.path) (info : Final.video_info)
          (name : string) (tw th : Z) (cuda : bool) (g : Final.fg_geometry)
          (l : list Final.event) (st_size : Z),
      Final.foreground_geometry (Final.width info) (Final.height info)
                                (Final.display_ratio info) tw th = Some g ->
      Final.run_fg_scale w p = true ->
      Final.run_fg_feather w p = true ->
      Final.run_composite w p = true ->
      Final.output_size w name = Some st_size ->
      exists evs,
        Final.compose_stage w (p, info) name tw th cuda l
        = (Final.Return true,
           l ++ evs ++ (if (st_size * 10 <? 1024 * 1024)%Z
                        then [Final.WarnSmallOutput] else [])))
  /\ (forall l : list Final.event,
         Final.validate_output None l
         = (Final.Return false, l ++ [Final.ErrOutputMissing]))
  /\ (forall (w : Final.world) (files : list string) (f : string),
         In f files ->
         In (Final.StartUnit f) (snd (Final.process_all_videos w files)))
  /\ (forall (w : Final.world) (files : list string),
         fst (Final.process_all_videos w files)
         = Z.of_nat
             (List.length (filter (fun f => fst (Final.process_single_video w f))
                             files))).
Proof.
  split; [| split; [| split]].
  - intros w p info name tw th cuda g l st_size Hg Hs Hf Hc Ho.
    destruct (compose_stage_runs w p info name tw th cuda g l Hg Hs Hf Hc)
      as [evs E].
    exists evs. rewrite E, Ho, validate_output_present.
    now rewrite <- app_assoc.
  - exact validate_output_missing.
  - exact process_all_videos_visits.
  - exact process_all_videos_count.
Qed.

Lemma C9_output_validation_witness :
  let w := Sample.world_of Sample.short_3x4 (Some 0%Z) in
  let p := Final.File "clip.mp4" in
  let g := Final.mk_fg 1080 1440 0 240 in
  (Final.foreground_geometry 1080 1440 (3 # 4) 1080 1920 = Some g
   /\ Final.run_fg_scale w p = true
   /\ Final.run_fg_feather w p = true
   /\ Final.run_composite w p = true
   /\ Final.output_size w "clip.mp4" = Some 0%Z
   /\ In "clip.mp4"%string ["intro.mp4"; "clip.mp4"]%string)
  /\ (exists evs,
         Final.compose_stage w (p, Sample.short_3x4) "clip.mp4"
                             1080 1920 false []
         = (Final.Return true, [] ++ evs ++ [Final.WarnSmallOutput]))
  /\ In (Final.StartUnit "clip.mp4")
        (snd (Final.process_all_videos w ["intro.mp4"; "clip.mp4"]%string)).
Proof.
  intros w p g.
  assert (H1 : Final.foreground_geometry
                 (Final.width Sample.short_3x4) (Final.height Sample.short_3x4)
                 (Final.display_ratio Sample.short_3x4) 1080 1920 = Some g)
    by reflexivity.
  assert (H2 : Final.run_fg_scale w p = true) by reflexivity.
  assert (H3 : Final.run_fg_feather w p = true) by reflexivity.
  assert (H4 : Final.run_composite w p = true) by reflexivity.
  assert (H5 : Final.output_size w "clip.mp4" = Some 0%Z) by reflexivity.
  assert (H6 : In "clip.mp4"%string ["intro.mp4"; "clip.mp4"]%string)
    by (right; left; reflexivity).
  split; [repeat split; assumption || reflexivity |].
  split.
  - exact (proj1 C9_output_validation w p Sample.short_3x4 "clip.mp4"%string
             1080%Z 1920%Z false g [] 0%Z H1 H2 H3 H4 H5).
  - exact (proj1 (proj2 (proj2 C9_output_validation)) w
             ["intro.mp4"; "clip.mp4"]%string "clip.mp4"%string H6).
Defined.

(** ** Rotation *)

Lemma ratio_above_one (ow oh : Z) :
  (0 < oh)%Z -> (1 < inject_Z ow / inject_Z oh <-> (oh < ow)%Z).
Proof.
  intros H. destruct oh as [| p | p]; try lia.
  unfold Qlt, Qdiv, Qmult, Qinv, inject_Z. simpl. lia.
Qed.

Lemma wallpaper_plan_transposes (ow oh : Z) (ratio : Q) :
  In (Graph.Transpose 1) (Graph.all_filters (Wallpaper.plan ow oh ratio))
  <-> Wallpaper.rotate ow oh = true.
Proof.
  unfold Wallpaper.plan, Wallpaper.working_size.
  destruct (Wallpaper.rotate ow oh); simpl.
  - split; auto.
  - split; [| discriminate].
    intros H. repeat (destruct H as [H | H]; [discriminate |]). contradiction.
Qed.

(** C1, as stated, fails on [process_file] of ve_wallpaper.py: a square
    1000 x 1000 source (ratio 1.0) is not rotated, and a 2560 x 1080 source
    (ratio above 16/9) is. *)
Lemma C1_wallpaper_rotation_counterexample :
  ~ (Wallpaper.rotate 1000 1000 = true <->
     1 <= inject_Z 1000 / inject_Z 1000
     /\ inject_Z 1000 / inject_Z 1000 <= 16 # 9)
  /\ ~ (Wallpaper.rotate 2560 1080 = true <->
        1 <= inject_Z 2560 / inject_Z 1080
        /\ inject_Z 2560 / inject_Z 1080 <= 16 # 9).
Proof.
  split.
  - intros [_ H].
    assert (E : Wallpaper.rotate 1000 1000 = true).
    { apply H. split; vm_compute; discriminate. }
    vm_compute in E. discriminate.
  - intros [H _].
    destruct (H eq_refl) as [_ H2]. vm_compute in H2. apply H2. reflexivity.
Qed.

(** C1 (amended): [process_video] rotates exactly when the display ratio
    [r] satisfies 1.0 <= r <= 16/9, and then goes on with the transposed
    copy and the width, height and ratio probed from it; outside the band it
    goes on with the source as it is.  [process_file] of ve_wallpaper.py
    rotates exactly when the width exceeds the height (ratio above 1, with
    no upper bound, a square source excluded), and then works on
    height x width and puts [transpose=1] in the graph. *)
Theorem C1_rotation_decision :
  (forall r : Q, Final.needs_rotation r = true <-> 1 <= r /\ r <= 16 # 9)
  /\ (forall (w : Final.world) (p : Final.path)
             (info info' : Final.video_info) (l : list Final.event),
         Final.needs_rotation (Final.display_ratio info) = true ->
         Final.run_transpose w p = true ->
         Final.get_video_info w (Final.Rotated p) = Some info' ->
         Final.rotate_stage w (p, info) l
         = (Final.Val (Final.Rotated p, info'),
            l ++ [Final.RunTranspose p (Final.Rotated p)]))
  /\ (forall (w : Final.world) (src : Final.path * Final.video_info)
             (l : list Final.event),
         Final.needs_rotation (Final.display_ratio (snd src)) = false ->
         Final.rotate_stage w src l = (Final.Val src, l))
  /\ (forall ow oh : Z, Wallpaper.rotate ow oh = true <-> (oh < ow)%Z)
  /\ (forall ow oh : Z,
         (0 < oh)%Z ->
         (Wallpaper.rotate ow oh = true <-> 1 < inject_Z ow / inject_Z oh))
  /\ (forall ow oh : Z,
         Wallpaper.working_size ow oh
         = if Wallpaper.rotate ow oh then (oh, ow) else (ow, oh))
  /\ (forall (ow oh : Z) (ratio : Q),
         In (Graph.Transpose 1)
            (Graph.all_filters (Wallpaper.plan ow oh ratio))
         <-> Wallpaper.rotate ow oh = true).
Proof.
  repeat apply conj.
  - exact needs_rotation_spec.
  - exact rotate_stage_apply.
  - exact rotate_stage_skip.
  - exact wallpaper_rotate_spec.
  - intros ow oh H. rewrite wallpaper_rotate_spec. symmetry.
    now apply ratio_above_one.
  - reflexivity.
  - exact wallpaper_plan_transposes.
Qed.

Lemma C1_rotation_decision_witness :
  let w := Sample.world_of Sample.wide_16x9 (Some 5000000%Z) in
  let p := Final.File "wide.mp4" in
  (Final.needs_rotation (Final.display_ratio Sample.wide_16x9) = true
   /\ Final.run_transpose w p = true
   /\ Final.get_video_info w (Final.Rotated p) = Some Sample.tall_9x16
   /\ Final.needs_rotation (Final.display_ratio Sample.short_3x4) = false
   /\ (0 < 1080)%Z)
  /\ Final.rotate_stage w (p, Sample.wide_16x9) []
     = (Final.Val (Final.Rotated p, Sample.tall_9x16),
        [] ++ [Final.RunTranspose p (Final.Rotated p)])
  /\ Final.rotate_stage w (p, Sample.short_3x4) []
     = (Final.Val (p, Sample.short_3x4), [])
  /\ (Wallpaper.rotate 1920 1080 = true
      <-> 1 < inject_Z 1920 / inject_Z 1080).
Proof.
  intros w p.
  assert (H1 : Final.needs_rotation (Final.display_ratio Sample.wide_16x9)
               = true) by reflexivity.
  assert (H2 : Final.run_transpose w p = true) by reflexivity.
  assert (H3 : Final.get_video_info w (Final.Rotated p)
               = Some Sample.tall_9x16) by reflexivity.
  assert (H4 : Final.needs_rotation
                 (Final.display_ratio (snd (p, Sample.short_3x4))) = false)
    by reflexivity.
  assert (H5 : (0 < 1080)%Z) by lia.
  split; [repeat split; assumption |].
  split; [| split].
  - exact (proj1 (proj2 C1_rotation_decision) w p Sample.wide_16x9
             Sample.tall_9x16 [] H1 H2 H3).
  - exact (proj1 (proj2 (proj2 C1_rotation_decision)) w
             (p, Sample.short_3x4) [] H4).
  - exact (proj1 (proj2 (proj2 (proj2 (proj2 C1_rotation_decision))))
             1920%Z 1080%Z H5).
Defined.

(** ** Geometry of the layers *)

Lemma same_side_square (ow oh : Z) (r : Q) :
  r == inject_Z ow / inject_Z oh -> Final.same_side ow oh r.
Proof. intros Hr. unfold Final.same_side. now rewrite Hr. Qed.

Lemma ratio_above_target (ow oh : Z) (r : Q) :
  (0 < oh)%Z -> Final.same_side ow oh r ->
  (Py.ltb Final.TARGET_RATIO r = true <-> (9 * oh < 16 * ow)%Z).
Proof.
  intros H Hr. unfold Final.same_side in Hr. rewrite ltb_lt, Hr.
  destruct oh as [| p | p]; try lia.
  unfold Final.TARGET_RATIO, Qlt, Qdiv, Qmult, Qinv, inject_Z.
  cbn [Qnum Qden]. lia.
Qed.

Lemma half_nonneg (a : Z) : (0 <= a / 2 <-> 0 <= a)%Z.
Proof.
  split; intros H; [| apply Z.div_pos; lia].
  destruct (Z_lt_le_dec a 0) as [Hn | Hp]; [| exact Hp].
  assert (a / 2 < 0)%Z by (apply Z.div_lt_upper_bound; lia). lia.
Qed.

(** One dimension of the foreground equals the canvas, with offset 0; the
    other offset is half the room left, rounded down. *)
Lemma foreground_geometry_shape (ow oh : Z) (r : Q) (tw th : Z)
      (g : Final.fg_geometry) :
  Final.foreground_geometry ow oh r tw th = Some g ->
  (Final.scaled_width g = tw /\ Final.pad_x g = 0
   /\ Final.pad_y g = (th - Final.scaled_height g) / 2)%Z
  \/ (Final.scaled_height g = th /\ Final.pad_y g = 0
      /\ Final.pad_x g = (tw - Final.scaled_width g) / 2)%Z.
Proof.
  unfold Final.foreground_geometry, Py.int_truediv.
  destruct (Py.ltb Final.TARGET_RATIO r).
  - destruct (ow =? 0)%Z; [discriminate |]. intros [= <-]. left. auto.
  - destruct (oh =? 0)%Z; [discriminate |]. intros [= <-]. right. auto.
Qed.

Lemma foreground_fits_iff (ow oh : Z) (r : Q) (tw th : Z)
      (g : Final.fg_geometry) :
  Final.foreground_geometry ow oh r tw th = Some g ->
  (Final.fits g tw th
   <-> (Final.scaled_width g <= tw /\ Final.scaled_height g <= th)%Z).
Proof.
  intros H. unfold Final.fits.
  destruct (foreground_geometry_shape ow oh r tw th g H)
    as [(E1 & E2 & E3) | (E1 & E2 & E3)];
    rewrite E2, E3, half_nonneg; intuition lia.
Qed.

(** With square pixels and a canvas of ratio 9:16 the foreground fits. *)
Lemma foreground_fits_canvas (ow oh : Z) (r : Q) (tw th : Z) :
  (0 < ow)%Z -> (0 < oh)%Z -> (0 < tw)%Z -> (16 * tw = 9 * th)%Z ->
  Final.same_side ow oh r ->
  exists g, Final.foreground_geometry ow oh r tw th = Some g
            /\ Final.fits g tw th.
Proof.
  intros Hw Hh Ht Hc Hr.
  pose proof (ratio_above_target ow oh r Hh Hr) as Hcmp.
  unfold Final.foreground_geometry, Py.int_truediv.
  destruct (Py.ltb Final.TARGET_RATIO r).
  - assert (H : (9 * oh < 16 * ow)%Z) by now apply Hcmp.
    replace (ow =? 0)%Z with false by (symmetry; apply Z.eqb_neq; lia).
    eexists. split; [reflexivity |].
    assert (Hq : (Z.quot (oh * tw) ow <= th)%Z).
    { rewrite Z.quot_div_nonneg by nia.
      apply Z.div_le_upper_bound; nia. }
    unfold Final.fits. simpl. rewrite half_nonneg. lia.
  - assert (H : ~ (9 * oh < 16 * ow)%Z)
      by (intros H; apply Hcmp in H; discriminate).
    replace (oh =? 0)%Z with false by (symmetry; apply Z.eqb_neq; lia).
    eexists. split; [reflexivity |].
    assert (Hq : (Z.quot (ow * th) oh <= tw)%Z).
    { rewrite Z.quot_div_nonneg by nia.
      apply Z.div_le_upper_bound; nia. }
    unfold Final.fits. simpl. rewrite half_nonneg. lia.
Qed.

Lemma wallpaper_layout (rotate : bool) (w h target_h : Z) :
  let g := Wallpaper.build_complex_filter rotate w h target_h in
  let sw := (w / 2 * 2)%Z in
  let sh := (h / 2 * 2)%Z in
  let sth := (target_h / 2 * 2)%Z in
  Graph.cover_size g = Some (sw, sth)
  /\ Graph.crop_size g = Some (sw, sth)
  /\ Graph.mask_size g = Some (sw, sh)
  /\ Graph.overlay_at g = Some (0, (sth - sh) / 2)%Z.
Proof. destruct rotate; repeat split. Qed.

Lemma wallpaper_fits_iff (rotate : bool) (w h target_h : Z) :
  Graph.foreground_fits (Wallpaper.build_complex_filter rotate w h target_h)
  <-> (h / 2 * 2 <= target_h / 2 * 2)%Z.
Proof.
  destruct (wallpaper_layout rotate w h target_h) as (_ & Hc & Hm & Ho).
  unfold Graph.foreground_fits. rewrite Hc, Hm, Ho. split.
  - intros (cw & ch & fw & fh & x & y & E1 & E2 & E3 & H).
    injection E1 as <- <-. injection E2 as <- <-. lia.
  - intros H. do 6 eexists. repeat split; try reflexivity; try lia.
    apply Z.div_pos; lia.
Qed.

Lemma target_height_9x20 (w : Z) :
  Wallpaper.target_height w (9 # 20) = Z.quot (w * 20) 9.
Proof. reflexivity. Qed.

Lemma target_height_5x11 (w : Z) :
  Wallpaper.target_height w (5 # 11) = Z.quot (w * 11) 5.
Proof. reflexivity. Qed.

Lemma wallpaper_border_boxes (rotate : bool) (w h target_h : Z) :
  Graph.border_boxes (Wallpaper.build_complex_filter rotate w h target_h)
  = [Graph.DrawboxBlack 0 0 (w / 2 * 2) 30;
     Graph.DrawboxBlack 0 (h / 2 * 2 - 30) (w / 2 * 2) 30;
     Graph.DrawboxBlack 0 0 30 (h / 2 * 2);
     Graph.DrawboxBlack (w / 2 * 2 - 30) 0 30 (h / 2 * 2)].
Proof. destruct rotate; reflexivity. Qed.

Lemma foreground_feather (w : Final.world) (p : Final.path) (ow oh : Z)
      (r : Q) (tw th : Z) (l l' : list Final.event) (g : Final.fg_geometry)
      (feather : Z) :
  Final.create_feathered_foreground w p ow oh r tw th l
  = (Final.Val (g, Final.MethodA feather), l') ->
  feather = 30%Z.
Proof.
  unfold Final.create_feathered_foreground, Final.bind, Final.emit,
    Final.check_run, Final.ret, Final.raise.
  simpl.
  destruct (Final.foreground_geometry ow oh r tw th); [| discriminate].
  destruct (Final.run_fg_scale w p); simpl; [| discriminate].
  destruct (Final.run_fg_feather w p); simpl.
  - intros [= _ <- _]. reflexivity.
  - destruct (Final.run_fg_blur w p); simpl; discriminate.
Qed.

(** C4, as stated, fails.  In ve_wallpaper.py a 100 x 1000 source with the
    9x20 preset gets a 100 x 222 canvas, a 100 x 1000 foreground and the
    vertical offset -389.  In VE_QW_FInal_prefect.py a 100 x 400 source whose
    display ratio is 3/4 (pixels three times as wide as high) gets, on the
    1080 x 1920 canvas, a 1080 x 4320 foreground and the vertical offset
    -1200. *)
Lemma C4_foreground_fit_counterexample :
  (Graph.crop_size (Wallpaper.plan 100 1000 (9 # 20)) = Some (100, 222)%Z
   /\ Graph.mask_size (Wallpaper.plan 100 1000 (9 # 20)) = Some (100, 1000)%Z
   /\ Graph.overlay_at (Wallpaper.plan 100 1000 (9 # 20)) = Some (0, -389)%Z
   /\ ~ Graph.foreground_fits (Wallpaper.plan 100 1000 (9 # 20)))
  /\ (Final.foreground_geometry 100 400 (3 # 4) 1080 1920
      = Some (Final.mk_fg 1080 4320 0 (-1200))
      /\ ~ Final.fits (Final.mk_fg 1080 4320 0 (-1200)) 1080 1920).
Proof.
  split; [repeat split | split]; try reflexivity.
  - intros (cw & ch & fw & fh & x & y & E1 & E2 & E3 & H).
    vm_compute in E3. injection E3 as <- <-. lia.
  - unfold Final.fits. simpl. lia.
Qed.

(** C4 (amended).  [create_feathered_foreground]: for a source of positive
    size whose display ratio lies on the same side of 9/16 as width / height
    (square pixels) and a positive canvas of ratio 9:16 (1080 x 1920 is the
    one the program passes) the foreground is at most the canvas in
    both dimensions and both offsets are non-negative; for any input the
    foreground spans one dimension of the canvas at offset 0, the other
    offset is half the room left, and the offsets are non-negative exactly
    when the foreground is at most the canvas.  [build_complex_filter]: the
    background is asked at the canvas size [sw] x [sth] with
    [force_original_aspect_ratio=increase] and cropped to it, the foreground
    mask is [sw] x [sh], laid at [(0, (sth - sh) // 2)]; it fits, with a
    non-negative offset, exactly when [sh <= sth]. *)
Theorem C4_layer_geometry :
  (forall (ow oh : Z) (r : Q) (tw th : Z),
      (0 < ow)%Z -> (0 < oh)%Z -> (0 < tw)%Z -> (16 * tw = 9 * th)%Z ->
      Final.same_side ow oh r ->
      exists g, Final.foreground_geometry ow oh r tw th = Some g
                /\ Final.fits g tw th)
  /\ (forall (ow oh : Z) (r : Q) (tw th : Z) (g : Final.fg_geometry),
         Final.foreground_geometry ow oh r tw th = Some g ->
         ((Final.scaled_width g = tw /\ Final.pad_x g = 0
           /\ Final.pad_y g = (th - Final.scaled_height g) / 2)%Z
          \/ (Final.scaled_height g = th /\ Final.pad_y g = 0
              /\ Final.pad_x g = (tw - Final.scaled_width g) / 2)%Z)
         /\ (Final.fits g tw th
             <-> (Final.scaled_width g <= tw
                  /\ Final.scaled_height g <= th)%Z))
  /\ (forall (rotate : bool) (w h target_h : Z),
         let g := Wallpaper.build_complex_filter rotate w h target_h in
         let sw := (w / 2 * 2)%Z in
         let sh := (h / 2 * 2)%Z in
         let sth := (target_h / 2 * 2)%Z in
         Graph.cover_size g = Some (sw, sth)
         /\ Graph.crop_size g = Some (sw, sth)
         /\ Graph.mask_size g = Some (sw, sh)
         /\ Graph.overlay_at g = Some (0, (sth - sh) / 2)%Z
         /\ (Graph.foreground_fits g <-> (sh <= sth)%Z)).
Proof.
  split; [| split].
  - exact foreground_fits_canvas.
  - intros ow oh r tw th g H. split.
    + exact (foreground_geometry_shape ow oh r tw th g H).
    + exact (foreground_fits_iff ow oh r tw th g H).
  - intros rotate w h target_h g sw sh sth.
    destruct (wallpaper_layout rotate w h target_h) as (H1 & H2 & H3 & H4).
    repeat split; try assumption; apply wallpaper_fits_iff.
Qed.

Lemma C4_layer_geometry_witness :
  ((0 < 1000)%Z /\ (0 < 1000)%Z /\ (0 < 1080)%Z /\ (16 * 1080 = 9 * 1920)%Z
   /\ Final.same_side 1000 1000 1
   /\ Final.foreground_geometry 1000 1000 1 1080 1920
      = Some (Final.mk_fg 1080 1080 0 420))
  /\ (exists g, Final.foreground_geometry 1000 1000 1 1080 1920 = Some g
                /\ Final.fits g 1080 1920)
  /\ (Final.fits (Final.mk_fg 1080 1080 0 420) 1080 1920
      <-> (1080 <= 1080 /\ 1080 <= 1920)%Z).
Proof.
  assert (H1 : (0 < 1000)%Z) by lia.
  assert (H2 : (0 < 1080)%Z) by lia.
  assert (H3 : (16 * 1080 = 9 * 1920)%Z) by lia.
  assert (H4 : Final.same_side 1000 1000 1) by (split; reflexivity).
  assert (H5 : Final.foreground_geometry 1000 1000 1 1080 1920
               = Some (Final.mk_fg 1080 1080 0 420)) by reflexivity.
  split; [repeat split; assumption |].
  split.
  - exact (proj1 C4_layer_geometry 1000%Z 1000%Z 1 1080%Z 1920%Z
             H1 H1 H2 H3 H4).
  - exact (proj2 (proj1 (proj2 C4_layer_geometry) 1000%Z 1000%Z 1 1080%Z
                    1920%Z (Final.mk_fg 1080 1080 0 420) H5)).
Defined.

(** The analytic feather ramps over 30 pixels from the left edge whatever
    the size of the foreground. *)
Lemma alpha_expr_left_ramp (W H X Y : Q) :
  X < 30 -> Final.alpha_expr W H X Y == X / 30 * 255.
Proof.
  intros HX. unfold Final.alpha_expr.
  change (inject_Z Final.FEATHER_WIDTH) with (30 : Q).
  apply ltb_lt in HX. rewrite HX. reflexivity.
Qed.

(** C8, as stated, fails: on a 40 x 80 source ve_wallpaper.py builds a
    40 x 88 canvas and still draws border boxes 30 pixels thick, which is not
    less than half of 40. *)
Lemma C8_small_canvas_counterexample :
  Graph.crop_size (Wallpaper.plan 40 80 (9 # 20)) = Some (40, 88)%Z
  /\ Graph.border_boxes (Wallpaper.plan 40 80 (9 # 20))
     = [Graph.DrawboxBlack 0 0 40 30; Graph.DrawboxBlack 0 50 40 30;
        Graph.DrawboxBlack 0 0 30 80; Graph.DrawboxBlack 10 0 30 80]
  /\ ~ (2 * 30 < Z.min 40 88)%Z.
Proof. repeat split. lia. Qed.

(** C8 (amended): the feather width is the constant 30 in every plan and is
    never clamped: the four border boxes of [build_complex_filter] are 30
    thick for every source and target, and the analytic feather of
    [create_feathered_foreground] uses [FEATHER_WIDTH = 30], ramping over 30
    pixels, for every canvas and foreground size.
    It is less than half the smaller canvas dimension exactly when both
    dimensions exceed 60, as on the fixed 1080 x 1920 canvas. *)
Theorem C8_feather_width :
  (forall (rotate : bool) (w h target_h : Z),
      Graph.border_boxes (Wallpaper.build_complex_filter rotate w h target_h)
      = [Graph.DrawboxBlack 0 0 (w / 2 * 2) 30;
         Graph.DrawboxBlack 0 (h / 2 * 2 - 30) (w / 2 * 2) 30;
         Graph.DrawboxBlack 0 0 30 (h / 2 * 2);
         Graph.DrawboxBlack (w / 2 * 2 - 30) 0 30 (h / 2 * 2)])
  /\ (forall (w : Final.world) (p : Final.path) (ow oh : Z) (r : Q)
             (tw th : Z) (l l' : list Final.event) (g : Final.fg_geometry)
             (feather : Z),
         Final.create_feathered_foreground w p ow oh r tw th l
         = (Final.Val (g, Final.MethodA feather), l') ->
         feather = 30%Z)
  /\ Final.FEATHER_WIDTH = 30%Z
  /\ (forall W H X Y : Q,
         X < 30 -> Final.alpha_expr W H X Y == X / 30 * 255)
  /\ (forall tw th : Z,
         (2 * Final.FEATHER_WIDTH < Z.min tw th)%Z
         <-> (60 < tw /\ 60 < th)%Z)
  /\ (forall (ow oh : Z) (r : Q),
         let '(tw, th) := Final.calculate_target_resolution ow oh r in
         (2 * Final.FEATHER_WIDTH < Z.min tw th)%Z).
Proof.
  repeat apply conj.
  - exact wallpaper_border_boxes.
  - exact foreground_feather.
  - reflexivity.
  - exact alpha_expr_left_ramp.
  - intros tw th. unfold Final.FEATHER_WIDTH. lia.
  - intros ow oh r. simpl. unfold Final.FEATHER_WIDTH. lia.
Qed.

Lemma C8_feather_width_witness :
  let w := Sample.world_of Sample.short_3x4 (Some 5000000%Z) in
  let p := Final.File "clip.mp4" in
  let g := Final.mk_fg 40 53 0 13 in
  Final.create_feathered_foreground w p 1080 1440 (3 # 4) 40 80 []
  = (Final.Val (g, Final.MethodA 30),
     [Final.CallForeground 1080 1440 (3 # 4) 40 80; Final.RunFgScale g;
      Final.RunFgFeather (Final.MethodA 30)])
  /\ 30%Z = 30%Z
  /\ (15 < 30 /\ Final.alpha_expr 40 53 15 20 == 15 / 30 * 255).
Proof.
  intros w p g.
  assert (H : Final.create_feathered_foreground w p 1080 1440 (3 # 4) 40 80 []
              = (Final.Val (g, Final.MethodA 30),
                 [Final.CallForeground 1080 1440 (3 # 4) 40 80;
                  Final.RunFgScale g;
                  Final.RunFgFeather (Final.MethodA 30)]))
    by reflexivity.
  assert (HX : 15 < 30) by reflexivity.
  split; [exact H | split].
  - exact (proj1 (proj2 C8_feather_width) w p 1080%Z 1440%Z (3 # 4) 40%Z 80%Z
             [] _ g 30%Z H).
  - split; [exact HX |].
    exact (proj1 (proj2 (proj2 (proj2 C8_feather_width))) 40 53 15 20 HX).
Defined.

(** ** The watchdog loop *)

(** The watchdog fires at a turn of the loop where a line has been read and
    the clock is more than 25 seconds past the last advance. *)
Lemma watchdog_fires (total_frames : Z) (k : Gui.tick) (rest : Gui.pipe)
      (s : Gui.watch) (evs : list Gui.event) :
  Gui.line k <> EmptyString \/ Gui.poll k = None ->
  Gui.stalled k (fst (Gui.on_line total_frames k s)) = true ->
  Gui.watch_loop total_frames (Gui.Read k rest) s evs
  = Gui.Returns false
      (evs ++ snd (Gui.on_line total_frames k s)
           ++ [Gui.LogStall; Gui.Terminate]).
Proof.
  intros Hk Hs. simpl.
  destruct (Gui.on_line total_frames k s) as [s' out]. simpl in *.
  rewrite Hs.
  destruct (Gui.line k) as [| c l]; [| reflexivity].
  destruct (Gui.poll k); [| reflexivity].
  destruct Hk; congruence.
Qed.

Lemma watch_loop_alive (total_frames : Z) (k : Gui.tick) (rest : Gui.pipe)
      (s : Gui.watch) (evs : list Gui.event) :
  Gui.poll k = None ->
  Gui.stalled k (fst (Gui.on_line total_frames k s)) = false ->
  Gui.watch_loop total_frames (Gui.Read k rest) s evs
  = Gui.watch_loop total_frames rest (fst (Gui.on_line total_frames k s))
                   (evs ++ snd (Gui.on_line total_frames k s)).
Proof.
  intros Hp Hs. simpl. rewrite Hp.
  destruct (Gui.on_line total_frames k s) as [s' out]. simpl in *.
  rewrite Hs. destruct (Gui.line k); reflexivity.
Qed.

(** C2: where the claim fails.  A child that never prints makes
    [run_ffmpeg_task] wait for ever; so does a child that falls silent after
    a line that was itself in time; and a gap of 30 seconds between two
    advances goes unnoticed when the line that ends it carries the
    advance. *)
Theorem C2_watchdog_needs_a_line :
  (forall (started : Q) (total_frames : Z),
      Gui.run_ffmpeg_task (Gui.mk_child started Gui.Blocked) total_frames
      = Gui.Hangs [])
  /\ (forall (started : Q) (total_frames : Z) (k : Gui.tick),
         Gui.poll k = None ->
         Gui.stalled k (fst (Gui.on_line total_frames k
                                         (Gui.mk_watch (-1) started))) = false ->
         Gui.run_ffmpeg_task
           (Gui.mk_child started (Gui.Read k Gui.Blocked)) total_frames
         = Gui.Hangs (snd (Gui.on_line total_frames k
                                       (Gui.mk_watch (-1) started))))
  /\ Gui.run_ffmpeg_task Sample.late 100
     = Gui.Returns true [Gui.LogProgress 1; Gui.LogProgress 2].
Proof.
  split; [| split].
  - reflexivity.
  - intros started total_frames k Hp Hs.
    unfold Gui.run_ffmpeg_task. simpl Gui.stdout. simpl Gui.started.
    rewrite watch_loop_alive by assumption. reflexivity.
  - reflexivity.
Qed.

Lemma C2_watchdog_needs_a_line_witness :
  let k := Gui.mk_tick "frame=120" None 1 1 in
  (Gui.poll k = None
   /\ Gui.stalled k (fst (Gui.on_line 300 k (Gui.mk_watch (-1) 0))) = false)
  /\ Gui.run_ffmpeg_task Sample.silent 300 = Gui.Hangs [Gui.LogProgress 40].
Proof.
  intros k.
  assert (H1 : Gui.poll k = None) by reflexivity.
  assert (H2 : Gui.stalled k (fst (Gui.on_line 300 k (Gui.mk_watch (-1) 0)))
               = false) by reflexivity.
  split; [split; assumption |].
  exact (proj1 (proj2 C2_watchdog_needs_a_line) 0 300%Z k H1 H2).
Defined.

(** ** The GPU to CPU fallback *)

(** C3: where the claim fails.  When the GPU attempt answers failure, the
    CPU command is started once, with the same filter graph; whatever the
    CPU attempt answers, failure included, the unit is logged as done and
    counted in [completed_tasks], and nothing reports a failure.  When the
    GPU attempt answers success no second command is started. *)
Theorem C3_fallback_result_dropped
        (raw_w raw_h total_f : Z) (label : string) (ratio : Q)
        (gpu cpu : Gui.child) (completed_tasks total_sub_tasks : Z)
        (e1 e2 : list Gui.event) (cpu_ok : bool) :
  Gui.run_ffmpeg_task gpu total_f = Gui.Returns false e1 ->
  Gui.run_ffmpeg_task cpu total_f = Gui.Returns cpu_ok e2 ->
  exists g,
    Gui.run_unit raw_w raw_h total_f label ratio gpu cpu
                 completed_tasks total_sub_tasks
    = Gui.Returns (completed_tasks + 1)%Z
        ([Gui.LogUnit label; Gui.Popen "h264_nvenc" g] ++ e1
           ++ [Gui.LogGpuFailed; Gui.Popen "libx264" g] ++ e2
           ++ [Gui.LogDone;
               Gui.TotalProgress (completed_tasks + 1) total_sub_tasks]).
Proof.
  intros Hg Hc. unfold Gui.run_unit.
  destruct (if (raw_h <? raw_w)%Z then (raw_h, raw_w) else (raw_w, raw_h))
    as [w h].
  rewrite Hg, Hc. simpl negb. cbv iota.
  eexists. f_equal. rewrite <- !app_assoc. reflexivity.
Qed.

Lemma C3_fallback_result_dropped_witness :
  (Gui.run_ffmpeg_task Sample.failing 300 = Gui.Returns false []
   /\ Gui.run_ffmpeg_task Sample.failing 300 = Gui.Returns false [])
  /\ exists g,
      Gui.run_unit 1080 1920 300 "9x20" (9 # 20) Sample.failing
                   Sample.failing 0 2
      = Gui.Returns (0 + 1)%Z
          ([Gui.LogUnit "9x20"; Gui.Popen "h264_nvenc" g] ++ []
             ++ [Gui.LogGpuFailed; Gui.Popen "libx264" g] ++ []
             ++ [Gui.LogDone; Gui.TotalProgress (0 + 1) 2]).
Proof.
  assert (H : Gui.run_ffmpeg_task Sample.failing 300 = Gui.Returns false [])
    by reflexivity.
  split; [split; exact H |].
  exact (C3_fallback_result_dropped 1080 1920 300 "9x20" (9 # 20)
           Sample.failing Sample.failing 0 2 [] [] false H H).
Defined.

Lemma run_unit_gpu_success
      (raw_w raw_h total_f : Z) (label : string) (ratio : Q)
      (gpu cpu : Gui.child) (completed_tasks total_sub_tasks : Z)
      (e1 : list Gui.event) :
  Gui.run_ffmpeg_task gpu total_f = Gui.Returns true e1 ->
  exists g,
    Gui.run_unit raw_w raw_h total_f label ratio gpu cpu
                 completed_tasks total_sub_tasks
    = Gui.Returns (completed_tasks + 1)%Z
        ([Gui.LogUnit label; Gui.Popen "h264_nvenc" g] ++ e1
           ++ [Gui.LogDone;
               Gui.TotalProgress (completed_tasks + 1) total_sub_tasks]).
Proof.
  intros Hg. unfold Gui.run_unit.
  destruct (if (raw_h <? raw_w)%Z then (raw_h, raw_w) else (raw_w, raw_h))
    as [w h].
  rewrite Hg. simpl negb. cbv iota.
  eexists. f_equal. rewrite <- !app_assoc. reflexivity.
Qed.

(** ** The order of progress callbacks *)

Lemma percent_mono (total_frames f1 f2 : Z) :
  (0 < total_frames)%Z -> (f1 <= f2)%Z ->
  (Gui.percent total_frames f1 <= Gui.percent total_frames f2)%Z.
Proof.
  intros Ht Hf. unfold Gui.percent.
  apply Z.min_le_compat_l. apply Z.quot_le_mono; lia.
Qed.

Lemma progress_values_app (a b : list Gui.event) :
  Gui.progress_values (a ++ b)
  = Gui.progress_values a ++ Gui.progress_values b.
Proof.
  induction a as [| e a IH]; simpl; [reflexivity |].
  destruct e; simpl; now rewrite IH.
Qed.

Lemma strongly_sorted_snoc (l : list Z) (y : Z) :
  StronglySorted Z.le l -> (forall x, In x l -> (x <= y)%Z) ->
  StronglySorted Z.le (l ++ [y]).
Proof.
  induction 1 as [| a l Hs IH Ha]; intros Hy; simpl.
  - repeat constructor.
  - constructor.
    + apply IH. intros x Hx. apply Hy. now right.
    + apply Forall_app. split; [exact Ha |].
      constructor; [| constructor]. apply Hy. now left.
Qed.

Section Order.

Variable total_frames : Z.

Let below := Gui.below total_frames.

Lemma on_line_keeps_order (k : Gui.tick) (rest : Gui.pipe) (s : Gui.watch)
      (evs : list Gui.event) :
  StronglySorted Z.le (Gui.frames_of (Gui.Read k rest)) ->
  StronglySorted Z.le (Gui.progress_values evs) ->
  below evs (Gui.frames_of (Gui.Read k rest)) ->
  let out := snd (Gui.on_line total_frames k s) in
  StronglySorted Z.le (Gui.frames_of rest)
  /\ StronglySorted Z.le (Gui.progress_values (evs ++ out))
  /\ below (evs ++ out) (Gui.frames_of rest).
Proof.
  unfold below, Gui.below. simpl Gui.frames_of. unfold Gui.on_line.
  destruct (Gui.frame_of (Gui.line k)) as [f |]; simpl.
  - intros Hf He Hb. inversion Hf as [| ? ? Hrest Hall]; subst.
    rewrite Forall_forall in Hall.
    assert (Hold : forall pct f', In pct (Gui.progress_values evs) ->
                                  In f' (Gui.frames_of rest) ->
                                  (pct <= Gui.percent total_frames f')%Z).
    { intros pct f' Hp Hf'. apply Hb; [exact Hp | now right]. }
    destruct (negb (f =? Gui.last_frame_count s)%Z); simpl;
      [destruct (0 <? total_frames)%Z eqn:Ht |]; simpl;
      rewrite ?app_nil_r; auto.
    apply Z.ltb_lt in Ht. rewrite progress_values_app. simpl.
    split; [exact Hrest | split].
    + apply strongly_sorted_snoc; [exact He |].
      intros x Hx. apply Hb; [exact Hx | now left].
    + intros pct f' Hp Hf'. apply in_app_or in Hp.
      destruct Hp as [Hp | [<- | []]].
      * now apply Hold.
      * apply percent_mono; [exact Ht | now apply Hall].
  - intros Hf He Hb. rewrite app_nil_r. auto.
Qed.

Lemma watch_loop_keeps_order (p : Gui.pipe) :
  forall (s : Gui.watch) (evs : list Gui.event),
    StronglySorted Z.le (Gui.frames_of p) ->
    StronglySorted Z.le (Gui.progress_values evs) ->
    below evs (Gui.frames_of p) ->
    StronglySorted Z.le
      (Gui.progress_values (Gui.events_of (Gui.watch_loop total_frames p s evs))).
Proof.
  induction p as [| | k rest IH]; intros s evs Hf He Hb.
  - simpl. rewrite progress_values_app. simpl. now rewrite app_nil_r.
  - exact He.
  - destruct (on_line_keeps_order k rest s evs Hf He Hb) as (H1 & H2 & H3).
    cbn [Gui.watch_loop].
    destruct (Gui.on_line total_frames k s) as [s' out]. simpl in H2, H3.
    assert (Hgo : StronglySorted Z.le
                    (Gui.progress_values
                       (Gui.events_of
                          (if Gui.stalled k s'
                           then Gui.Returns false
                                  (evs ++ out ++ [Gui.LogStall; Gui.Terminate])
                           else Gui.watch_loop total_frames rest s'
                                               (evs ++ out))))).
    { destruct (Gui.stalled k s').
      - simpl. rewrite app_assoc, progress_values_app. simpl.
        now rewrite app_nil_r.
      - now apply IH. }
    destruct (Gui.line k); [destruct (Gui.poll k) |]; simpl; auto.
Qed.

End Order.

Lemma progress_loop_update (line : string) (poll : option Z)
      (rest : Wallpaper.pipe) (last_f curr_f : Z) (updates : list Z) :
  Progress.re_search_frame false line = Some curr_f ->
  Wallpaper.progress_loop (Wallpaper.Read line poll rest) last_f updates
  = Wallpaper.progress_loop rest curr_f (updates ++ [curr_f - last_f])%Z.
Proof.
  intros H. destruct line as [| c l]; [discriminate |].
  cbn [Wallpaper.progress_loop]. now rewrite H.
Qed.

(** C7, as stated, fails: a frame counter lower than the last one is not
    discarded.  On the lines [frame=50] then [frame=30] of a 100-frame job
    the GUI worker emits 50% and then 30%, and the wallpaper script calls
    [pbar.update] with 50 and then -20. *)
Lemma C7_lower_value_counterexample :
  Gui.run_ffmpeg_task Sample.backwards 100
  = Gui.Returns true [Gui.LogProgress 50; Gui.LogProgress 30]
  /\ ~ Sorted Z.le
       (Gui.progress_values
          (Gui.events_of (Gui.run_ffmpeg_task Sample.backwards 100)))
  /\ Wallpaper.progress_loop Sample.backwards_pipe 0 []
     = Some (0%Z, [50; -20]%Z).
Proof.
  assert (E : Gui.run_ffmpeg_task Sample.backwards 100
              = Gui.Returns true [Gui.LogProgress 50; Gui.LogProgress 30])
    by reflexivity.
  split; [exact E | split; [| reflexivity]].
  rewrite E. simpl. intros H.
  inversion H as [| ? ? _ Hhd]; subst.
  inversion Hhd as [| ? ? Hle]; subst. lia.
Qed.

(** C7 (amended): in the GUI worker a frame counter equal to the last one
    seen is discarded (no callback, no new time stamp, so thirty seconds of
    repeats end in a stall); every other value,
    lower ones included, becomes the last one seen, stamps the time and,
    when [total_frames > 0], is emitted; so the emitted percentages never
    decrease provided the counters on the lines never do.  The wallpaper
    script calls [pbar.update(curr_f - last_f)] for every counter it reads,
    whatever its value. *)
Theorem C7_progress_order :
  (forall (total_frames : Z) (k : Gui.tick) (s : Gui.watch) (f : Z),
      Gui.frame_of (Gui.line k) = Some f ->
      f = Gui.last_frame_count s ->
      Gui.on_line total_frames k s = (s, []))
  /\ (forall (total_frames : Z) (k : Gui.tick) (s : Gui.watch) (f : Z),
         Gui.frame_of (Gui.line k) = Some f ->
         f <> Gui.last_frame_count s ->
         Gui.on_line total_frames k s
         = (Gui.mk_watch f (Gui.clock_advance k),
            if (0 <? total_frames)%Z
            then [Gui.LogProgress (Gui.percent total_frames f)] else []))
  /\ Gui.run_ffmpeg_task Sample.stuck 100
     = Gui.Returns false [Gui.LogProgress 1; Gui.LogStall; Gui.Terminate]
  /\ (forall (total_frames : Z) (c : Gui.child),
         Sorted Z.le (Gui.frames_of (Gui.stdout c)) ->
         Sorted Z.le
           (Gui.progress_values
              (Gui.events_of (Gui.run_ffmpeg_task c total_frames))))
  /\ (forall (line : string) (poll : option Z) (rest : Wallpaper.pipe)
             (last_f curr_f : Z) (updates : list Z),
         Progress.re_search_frame false line = Some curr_f ->
         Wallpaper.progress_loop (Wallpaper.Read line poll rest) last_f updates
         = Wallpaper.progress_loop rest curr_f
                                   (updates ++ [curr_f - last_f])%Z).
Proof.
  split; [| split; [| split; [| split]]].
  - intros total_frames k s f Hf He. unfold Gui.on_line. rewrite Hf.
    apply Z.eqb_eq in He. now rewrite He.
  - intros total_frames k s f Hf Hn. unfold Gui.on_line. rewrite Hf.
    apply Z.eqb_neq in Hn. now rewrite Hn.
  - reflexivity.
  - intros total_frames c Hs. apply StronglySorted_Sorted.
    unfold Gui.run_ffmpeg_task. apply watch_loop_keeps_order.
    + apply Sorted_StronglySorted; [exact Z.le_trans | exact Hs].
    + constructor.
    + intros pct f [].
  - exact progress_loop_update.
Qed.

Lemma C7_progress_order_witness :
  let k := Gui.mk_tick "frame=  30 fps=25" None 2 2 in
  (Gui.frame_of (Gui.line k) = Some 30%Z
   /\ Sorted Z.le (Gui.frames_of (Gui.stdout Sample.late))
   /\ Progress.re_search_frame false "frame=30" = Some 30%Z)
  /\ Gui.on_line 100 k (Gui.mk_watch 30 1) = (Gui.mk_watch 30 1, [])
  /\ Gui.on_line 100 k (Gui.mk_watch 50 1)
     = (Gui.mk_watch 30 2, [Gui.LogProgress 30])
  /\ Sorted Z.le
       (Gui.progress_values
          (Gui.events_of (Gui.run_ffmpeg_task Sample.late 100)))
  /\ Wallpaper.progress_loop
       (Wallpaper.Read "frame=30" None Wallpaper.Blocked) 50 []
     = Wallpaper.progress_loop Wallpaper.Blocked 30 ([] ++ [30 - 50])%Z.
Proof.
  intros k.
  assert (H1 : Gui.frame_of (Gui.line k) = Some 30%Z) by reflexivity.
  assert (H2 : Sorted Z.le (Gui.frames_of (Gui.stdout Sample.late))).
  { change (Sorted Z.le [1; 2]%Z). repeat constructor. lia. }
  assert (H3 : Progress.re_search_frame false "frame=30" = Some 30%Z)
    by reflexivity.
  assert (H4 : 30%Z = Gui.last_frame_count (Gui.mk_watch 30 1))
    by reflexivity.
  assert (H5 : 30%Z <> Gui.last_frame_count (Gui.mk_watch 50 1))
    by (simpl; lia).
  split; [repeat split; assumption |].
  split; [| split; [| split]].
  - exact (proj1 C7_progress_order 100%Z k (Gui.mk_watch 30 1) 30%Z H1 H4).
  - exact (proj1 (proj2 C7_progress_order) 100%Z k (Gui.mk_watch 50 1)
             30%Z H1 H5).
  - exact (proj1 (proj2 (proj2 (proj2 C7_progress_order))) 100%Z
             Sample.late H2).
  - exact (proj2 (proj2 (proj2 (proj2 C7_progress_order))) "frame=30"%string
             None Wallpaper.Blocked 50%Z 30%Z [] H3).
Defined.

(** * Further properties of the code *)

(** ** Reading the frame counter *)

Lemma re_search_frame_step (spaces : bool) (a : ascii) (s' : string) :
  Progress.re_search_frame spaces (String a s')
  = match Progress.strip_prefix "frame=" (String a s') with
    | Some r =>
        match Progress.match_digits
                (if spaces then Progress.skip_spaces r else r) with
        | Some n => Some n
        | None => Progress.re_search_frame spaces s'
        end
    | None => Progress.re_search_frame spaces s'
    end.
Proof. reflexivity. Qed.

Lemma contains_step (p s : string) :
  Progress.contains p s
  = match Progress.strip_prefix p s with
    | Some _ => true
    | None =>
        match s with
        | EmptyString => false
        | String _ s' => Progress.contains p s'
        end
    end.
Proof. destruct s; reflexivity. Qed.

Lemma digit_value_nonneg (c : ascii) :
  Progress.is_digit c = true -> (0 <= Progress.digit_value c <= 9)%Z.
Proof.
  unfold Progress.is_digit, Progress.digit_value. cbv zeta.
  rewrite andb_true_iff, !Nat.leb_le. lia.
Qed.

Lemma read_digits_nonneg (s : string) :
  forall acc : Z, (0 <= acc)%Z -> (0 <= Progress.read_digits s acc)%Z.
Proof.
  induction s as [| c s IH]; intros acc Hacc; cbn [Progress.read_digits];
    [exact Hacc |].
  destruct (Progress.is_digit c) eqn:E; [| exact Hacc].
  apply IH. apply digit_value_nonneg in E. lia.
Qed.

Lemma match_digits_nonneg (s : string) (n : Z) :
  Progress.match_digits s = Some n -> (0 <= n)%Z.
Proof.
  unfold Progress.match_digits. destruct s as [| c s]; [discriminate |].
  destruct (Progress.is_digit c); [| discriminate].
  intros E. assert (En : n = Progress.read_digits (String c s) 0)
    by (injection E as <-; reflexivity).
  rewrite En. apply read_digits_nonneg. lia.
Qed.

Lemma re_search_frame_nonneg (spaces : bool) (s : string) (n : Z) :
  Progress.re_search_frame spaces s = Some n -> (0 <= n)%Z.
Proof.
  induction s as [| a s IH]; [discriminate |].
  rewrite re_search_frame_step.
  destruct (Progress.strip_prefix "frame=" (String a s)) as [r |]; [| exact IH].
  destruct (Progress.match_digits _) as [m |] eqn:E; [| exact IH].
  intros [= <-]. exact (match_digits_nonneg _ _ E).
Qed.

(** X2.  A line on which the pattern [frame=\s*(\d+)] (or [frame=(\d+)])
    matches contains the text [frame=]: the test ['frame=' in line] of the
    GUI worker never hides a match, and the counter it reads is never
    negative, so it never equals the initial [last_frame_count = -1]. *)
Theorem X2_frame_guard_is_redundant :
  (forall (spaces : bool) (s : string) (n : Z),
      Progress.re_search_frame spaces s = Some n ->
      Progress.contains "frame=" s = true /\ (0 <= n)%Z)
  /\ (forall line : string,
         Gui.frame_of line = Progress.re_search_frame true line).
Proof.
  assert (H : forall (spaces : bool) (s : string) (n : Z),
             Progress.re_search_frame spaces s = Some n ->
             Progress.contains "frame=" s = true).
  { intros spaces s. induction s as [| a s IH]; intros n; [discriminate |].
    rewrite re_search_frame_step, contains_step.
    destruct (Progress.strip_prefix "frame=" (String a s)) as [r |];
      [reflexivity |].
    exact (IH n). }
  split.
  - intros spaces s n Hn. split; [exact (H _ _ _ Hn) |].
    exact (re_search_frame_nonneg _ _ _ Hn).
  - intros line. unfold Gui.frame_of.
    destruct (Progress.re_search_frame true line) as [n |] eqn:E.
    + now rewrite (H _ _ _ E).
    + now destruct (Progress.contains "frame=" line).
Qed.

Lemma X2_frame_guard_is_redundant_witness :
  Progress.re_search_frame true "frame=  120 fps= 25 q=-1.0" = Some 120%Z
  /\ Progress.contains "frame=" "frame=  120 fps= 25 q=-1.0" = true
  /\ (0 <= 120)%Z.
Proof.
  assert (H : Progress.re_search_frame true "frame=  120 fps= 25 q=-1.0"
              = Some 120%Z) by reflexivity.
  split; [exact H |].
  exact (proj1 X2_frame_guard_is_redundant true
           "frame=  120 fps= 25 q=-1.0"%string 120%Z H).
Defined.

(** ** The watchdog loop, continued *)

Lemma percent_range (total_frames f : Z) :
  (0 < total_frames)%Z -> (0 <= f)%Z ->
  (0 <= Gui.percent total_frames f <= 100)%Z.
Proof.
  intros Ht Hf. unfold Gui.percent.
  assert (0 <= Z.quot (f * 100) total_frames)%Z by (apply Z.quot_pos; lia).
  lia.
Qed.

Lemma on_line_out (total_frames : Z) (k : Gui.tick) (s : Gui.watch) :
  snd (Gui.on_line total_frames k s) = []
  \/ exists f, Gui.frame_of (Gui.line k) = Some f
               /\ (0 < total_frames)%Z
               /\ snd (Gui.on_line total_frames k s)
                  = [Gui.LogProgress (Gui.percent total_frames f)].
Proof.
  unfold Gui.on_line.
  destruct (Gui.frame_of (Gui.line k)) as [f |]; [| now left].
  destruct (negb (f =? Gui.last_frame_count s)%Z); [| now left].
  destruct (0 <? total_frames)%Z eqn:Ht; [| now left].
  right. exists f. apply Z.ltb_lt in Ht. auto.
Qed.

Lemma frame_of_nonneg (line : string) (f : Z) :
  Gui.frame_of line = Some f -> (0 <= f)%Z.
Proof.
  unfold Gui.frame_of. destruct (Progress.contains "frame=" line);
    [apply re_search_frame_nonneg | discriminate].
Qed.

Section Loop.

Variable total_frames : Z.

Let in_range (pct : Z) : Prop := (0 <= pct <= 100)%Z.

Lemma watch_loop_range (p : Gui.pipe) :
  forall (s : Gui.watch) (evs : list Gui.event),
    Forall in_range (Gui.progress_values evs) ->
    Forall in_range
      (Gui.progress_values
         (Gui.events_of (Gui.watch_loop total_frames p s evs))).
Proof.
  induction p as [| | k rest IH]; intros s evs He.
  - simpl. rewrite progress_values_app. simpl. now rewrite app_nil_r.
  - exact He.
  - assert (Hout : Forall in_range
                     (Gui.progress_values
                        (evs ++ snd (Gui.on_line total_frames k s)))).
    { rewrite progress_values_app. apply Forall_app. split; [exact He |].
      destruct (on_line_out total_frames k s) as [-> | (f & Hf & Ht & ->)];
        simpl; constructor; [| constructor].
      apply percent_range; [exact Ht | exact (frame_of_nonneg _ _ Hf)]. }
    cbn [Gui.watch_loop].
    destruct (Gui.on_line total_frames k s) as [s' out]. simpl in Hout.
    assert (Hgo : Forall in_range
                    (Gui.progress_values
                       (Gui.events_of
                          (if Gui.stalled k s'
                           then Gui.Returns false
                                  (evs ++ out ++ [Gui.LogStall; Gui.Terminate])
                           else Gui.watch_loop total_frames rest s'
                                               (evs ++ out))))).
    { destruct (Gui.stalled k s').
      - simpl. rewrite app_assoc, progress_values_app. simpl.
        now rewrite app_nil_r.
      - now apply IH. }
    destruct (Gui.line k); [destruct (Gui.poll k) |]; simpl; auto.
Qed.

(** The loop answers [True] only after an empty read with return code 0,
    and then it has added nothing but progress callbacks to the log. *)
Lemma watch_loop_true (p : Gui.pipe) :
  forall (s : Gui.watch) (evs evs' : list Gui.event),
    Gui.watch_loop total_frames p s evs = Gui.Returns true evs' ->
    (exists k, In k (Gui.ticks p) /\ Gui.line k = EmptyString
               /\ Gui.poll k = Some 0%Z)
    /\ (forall e, In e evs' ->
                  In e evs \/ exists pct, e = Gui.LogProgress pct).
Proof.
  induction p as [| | k rest IH]; intros s evs evs' H;
    try discriminate.
  cbn [Gui.watch_loop] in H.
  assert (Hstep :
            (let '(s', out) := Gui.on_line total_frames k s in
             if Gui.stalled k s'
             then Gui.Returns false
                    (evs ++ out ++ [Gui.LogStall; Gui.Terminate])
             else Gui.watch_loop total_frames rest s' (evs ++ out))
            = Gui.Returns true evs' ->
            (exists k0, In k0 (Gui.ticks (Gui.Read k rest))
                        /\ Gui.line k0 = EmptyString
                        /\ Gui.poll k0 = Some 0%Z)
            /\ (forall e, In e evs' ->
                          In e evs \/ exists pct, e = Gui.LogProgress pct)).
  { pose proof (on_line_out total_frames k s) as Hout.
    destruct (Gui.on_line total_frames k s) as [s' out]. simpl in Hout.
    destruct (Gui.stalled k s'); [discriminate |].
    intros H'. destruct (IH _ _ _ H') as [(k0 & Hin & Hl & Hp) Hev].
    split.
    - exists k0. simpl. auto.
    - intros e He. destruct (Hev e He) as [Hi | Hi]; [| now right].
      apply in_app_or in Hi. destruct Hi as [Hi | Hi]; [now left |].
      destruct Hout as [-> | (f & _ & _ & ->)]; [destruct Hi |].
      destruct Hi as [<- | []]. right. eauto. }
  destruct (Gui.line k) eqn:El; [destruct (Gui.poll k) as [rc |] eqn:Ep |];
    try (exact (Hstep H)).
  injection H as Hrc <-. apply Z.eqb_eq in Hrc. subst rc. split.
  - exists k. simpl. auto.
  - intros e He. now left.
Qed.

(** Lines that do not change the frame counter leave the watch as it is. *)
Lemma idle_on_line (s : Gui.watch) (k : Gui.tick) :
  Gui.idle s k -> Gui.on_line total_frames k s = (s, []).
Proof.
  intros [_ [H | H]]; unfold Gui.on_line; rewrite H; [reflexivity |].
  now rewrite Z.eqb_refl.
Qed.

Lemma watch_loop_idle_step (k : Gui.tick) (rest : Gui.pipe) (s : Gui.watch)
      (evs : list Gui.event) :
  Gui.idle s k ->
  Gui.watch_loop total_frames (Gui.Read k rest) s evs
  = if Gui.stalled k s
    then Gui.Returns false (evs ++ [Gui.LogStall; Gui.Terminate])
    else Gui.watch_loop total_frames rest s evs.
Proof.
  intros Hi. pose proof (idle_on_line s k Hi) as Ho.
  destruct Hi as [Hk _]. cbn [Gui.watch_loop]. rewrite Ho.
  rewrite app_nil_r. cbn [app].
  destruct (Gui.line k) eqn:El; [destruct (Gui.poll k) eqn:Ep |];
    try reflexivity.
  destruct Hk; congruence.
Qed.

Lemma watch_loop_idle_stall (ks : list Gui.tick) :
  forall (k : Gui.tick) (rest : Gui.pipe) (s : Gui.watch)
         (evs : list Gui.event),
    Forall (Gui.idle s) ks -> Gui.idle s k -> Gui.stalled k s = true ->
    Gui.watch_loop total_frames (Gui.reads ks (Gui.Read k rest)) s evs
    = Gui.Returns false (evs ++ [Gui.LogStall; Gui.Terminate]).
Proof.
  induction ks as [| a ks IH]; intros k rest s evs Hks Hk Hs.
  - change (Gui.reads [] (Gui.Read k rest)) with (Gui.Read k rest).
    rewrite watch_loop_idle_step by exact Hk. now rewrite Hs.
  - inversion Hks as [| ? ? Ha Hks']; subst.
    change (Gui.reads (a :: ks) (Gui.Read k rest))
      with (Gui.Read a (Gui.reads ks (Gui.Read k rest))).
    rewrite watch_loop_idle_step by exact Ha.
    destruct (Gui.stalled a s); [reflexivity |].
    now apply IH.
Qed.

End Loop.

Lemma filter_repeat_true (n : nat) :
  List.filter (fun b : bool => b) (repeat true n) = repeat true n.
Proof. induction n as [| n IH]; simpl; [reflexivity | now rewrite IH]. Qed.

Lemma filter_repeat_false (n : nat) :
  List.filter (fun b : bool => b) (repeat false n) = [].
Proof. induction n as [| n IH]; simpl; [reflexivity | exact IH]. Qed.

Lemma progress_bar_cells (percent length : Z) :
  (0 <= length)%Z -> (0 <= percent)%Z ->
  let cells := Gui.create_progress_bar_text percent length in
  List.length cells = Z.to_nat (Z.max length (length * percent / 100))
  /\ List.length (List.filter (fun b : bool => b) cells)
     = Z.to_nat (length * percent / 100)
  /\ ((percent <= 100)%Z -> List.length cells = Z.to_nat length).
Proof.
  intros Hl Hp cells. subst cells. unfold Gui.create_progress_bar_text.
  set (filled := (length * percent / 100)%Z).
  assert (Hf : (0 <= filled)%Z) by (apply Z.div_pos; nia).
  rewrite filter_app, filter_repeat_true, filter_repeat_false, app_nil_r.
  rewrite length_app, !repeat_length.
  split; [lia | split; [reflexivity |]].
  intros H100.
  assert (filled <= length)%Z by (apply Z.div_le_upper_bound; nia).
  lia.
Qed.

(** X5.  The bar drawn by [create_progress_bar_text] for a percentage
    between 0 and 100 has exactly [length] cells, of which
    [length * percent // 100] are full; for a percentage above 100 the bar
    grows beyond [length], which is why the caller caps the percentage. *)
Theorem X5_progress_bar_cells (percent length : Z) :
  (0 <= length)%Z -> (0 <= percent)%Z ->
  let cells := Gui.create_progress_bar_text percent length in
  List.length cells = Z.to_nat (Z.max length (length * percent / 100))
  /\ List.length (List.filter (fun b : bool => b) cells)
     = Z.to_nat (length * percent / 100)
  /\ ((percent <= 100)%Z -> List.length cells = Z.to_nat length).
Proof. exact (progress_bar_cells percent length). Qed.

Lemma X5_progress_bar_cells_witness :
  ((0 <= 35)%Z /\ (0 <= 40)%Z /\ (40 <= 100)%Z)
  /\ List.length (Gui.create_progress_bar_text 40 35) = 35%nat
  /\ List.length (List.filter (fun b : bool => b)
                              (Gui.create_progress_bar_text 40 35))
     = 14%nat.
Proof.
  assert (H1 : (0 <= 35)%Z) by lia.
  assert (H2 : (0 <= 40)%Z) by lia.
  assert (H3 : (40 <= 100)%Z) by lia.
  split; [auto |].
  destruct (X5_progress_bar_cells 40 35 H1 H2) as (_ & Hfull & Hlen).
  split; [exact (Hlen H3) | exact Hfull].
Defined.

(** X1.  Whatever the child prints and whatever [total_frames] is, every
    percentage [run_ffmpeg_task] emits lies between 0 and 100, so every
    progress bar it draws has exactly 35 cells. *)
Theorem X1_progress_within_bounds (c : Gui.child) (total_frames : Z) :
  Forall (fun pct =>
            (0 <= pct <= 100)%Z
            /\ List.length (Gui.create_progress_bar_text pct 35) = 35%nat)
         (Gui.progress_values
            (Gui.events_of (Gui.run_ffmpeg_task c total_frames))).
Proof.
  assert (H : Forall (fun pct => (0 <= pct <= 100)%Z)
                     (Gui.progress_values
                        (Gui.events_of (Gui.run_ffmpeg_task c total_frames)))).
  { unfold Gui.run_ffmpeg_task. apply watch_loop_range. constructor. }
  apply (Forall_impl _ (P := fun pct => (0 <= pct <= 100)%Z)); [| exact H].
  intros pct [H0 H100]. split; [lia |].
  assert (H35 : (0 <= 35)%Z) by lia.
  destruct (progress_bar_cells pct 35 H35 H0) as (_ & _ & Hlen).
  exact (Hlen H100).
Qed.

(** X3.  [run_ffmpeg_task] answers [True] only when [readline] has returned
    the empty string with the child ended on return code 0; in that case it
    has neither terminated the child nor logged a stall. *)
Theorem X3_success_needs_clean_exit
        (c : Gui.child) (total_frames : Z) (evs : list Gui.event) :
  Gui.run_ffmpeg_task c total_frames = Gui.Returns true evs ->
  (exists k, In k (Gui.ticks (Gui.stdout c)) /\ Gui.line k = EmptyString
             /\ Gui.poll k = Some 0%Z)
  /\ ~ In Gui.Terminate evs /\ ~ In Gui.LogStall evs.
Proof.
  intros H. unfold Gui.run_ffmpeg_task in H.
  destruct (watch_loop_true total_frames _ _ _ _ H) as [Hk Hev].
  split; [exact Hk |].
  split; intros Hin; destruct (Hev _ Hin) as [[] | [pct E]]; discriminate.
Qed.

Lemma X3_success_needs_clean_exit_witness :
  Gui.run_ffmpeg_task Sample.late 100
  = Gui.Returns true [Gui.LogProgress 1; Gui.LogProgress 2]
  /\ (exists k, In k (Gui.ticks (Gui.stdout Sample.late))
                /\ Gui.line k = EmptyString /\ Gui.poll k = Some 0%Z)
  /\ ~ In Gui.Terminate [Gui.LogProgress 1; Gui.LogProgress 2]
  /\ ~ In Gui.LogStall [Gui.LogProgress 1; Gui.LogProgress 2].
Proof.
  assert (H : Gui.run_ffmpeg_task Sample.late 100
              = Gui.Returns true [Gui.LogProgress 1; Gui.LogProgress 2])
    by reflexivity.
  split; [exact H |].
  exact (X3_success_needs_clean_exit Sample.late 100
           [Gui.LogProgress 1; Gui.LogProgress 2] H).
Defined.

(** X4.  Once the frame counter stands still, the watchdog works as long as
    the child keeps printing: if the lines read from some point on carry no
    counter or the counter already seen, and one of them is read more than
    25 seconds after the last advance, the loop logs the stall, terminates
    the child and answers [False], at that line at the latest. *)
Theorem X4_watchdog_stops_idle_child
        (total_frames : Z) (ks : list Gui.tick) (k : Gui.tick)
        (rest : Gui.pipe) (s : Gui.watch) (evs : list Gui.event) :
  Forall (Gui.idle s) ks -> Gui.idle s k -> Gui.stalled k s = true ->
  Gui.watch_loop total_frames (Gui.reads ks (Gui.Read k rest)) s evs
  = Gui.Returns false (evs ++ [Gui.LogStall; Gui.Terminate]).
Proof. apply watch_loop_idle_stall. Qed.

Lemma X4_watchdog_stops_idle_child_witness :
  let s := Gui.mk_watch 120 10 in
  let k1 := Gui.mk_tick "fps=0.0" None 20 20 in
  let k2 := Gui.mk_tick "frame=120" None 36 36 in
  (Forall (Gui.idle s) [k1] /\ Gui.idle s k2 /\ Gui.stalled k2 s = true)
  /\ Gui.watch_loop 300 (Gui.reads [k1] (Gui.Read k2 Gui.Blocked)) s []
     = Gui.Returns false ([] ++ [Gui.LogStall; Gui.Terminate]).
Proof.
  intros s k1 k2.
  assert (H1 : Forall (Gui.idle s) [k1]).
  { constructor; [| constructor]. split; [left; discriminate |].
    left. reflexivity. }
  assert (H2 : Gui.idle s k2).
  { split; [left; discriminate | right; reflexivity]. }
  assert (H3 : Gui.stalled k2 s = true) by reflexivity.
  split; [auto |].
  exact (X4_watchdog_stops_idle_child 300 [k1] k2 Gui.Blocked s [] H1 H2 H3).
Defined.

(** ** The wallpaper graph, continued *)

Lemma even_floor_facts (n : Z) :
  ((n / 2 * 2) mod 2 = 0 /\ n - 1 <= n / 2 * 2 <= n
   /\ (n / 2 * 2 = n <-> n mod 2 = 0))%Z.
Proof.
  pose proof (Z.div_mod n 2 ltac:(lia)) as Hd.
  pose proof (Z.mod_pos_bound n 2 ltac:(lia)) as Hm.
  split; [apply Z.mod_mul; lia | lia].
Qed.

Lemma centred (a b : Z) : (2 * ((a / 2 * 2 - b / 2 * 2) / 2) = a / 2 * 2 - b / 2 * 2)%Z.
Proof.
  replace (a / 2 * 2 - b / 2 * 2)%Z with ((a / 2 - b / 2) * 2)%Z by lia.
  rewrite Z.div_mul by lia. lia.
Qed.

(** X6.  [build_complex_filter] keeps its promise of even sizes: the canvas
    [sw] x [sth] and the mask [sw] x [sh] have even sides, each at most one
    pixel below the side it was computed from, the mask has the size of the
    source exactly when both sides of the source are even, and the
    foreground is centred exactly: twice the offset is [sth - sh]. *)
Theorem X6_even_sizes_exact_centring (rotate : bool) (w h target_h : Z) :
  exists sw sh sth y : Z,
    Graph.crop_size (Wallpaper.build_complex_filter rotate w h target_h)
    = Some (sw, sth)
    /\ Graph.mask_size (Wallpaper.build_complex_filter rotate w h target_h)
       = Some (sw, sh)
    /\ Graph.overlay_at (Wallpaper.build_complex_filter rotate w h target_h)
       = Some (0%Z, y)
    /\ (sw mod 2 = 0 /\ sh mod 2 = 0 /\ sth mod 2 = 0)%Z
    /\ (w - 1 <= sw <= w /\ h - 1 <= sh <= h
        /\ target_h - 1 <= sth <= target_h)%Z
    /\ ((sw, sh) = (w, h) <-> (w mod 2 = 0 /\ h mod 2 = 0)%Z)
    /\ (2 * y = sth - sh)%Z.
Proof.
  destruct (wallpaper_layout rotate w h target_h) as (_ & Hc & Hm & Ho).
  exists (w / 2 * 2)%Z, (h / 2 * 2)%Z, (target_h / 2 * 2)%Z,
    ((target_h / 2 * 2 - h / 2 * 2) / 2)%Z.
  destruct (even_floor_facts w) as (Hw1 & Hw2 & Hw3).
  destruct (even_floor_facts h) as (Hh1 & Hh2 & Hh3).
  destruct (even_floor_facts target_h) as (Ht1 & Ht2 & _).
  split; [exact Hc |]. split; [exact Hm |]. split; [exact Ho |].
  split; [auto |]. split; [lia |]. split; [| apply centred].
  split.
  - intros [= E1 E2]. split; [apply Hw3 | apply Hh3]; assumption.
  - intros [E1 E2]. apply Hw3 in E1. apply Hh3 in E2. congruence.
Qed.

Lemma working_size_min_max (ow oh : Z) :
  let '(w, h) := Wallpaper.working_size ow oh in
  (w = Z.min ow oh /\ h = Z.max ow oh)%Z.
Proof.
  unfold Wallpaper.working_size, Wallpaper.rotate.
  destruct (oh <? ow)%Z eqn:E;
    [apply Z.ltb_lt in E | apply Z.ltb_ge in E]; lia.
Qed.

(** X7.  The working size of [process_file] is always upright: its width is
    the smaller and its height the larger side of the source, so a second
    rotation test on it would answer no. *)
Theorem X7_working_size_is_upright (ow oh : Z) :
  let '(w, h) := Wallpaper.working_size ow oh in
  (w = Z.min ow oh /\ h = Z.max ow oh /\ w <= h)%Z
  /\ Wallpaper.rotate w h = false
  /\ Wallpaper.working_size w h = (w, h).
Proof.
  unfold Wallpaper.working_size, Wallpaper.rotate.
  destruct (oh <? ow)%Z eqn:E.
  - apply Z.ltb_lt in E.
    assert (E' : (ow <? oh)%Z = false) by (apply Z.ltb_ge; lia).
    rewrite E'. repeat split; lia.
  - rewrite E. apply Z.ltb_ge in E. repeat split; lia.
Qed.

Lemma preset_height_bounds (w : Z) :
  (0 <= w)%Z ->
  (20 * w - 18 < 9 * (Wallpaper.target_height w (9 # 20) / 2 * 2) <= 20 * w
   /\ 11 * w - 10 < 5 * (Wallpaper.target_height w (5 # 11) / 2 * 2)
      <= 11 * w)%Z.
Proof.
  intros Hw. rewrite target_height_9x20, target_height_5x11.
  rewrite !Z.quot_div_nonneg by lia.
  pose proof (Z.div_mod (w * 20) 9 ltac:(lia)).
  pose proof (Z.mod_pos_bound (w * 20) 9 ltac:(lia)).
  pose proof (Z.div_mod (w * 11) 5 ltac:(lia)).
  pose proof (Z.mod_pos_bound (w * 11) 5 ltac:(lia)).
  destruct (even_floor_facts (w * 20 / 9)) as (_ & ? & _).
  destruct (even_floor_facts (w * 11 / 5)) as (_ & ? & _).
  lia.
Qed.

(** X8.  For a source with non-negative sides the canvas of [process_file]
    follows the preset up to rounding: with [w] the smaller side, the canvas
    is [w // 2 * 2] wide, and its height [sth] satisfies
    [20 w - 18 < 9 sth <= 20 w] for the preset 9x20 and
    [11 w - 10 < 5 sth <= 11 w] for the preset 5x11. *)
Theorem X8_canvas_follows_preset (ow oh : Z) :
  (0 <= ow)%Z -> (0 <= oh)%Z ->
  let w := Z.min ow oh in
  (exists sth,
      Graph.crop_size (Wallpaper.plan ow oh (9 # 20))
      = Some (w / 2 * 2, sth)%Z
      /\ (20 * w - 18 < 9 * sth <= 20 * w)%Z)
  /\ (exists sth,
         Graph.crop_size (Wallpaper.plan ow oh (5 # 11))
         = Some (w / 2 * 2, sth)%Z
         /\ (11 * w - 10 < 5 * sth <= 11 * w)%Z).
Proof.
  intros Hw Hh w.
  pose proof (working_size_min_max ow oh) as Hup.
  unfold Wallpaper.plan.
  destruct (Wallpaper.working_size ow oh) as [w' h'].
  destruct Hup as (-> & _).
  fold w. destruct (preset_height_bounds w ltac:(lia)) as [H1 H2].
  split; eexists; (split; [apply wallpaper_layout | assumption]).
Qed.

Lemma X8_canvas_follows_preset_witness :
  ((0 <= 1920)%Z /\ (0 <= 1080)%Z)
  /\ (exists sth,
         Graph.crop_size (Wallpaper.plan 1920 1080 (9 # 20))
         = Some (Z.min 1920 1080 / 2 * 2, sth)%Z
         /\ (20 * Z.min 1920 1080 - 18 < 9 * sth <= 20 * Z.min 1920 1080)%Z)
  /\ Graph.crop_size (Wallpaper.plan 1920 1080 (9 # 20))
     = Some (1080, 2400)%Z.
Proof.
  assert (H1 : (0 <= 1920)%Z) by lia.
  assert (H2 : (0 <= 1080)%Z) by lia.
  split; [auto |].
  split; [exact (proj1 (X8_canvas_follows_preset 1920 1080 H1 H2)) |].
  reflexivity.
Defined.

(** ** The progress bar of the wallpaper script *)

Lemma bar_position_app (a : list Z) (d : Z) :
  Wallpaper.bar_position (a ++ [d]) = (Wallpaper.bar_position a + d)%Z.
Proof.
  unfold Wallpaper.bar_position.
  induction a as [| x a IH]; simpl; [lia | rewrite IH; lia].
Qed.

Lemma progress_loop_telescopes (p : Wallpaper.pipe) :
  forall (last_f : Z) (updates updates' : list Z) (returncode : Z),
    Wallpaper.progress_loop p last_f updates = Some (returncode, updates') ->
    exists final,
      Wallpaper.final_frame p last_f = Some final
      /\ (Wallpaper.bar_position updates'
          = Wallpaper.bar_position updates + final - last_f)%Z.
Proof.
  induction p as [| line poll rest IH]; intros last_f ups ups' rc H;
    [discriminate |].
  cbn [Wallpaper.progress_loop Wallpaper.final_frame] in *.
  assert (Hgo :
            match Progress.re_search_frame false line with
            | Some curr_f =>
                Wallpaper.progress_loop rest curr_f
                                        (ups ++ [curr_f - last_f])%Z
            | None => Wallpaper.progress_loop rest last_f ups
            end = Some (rc, ups') ->
            exists final,
              match Progress.re_search_frame false line with
              | Some curr_f => Wallpaper.final_frame rest curr_f
              | None => Wallpaper.final_frame rest last_f
              end = Some final
              /\ (Wallpaper.bar_position ups'
                  = Wallpaper.bar_position ups + final - last_f)%Z).
  { destruct (Progress.re_search_frame false line) as [curr_f |].
    - intros H'. destruct (IH _ _ _ _ H') as (final & Hf & Hb).
      exists final. split; [exact Hf |].
      rewrite Hb, bar_position_app. lia.
    - intros H'. exact (IH _ _ _ _ H'). }
  destruct line as [| c l]; [destruct poll as [rc' |] |];
    try (exact (Hgo H)).
  injection H as <- <-. exists last_f. split; [reflexivity | lia].
Qed.

(** X9.  When the read loop of [process_file] ends, the position of the
    progress bar (the sum of all the [pbar.update] arguments) is the last
    frame counter read, 0 if none was: repeated or decreasing counters do
    not make the bar drift. *)
Theorem X9_bar_tracks_last_frame
        (p : Wallpaper.pipe) (returncode : Z) (updates : list Z) :
  Wallpaper.progress_loop p 0 [] = Some (returncode, updates) ->
  Wallpaper.final_frame p 0 = Some (Wallpaper.bar_position updates).
Proof.
  intros H. destruct (progress_loop_telescopes p 0 [] updates returncode H)
    as (final & Hf & Hb).
  rewrite Hf. f_equal. unfold Wallpaper.bar_position at 2 in Hb.
  simpl in Hb. lia.
Qed.

Lemma X9_bar_tracks_last_frame_witness :
  Wallpaper.progress_loop Sample.backwards_pipe 0 [] = Some (0%Z, [50; -20]%Z)
  /\ Wallpaper.final_frame Sample.backwards_pipe 0
     = Some (Wallpaper.bar_position [50; -20]%Z)
  /\ Wallpaper.bar_position [50; -20]%Z = 30%Z.
Proof.
  assert (H : Wallpaper.progress_loop Sample.backwards_pipe 0 []
              = Some (0%Z, [50; -20]%Z)) by reflexivity.
  split; [exact H |].
  split; [exact (X9_bar_tracks_last_frame Sample.backwards_pipe 0
                   [50; -20]%Z H) |].
  reflexivity.
Defined.

(** ** The canvas and the loop of Video_Edit_FF.py *)

Lemma even_up (n : Z) :
  let m := (if (n mod 2 =? 0)%Z then n else (n + 1)%Z) in
  (m mod 2 = 0 /\ n <= m <= n + 1)%Z.
Proof.
  cbv zeta. destruct (n mod 2 =? 0)%Z eqn:E.
  - apply Z.eqb_eq in E. lia.
  - apply Z.eqb_neq in E. split; [| lia].
    rewrite Z.add_mod by lia.
    assert (H : (n mod 2 = 1)%Z) by (pose proof (Z.mod_pos_bound n 2); lia).
    now rewrite H.
Qed.

Lemma edit_ratio_above (width height : Z) :
  (0 < height)%Z ->
  (Py.ltb (9 # 16) (inject_Z width / inject_Z height) = true
   <-> (9 * height < 16 * width)%Z).
Proof.
  intros H. rewrite ltb_lt.
  destruct height as [| p | p]; try lia.
  unfold Qlt, Qdiv, Qmult, Qinv, inject_Z. cbn [Qnum Qden]. lia.
Qed.

Lemma int_of_div_9_16 (width : Z) :
  Py.int_of (inject_Z width / (9 # 16)) = Z.quot (width * 16) 9.
Proof. reflexivity. Qed.

Lemma int_of_mul_9_16 (height : Z) :
  Py.int_of (inject_Z height * (9 # 16)) = Z.quot (height * 9) 16.
Proof. reflexivity. Qed.

(** X10.  For a source of positive size, [process_video] of Video_Edit_FF
    builds a canvas with even sides that contains the source, keeps one
    side of the source up to the rounding to an even number, and has the
    ratio 9:16 up to rounding. *)
Theorem X10_canvas_contains_source (width height : Z) :
  (0 < width)%Z -> (0 < height)%Z ->
  exists new_width new_height,
    EditFF.canvas width height = Some (new_width, new_height)
    /\ (new_width mod 2 = 0 /\ new_height mod 2 = 0)%Z
    /\ (width <= new_width /\ height <= new_height)%Z
    /\ (new_width <= width + 1 \/ new_height <= height + 1)%Z
    /\ (-25 < 9 * new_height - 16 * new_width < 25)%Z.
Proof.
  intros Hw Hh. unfold EditFF.canvas.
  replace (height =? 0)%Z with false by (symmetry; apply Z.eqb_neq; lia).
  pose proof (edit_ratio_above width height Hh) as Hcmp.
  destruct (Py.ltb (9 # 16) (inject_Z width / inject_Z height)).
  - assert (H : (9 * height < 16 * width)%Z) by now apply Hcmp.
    rewrite int_of_div_9_16, Z.quot_div_nonneg by lia.
    pose proof (even_up width) as (E1 & E2).
    pose proof (even_up (width * 16 / 9)) as (E3 & E4).
    pose proof (Z.mul_div_le (width * 16) 9 ltac:(lia)).
    pose proof (Z.mul_succ_div_gt (width * 16) 9 ltac:(lia)).
    assert (height <= width * 16 / 9)%Z
      by (apply Z.div_le_lower_bound; lia).
    eexists _, _. split; [reflexivity |]. lia.
  - assert (H : ~ (9 * height < 16 * width)%Z)
      by (intros H; apply Hcmp in H; discriminate).
    rewrite int_of_mul_9_16, Z.quot_div_nonneg by lia.
    pose proof (even_up height) as (E1 & E2).
    pose proof (even_up (height * 9 / 16)) as (E3 & E4).
    pose proof (Z.mul_div_le (height * 9) 16 ltac:(lia)).
    pose proof (Z.mul_succ_div_gt (height * 9) 16 ltac:(lia)).
    assert (width <= height * 9 / 16)%Z
      by (apply Z.div_le_lower_bound; lia).
    eexists _, _. split; [reflexivity |]. lia.
Qed.

Lemma X10_canvas_contains_source_witness :
  ((0 < 1000)%Z /\ (0 < 1000)%Z)
  /\ EditFF.canvas 1000 1000 = Some (1000, 1778)%Z
  /\ exists new_width new_height,
      EditFF.canvas 1000 1000 = Some (new_width, new_height)
      /\ (new_width mod 2 = 0 /\ new_height mod 2 = 0)%Z
      /\ (1000 <= new_width /\ 1000 <= new_height)%Z
      /\ (new_width <= 1000 + 1 \/ new_height <= 1000 + 1)%Z
      /\ (-25 < 9 * new_height - 16 * new_width < 25)%Z.
Proof.
  assert (H : (0 < 1000)%Z) by lia.
  split; [auto |]. split; [reflexivity |].
  exact (X10_canvas_contains_source 1000 1000 H H).
Defined.

Lemma main_loop_total (probe : string -> option (Z * Z))
      (run_ffmpeg : string -> Z * Z -> bool) (video_files : list string) :
  forall c c',
    EditFF.main_loop probe run_ffmpeg video_files c = Some c' ->
    (EditFF.processed_count c <= EditFF.processed_count c'
     /\ EditFF.skipped_count c <= EditFF.skipped_count c'
     /\ EditFF.error_count c <= EditFF.error_count c'
     /\ EditFF.processed_count c' + EditFF.skipped_count c'
        + EditFF.error_count c'
        = EditFF.processed_count c + EditFF.skipped_count c
          + EditFF.error_count c + Z.of_nat (List.length video_files))%Z.
Proof.
  induction video_files as [| f rest IH]; intros c c' H.
  - injection H as <-. simpl. lia.
  - cbn [EditFF.main_loop] in H.
    destruct (probe f) as [[width height] |].
    + destruct (height =? 0)%Z; [discriminate |].
      destruct (EditFF.is_valid_aspect_ratio width height);
        [| destruct (EditFF.process_video (run_ffmpeg f) width height)];
        apply IH in H; cbn [EditFF.processed_count EditFF.skipped_count
                             EditFF.error_count List.length] in *; lia.
    + apply IH in H; cbn [EditFF.processed_count EditFF.skipped_count
                           EditFF.error_count List.length] in *; lia.
Qed.

Lemma main_loop_zero_height (probe : string -> option (Z * Z))
      (run_ffmpeg : string -> Z * Z -> bool) (video_files : list string)
      (f : string) (width : Z) :
  In f video_files -> probe f = Some (width, 0%Z) ->
  forall c, EditFF.main_loop probe run_ffmpeg video_files c = None.
Proof.
  intros Hin Hp. induction video_files as [| a rest IH]; [destruct Hin |].
  intros c. cbn [EditFF.main_loop].
  destruct Hin as [E | Hin].
  - rewrite E, Hp. reflexivity.
  - destruct (probe a) as [[w' h'] |]; [| now apply IH].
    destruct (h' =? 0)%Z; [reflexivity |].
    destruct (EditFF.is_valid_aspect_ratio w' h');
      [| destruct (EditFF.process_video (run_ffmpeg a) w' h')];
      now apply IH.
Qed.

(** X11.  When the loop of [main] of Video_Edit_FF reaches its summary,
    every file found was counted exactly once: the three counters start at
    0 and add up to the number of files. *)
Theorem X11_every_file_counted_once
        (probe : string -> option (Z * Z))
        (run_ffmpeg : string -> Z * Z -> bool) (video_files : list string)
        (c : EditFF.counts) :
  EditFF.main_loop probe run_ffmpeg video_files (EditFF.mk_counts 0 0 0)
  = Some c ->
  (0 <= EditFF.processed_count c /\ 0 <= EditFF.skipped_count c
   /\ 0 <= EditFF.error_count c
   /\ EditFF.processed_count c + EditFF.skipped_count c + EditFF.error_count c
      = Z.of_nat (List.length video_files))%Z.
Proof.
  intros H. apply main_loop_total in H.
  cbn [EditFF.processed_count EditFF.skipped_count EditFF.error_count] in H.
  lia.
Qed.

Lemma X11_every_file_counted_once_witness :
  let probe := fun f : string =>
                 if String.eqb f "a.mp4" then Some (1080, 1920)%Z
                 else if String.eqb f "b.mp4" then Some (1000, 1000)%Z
                 else None in
  let run_ffmpeg := fun (_ : string) (_ : Z * Z) => true in
  let files := ["a.mp4"; "b.mp4"; "c.mp4"]%string in
  EditFF.main_loop probe run_ffmpeg files (EditFF.mk_counts 0 0 0)
  = Some (EditFF.mk_counts 1 1 1)
  /\ (0 <= 1 /\ 0 <= 1 /\ 0 <= 1 /\ 1 + 1 + 1 = Z.of_nat 3)%Z.
Proof.
  intros probe run_ffmpeg files.
  assert (H : EditFF.main_loop probe run_ffmpeg files (EditFF.mk_counts 0 0 0)
              = Some (EditFF.mk_counts 1 1 1)) by reflexivity.
  split; [exact H |].
  exact (X11_every_file_counted_once probe run_ffmpeg files
           (EditFF.mk_counts 1 1 1) H).
Defined.

(** X12.  A source whose probed height is 0 is never handed to ffmpeg by
    [process_video], and one such file anywhere in the list makes the loop
    of [main] end in an exception (the log line that formats
    [width/height]) instead of a summary, whatever the other files are:
    the guard [height != 0] of [is_valid_aspect_ratio] is not reached. *)
Theorem X12_zero_height_aborts_batch
        (probe : string -> option (Z * Z))
        (run_ffmpeg : string -> Z * Z -> bool) (video_files : list string)
        (f : string) (width : Z) :
  In f video_files -> probe f = Some (width, 0%Z) ->
  EditFF.process_video (run_ffmpeg f) width 0 = false
  /\ EditFF.is_valid_aspect_ratio width 0 = false
  /\ EditFF.main_loop probe run_ffmpeg video_files (EditFF.mk_counts 0 0 0)
     = None.
Proof.
  intros Hin Hp. split; [reflexivity |]. split; [reflexivity |].
  now apply (main_loop_zero_height probe run_ffmpeg video_files f width).
Qed.

Lemma X12_zero_height_aborts_batch_witness :
  let probe := fun f : string =>
                 if String.eqb f "b.mp4" then Some (640, 0)%Z
                 else Some (1000, 1000)%Z in
  let run_ffmpeg := fun (_ : string) (_ : Z * Z) => true in
  let files := ["a.mp4"; "b.mp4"; "c.mp4"]%string in
  (In "b.mp4"%string files /\ probe "b.mp4"%string = Some (640, 0)%Z)
  /\ EditFF.main_loop probe run_ffmpeg files (EditFF.mk_counts 0 0 0) = None.
Proof.
  intros probe run_ffmpeg files.
  assert (Hin : In "b.mp4"%string files) by (simpl; auto).
  assert (Hp : probe "b.mp4"%string = Some (640, 0)%Z) by reflexivity.
  split; [auto |].
  exact (proj2 (proj2 (X12_zero_height_aborts_batch probe run_ffmpeg files
                         "b.mp4"%string 640%Z Hin Hp))).
Defined.

(** ** What a successful unit of VE_QW_FInal_prefect.py means *)

Section Answers.

Import Final.

Variable R : bool -> Prop.
Hypothesis R_false : R false.

Lemma returns_only_ret {A} (a : A) : returns_only R (ret a).
Proof. intros l b H. discriminate H. Qed.

Lemma returns_only_emit (e : event) : returns_only R (emit e).
Proof. intros l b H. discriminate H. Qed.

Lemma returns_only_raise {A} : returns_only R (@raise A).
Proof. intros l b H. discriminate H. Qed.

Lemma returns_only_check_run (ok : bool) : returns_only R (check_run ok).
Proof. destruct ok; intros l b H; discriminate H. Qed.

Lemma returns_only_return_false {A} : returns_only R (@return_ A false).
Proof. intros l b [= <-]. exact R_false. Qed.

Lemma returns_only_bind {A B} (m : M A) (f : A -> M B) :
  returns_only R m -> (forall a, returns_only R (f a)) ->
  returns_only R (bind m f).
Proof.
  intros Hm Hf l b. unfold bind. specialize (Hm l).
  destruct (m l) as [[a | b' |] l']; simpl in *.
  - apply (Hf a).
  - intros [= <-]. now apply Hm.
  - discriminate.
Qed.

Lemma returns_only_call {A} (m : M bool) (k : bool -> M A) :
  (forall b, returns_only R (k b)) -> returns_only R (call m k).
Proof.
  intros Hk l b. unfold call.
  destruct (m l) as [[a | b' |] l']; simpl.
  - apply (Hk a).
  - apply (Hk b').
  - discriminate.
Qed.

Lemma answers_only_bind {A} (m : M A) (f : A -> M bool) :
  returns_only R m -> (forall a, answers_only R (f a)) ->
  answers_only R (bind m f).
Proof.
  intros Hm Hf l b. unfold bind. specialize (Hm l).
  destruct (m l) as [[a | b' |] l']; simpl in *.
  - apply (Hf a).
  - intros [[= <-] | [=]]. now apply Hm.
  - intros [[=] | [=]].
Qed.

Lemma answers_only_guard (c : bool) (m : M bool) :
  (c = true -> answers_only R m) ->
  answers_only R ((if c then ret tt else return_ false) ;;; m).
Proof.
  intros Hm. destruct c.
  - apply answers_only_bind; [apply returns_only_ret | intros _; now apply Hm].
  - intros l b [[= <-] | [=]]. exact R_false.
Qed.

Lemma answers_only_option {A} (o : option A) (f : A -> M bool) :
  (forall a, o = Some a -> answers_only R (f a)) ->
  answers_only R (a <- match o with
                       | Some i => ret i
                       | None => return_ false
                       end ;; f a).
Proof.
  intros Hf. destruct o as [a |].
  - intros l b. exact (Hf a eq_refl l b).
  - intros l b [[= <-] | [=]]. exact R_false.
Qed.

Lemma answers_only_run (m : M bool) :
  answers_only R m -> R (fst (run_M (try_except m))).
Proof.
  intros Hm. unfold run_M, try_except. specialize (Hm []).
  destruct (m []) as [[a | b |] l]; simpl in *; auto.
Qed.

Variable w : world.

Lemma returns_only_trim_stage (p : path) (info : video_info) :
  returns_only R (trim_stage w p info).
Proof.
  unfold trim_stage. destruct (trim_target (duration info)).
  - apply returns_only_call. intros [|].
    + destruct (get_video_info w (Trimmed p));
        [apply returns_only_ret | apply returns_only_return_false].
    + apply returns_only_bind; [apply returns_only_emit |].
      intros _. apply returns_only_ret.
  - apply returns_only_ret.
Qed.

Lemma returns_only_rotate_stage (src : path * video_info) :
  returns_only R (rotate_stage w src).
Proof.
  unfold rotate_stage. destruct src as [p info].
  destruct (needs_rotation (display_ratio info)); [| apply returns_only_ret].
  apply returns_only_bind; [apply returns_only_emit | intros _].
  apply returns_only_bind; [apply returns_only_check_run | intros _].
  destruct (get_video_info w (Rotated p));
    [apply returns_only_ret | apply returns_only_return_false].
Qed.

End Answers.

Ltac no_answer :=
  match goal with
  | H : _ \/ _ |- _ => simpl in H; destruct H as [H | H]; discriminate H
  end.

(** The compositing stage answers [true] only after the foreground and
    the final run succeeded on its source and with the output present. *)
Lemma compose_stage_answers (w : Final.world) (p : Final.path)
      (info : Final.video_info) (name : string) (tw th : Z) (cuda : bool) :
  Final.answers_only
    (fun b => b = true ->
              Final.run_fg_scale w p = true
              /\ Final.run_composite w p = true
              /\ exists st_size, Final.output_size w name = Some st_size)
    (Final.compose_stage w (p, info) name tw th cuda).
Proof.
  intros l b H Eb. subst b.
  unfold Final.compose_stage, Final.create_feathered_foreground,
    Final.validate_output, Final.bind, Final.emit, Final.check_run,
    Final.ret, Final.raise, Final.return_ in H.
  destruct (Final.foreground_geometry _ _ _ _ _); [| no_answer].
  destruct (Final.run_fg_scale w p); [| no_answer].
  split; [reflexivity |].
  destruct (Final.run_fg_feather w p);
    [| destruct (Final.run_fg_blur w p); [| no_answer]];
    simpl in H;
    (destruct (Final.run_composite w p); [| no_answer]);
    (split; [reflexivity |]);
    (destruct (Final.output_size w name) as [st_size |]; [eauto |]);
    simpl in H; no_answer.
Qed.

Lemma answers_only_weaken (R R' : bool -> Prop) (m : Final.M bool) :
  (forall b, R b -> R' b) -> Final.answers_only R m ->
  Final.answers_only R' m.
Proof. intros HR Hm l b H. apply HR. exact (Hm l b H). Qed.

Lemma process_video_success (w : Final.world) (p : Final.path)
      (name : string) (tw th : Z) (cuda : bool) :
  fst (Final.process_video w p name tw th cuda) = true ->
  Final.ffmpeg_path w = true
  /\ (exists info, Final.get_video_info w p = Some info)
  /\ (exists src, Final.run_fg_scale w src = true
                  /\ Final.run_composite w src = true)
  /\ exists st_size, Final.output_size w name = Some st_size.
Proof.
  unfold Final.process_video.
  set (R := fun b : bool =>
              b = true ->
              Final.ffmpeg_path w = true
              /\ (exists info, Final.get_video_info w p = Some info)
              /\ (exists src, Final.run_fg_scale w src = true
                              /\ Final.run_composite w src = true)
              /\ exists st_size, Final.output_size w name = Some st_size).
  assert (R_false : R false) by (intros H; discriminate H).
  apply (answers_only_run R R_false).
  unfold Final.process_video_body.
  apply (answers_only_guard R R_false). intros Hf.
  apply (answers_only_option R R_false). intros info Hp.
  apply answers_only_bind; [now apply returns_only_trim_stage |].
  intros src. unfold Final.after_trim.
  apply answers_only_bind; [now apply returns_only_rotate_stage |].
  intros [p' info'].
  apply (answers_only_weaken
           (fun b => b = true ->
                     Final.run_fg_scale w p' = true
                     /\ Final.run_composite w p' = true
                     /\ exists st_size,
                         Final.output_size w name = Some st_size));
    [| apply compose_stage_answers].
  intros b Hb E. destruct (Hb E) as (H1 & H2 & H3).
  unfold R. eauto 10.
Qed.

(** X13.  [process_video] answers [True] only if ffmpeg was found, the
    source could be probed, the scaling of the foreground and the final
    compositing run both succeeded on one and the same source, and the
    output file exists afterwards. *)
Theorem X13_success_means_output_written
        (w : Final.world) (p : Final.path) (name : string) (tw th : Z)
        (cuda : bool) :
  fst (Final.process_video w p name tw th cuda) = true ->
  Final.ffmpeg_path w = true
  /\ (exists info, Final.get_video_info w p = Some info)
  /\ (exists src, Final.run_fg_scale w src = true
                  /\ Final.run_composite w src = true)
  /\ exists st_size, Final.output_size w name = Some st_size.
Proof. apply process_video_success. Qed.

Lemma X13_success_means_output_written_witness :
  let w := Sample.world_of Sample.short_3x4 (Some 5000000%Z) in
  let p := Final.File "clip.mp4" in
  fst (Final.process_video w p "clip.mp4" 1080 1920 false) = true
  /\ Final.ffmpeg_path w = true
  /\ (exists info, Final.get_video_info w p = Some info)
  /\ (exists src, Final.run_fg_scale w src = true
                  /\ Final.run_composite w src = true)
  /\ exists st_size, Final.output_size w "clip.mp4"%string = Some st_size.
Proof.
  intros w p.
  assert (H : fst (Final.process_video w p "clip.mp4" 1080 1920 false) = true)
    by reflexivity.
  split; [exact H |].
  exact (X13_success_means_output_written w p "clip.mp4"%string
           1080%Z 1920%Z false H).
Defined.

(** X14.  A unit that [process_single_video] reports as successful was
    either skipped for being at a target ratio already, with nothing run
    and nothing written, or was composited with its output file present
    afterwards. *)
Theorem X14_counted_unit_skipped_or_written
        (w : Final.world) (name : string) :
  fst (Final.process_single_video w name) = true ->
  exists info,
    Final.get_video_info w (Final.File name) = Some info
    /\ ((Final.is_target_ratio (Final.display_ratio info) = true
         /\ snd (Final.process_single_video w name) = [Final.SkipTargetRatio])
        \/ (Final.is_target_ratio (Final.display_ratio info) = false
            /\ Final.ffmpeg_path w = true
            /\ (exists src, Final.run_composite w src = true)
            /\ exists st_size, Final.output_size w name = Some st_size)).
Proof.
  unfold Final.process_single_video.
  destruct (Final.get_video_info w (Final.File name)) as [info |];
    [| intros H; discriminate H].
  intros H. exists info. split; [reflexivity |].
  destruct (Final.is_target_ratio (Final.display_ratio info)).
  - left. split; reflexivity.
  - right. cbv zeta in H. cbn [Final.calculate_target_resolution] in H.
    apply process_video_success in H.
    destruct H as (H1 & _ & (src & _ & H3) & H4). eauto 10.
Qed.

Lemma X14_counted_unit_skipped_or_written_witness :
  let w := Sample.world_of Sample.tall_9x16 None in
  fst (Final.process_single_video w "clip.mp4") = true
  /\ Final.output_size w "clip.mp4"%string = None
  /\ exists info,
      Final.get_video_info w (Final.File "clip.mp4") = Some info
      /\ ((Final.is_target_ratio (Final.display_ratio info) = true
           /\ snd (Final.process_single_video w "clip.mp4")
              = [Final.SkipTargetRatio])
          \/ (Final.is_target_ratio (Final.display_ratio info) = false
              /\ Final.ffmpeg_path w = true
              /\ (exists src, Final.run_composite w src = true)
              /\ exists st_size,
                  Final.output_size w "clip.mp4"%string = Some st_size)).
Proof.
  intros w.
  assert (H : fst (Final.process_single_video w "clip.mp4") = true)
    by reflexivity.
  split; [exact H |]. split; [reflexivity |].
  exact (X14_counted_unit_skipped_or_written w "clip.mp4"%string H).
Defined.

(** ** Canvas and encoder of every compositing run *)

Section Emits.

Import Final.

Variable P : event -> Prop.

Lemma emits_ret {A} (a : A) : emits P (ret a).
Proof. intros l H. exact H. Qed.

Lemma emits_return {A} (b : bool) : emits P (@return_ A b).
Proof. intros l H. exact H. Qed.

Lemma emits_raise {A} : emits P (@raise A).
Proof. intros l H. exact H. Qed.

Lemma emits_check_run (ok : bool) : emits P (check_run ok).
Proof. destruct ok; intros l H; exact H. Qed.

Lemma emits_emit (e : event) : P e -> emits P (emit e).
Proof.
  intros He l H. unfold emit. simpl. apply Forall_app. split; auto.
Qed.

Lemma emits_bind {A B} (m : M A) (f : A -> M B) :
  emits P m -> (forall a, emits P (f a)) -> emits P (bind m f).
Proof.
  intros Hm Hf l H. unfold bind. specialize (Hm l H).
  destruct (m l) as [[a | b |] l']; simpl in *; auto.
  now apply Hf.
Qed.

Lemma emits_call {A} (m : M bool) (k : bool -> M A) :
  emits P m -> (forall b, emits P (k b)) -> emits P (call m k).
Proof.
  intros Hm Hk l H. unfold call. specialize (Hm l H).
  destruct (m l) as [[a | b |] l']; simpl in *; auto; now apply Hk.
Qed.

Lemma emits_try_except (m : M bool) :
  P ErrException -> emits P m -> emits P (try_except m).
Proof.
  intros He Hm l H. unfold try_except. specialize (Hm l H).
  destruct (m l) as [[a | b |] l']; simpl in *; auto.
  apply Forall_app. split; auto.
Qed.

Lemma emits_run (m : M bool) : emits P m -> Forall P (snd (run_M m)).
Proof.
  intros Hm. unfold run_M. specialize (Hm [] (Forall_nil P)).
  destruct (m []) as [[a | b |] l]; exact Hm.
Qed.

End Emits.

Create HintDb emits.
#[local] Hint Resolve emits_ret emits_return emits_raise emits_check_run
  : emits.

Ltac emits_step :=
  match goal with
  | |- Final.emits _ (Final.bind _ _) => apply emits_bind; [| intros ?]
  | |- Final.emits _ (Final.call _ _) => apply emits_call; [| intros ?]
  | |- Final.emits _ (Final.try_except _) =>
      apply emits_try_except; [exact I |]
  | |- Final.emits _ (Final.emit _) =>
      apply emits_emit; simpl; solve [auto]
  | |- Final.emits _ (match ?x with _ => _ end) => destruct x
  | |- _ => solve [auto with emits]
  end.

(** Every compositing run of [process_video] is on the canvas and with
    the encoder flag it was called with. *)
Lemma process_video_composites (w : Final.world) (p : Final.path)
      (name : string) (tw th : Z) (cuda : bool) :
  Forall (Final.composite_with
            (fun target_width target_height enc =>
               target_width = tw /\ target_height = th
               /\ enc = Final.choose_encoder cuda))
         (snd (Final.process_video w p name tw th cuda)).
Proof.
  unfold Final.process_video. apply emits_run.
  unfold Final.process_video_body, Final.trim_stage, Final.trim_video,
    Final.after_trim, Final.rotate_stage, Final.compose_stage,
    Final.create_feathered_foreground, Final.validate_output.
  repeat emits_step.
Qed.

Lemma use_cuda_for_supported (w : Final.world) (info : Final.video_info) :
  Final.choose_encoder (Final.use_cuda_for w info) = Final.H264_nvenc ->
  Final.cuda_support w = true.
Proof.
  unfold Final.use_cuda_for, Final.choose_encoder.
  destruct (Final.cuda_support w); [reflexivity |]. simpl. discriminate.
Qed.

Lemma process_single_video_composites (w : Final.world) (name : string) :
  Forall (Final.composite_with
            (fun target_width target_height enc =>
               target_width = 1080%Z /\ target_height = 1920%Z
               /\ (enc = Final.H264_nvenc -> Final.cuda_support w = true)))
         (snd (Final.process_single_video w name)).
Proof.
  unfold Final.process_single_video.
  destruct (Final.get_video_info w (Final.File name)) as [info |];
    [| constructor].
  destruct (Final.is_target_ratio (Final.display_ratio info)).
  - repeat constructor.
  - cbv zeta. cbn [Final.calculate_target_resolution].
    eapply Forall_impl;
      [| apply (process_video_composites w (Final.File name) name 1080 1920
                  (Final.use_cuda_for w info))].
    intros [] H; simpl in *; auto.
    destruct H as (H1 & H2 & H3). subst.
    split; [reflexivity |]. split; [reflexivity |].
    apply use_cuda_for_supported.
Qed.

(** X15.  Whatever the sources are, every compositing run of the batch is
    on the 1080 x 1920 canvas, and none is encoded with h264_nvenc unless
    CUDA support was detected. *)
Theorem X15_batch_canvas_and_encoder
        (w : Final.world) (video_files : list string) :
  Forall (Final.composite_with
            (fun target_width target_height enc =>
               target_width = 1080%Z /\ target_height = 1920%Z
               /\ (enc = Final.H264_nvenc -> Final.cuda_support w = true)))
         (snd (Final.process_all_videos w video_files)).
Proof.
  induction video_files as [| f rest IH]; [constructor |].
  cbn [Final.process_all_videos].
  pose proof (process_single_video_composites w f) as H.
  destruct (Final.process_single_video w f) as [ok evs].
  destruct (Final.process_all_videos w rest) as [n evs'].
  simpl in *. constructor; [exact I |].
  apply Forall_app. split; assumption.
Qed.

Lemma estimate_vram_usage_le (width height : Z) (duration fps : Q) :
  (0 <= width * height)%Z ->
  (Final.estimate_vram_usage width height duration fps
   <= 360 * (width * height))%Z.
Proof.
  intros H. unfold Final.estimate_vram_usage.
  pose proof (Z.le_min_l 60 (Py.int_of (fps * 2))). nia.
Qed.

Lemma estimate_vram_usage_full (width height : Z) (duration fps : Q) :
  30 <= fps ->
  Final.estimate_vram_usage width height duration fps
  = (360 * (width * height))%Z.
Proof.
  intros H. unfold Final.estimate_vram_usage.
  assert (E : (60 <= Py.int_of (fps * 2))%Z).
  { unfold Py.int_of. destruct fps as [n d].
    unfold Qle in H. cbn [Qnum Qden Qmult] in *.
    rewrite Z.quot_div_nonneg by lia.
    apply Z.div_le_lower_bound; lia. }
  rewrite Z.min_l by exact E. lia.
Qed.

(** X16.  The VRAM guard of [process_single_video]: for a source of at
    most 11930464 pixels (3840 x 2160 included) the estimate never exceeds
    [MAX_VRAM_USAGE], whatever the frame rate, so the unit is processed
    with CUDA exactly when CUDA support was detected; at 30 frames per
    second or more the guard switches CUDA off exactly above that size. *)
Theorem X16_vram_guard_threshold
        (w : Final.world) (name : string) (info : Final.video_info) :
  Final.get_video_info w (Final.File name) = Some info ->
  Final.is_target_ratio (Final.display_ratio info) = false ->
  (0 <= Final.width info * Final.height info)%Z ->
  ((Final.width info * Final.height info <= 11930464)%Z ->
   Final.process_single_video w name
   = Final.process_video w (Final.File name) name 1080 1920
                         (Final.cuda_support w))
  /\ (30 <= Final.fps info ->
      Final.process_single_video w name
      = Final.process_video w (Final.File name) name 1080 1920
          (Final.cuda_support w
           && (Final.width info * Final.height info <=? 11930464)%Z)).
Proof.
  intros Hp Hr Hpos. unfold Final.process_single_video.
  rewrite Hp, Hr. cbv zeta. cbn [Final.calculate_target_resolution].
  split.
  - intros Hsmall. f_equal.
    pose proof (estimate_vram_usage_le (Final.width info) (Final.height info)
                  (Final.duration info) (Final.fps info) Hpos) as Hle.
    replace (Final.MAX_VRAM_USAGE <? _)%Z with false
      by (symmetry; apply Z.ltb_ge; unfold Final.MAX_VRAM_USAGE; lia).
    now destruct (Final.cuda_support w).
  - intros Hfps. f_equal.
    rewrite (estimate_vram_usage_full _ _ _ _ Hfps).
    unfold Final.MAX_VRAM_USAGE.
    destruct (Final.cuda_support w); [| reflexivity]. cbn [andb].
    destruct (Z.leb_spec (Final.width info * Final.height info) 11930464)
      as [Hs | Hs].
    + replace (_ <? _)%Z with false by (symmetry; apply Z.ltb_ge; lia).
      reflexivity.
    + replace (_ <? _)%Z with true by (symmetry; apply Z.ltb_lt; lia).
      reflexivity.
Qed.

Lemma X16_vram_guard_threshold_witness :
  let w := Final.mk_world true true (fun _ => Some Sample.short_3x4)
             (fun _ _ => true) (fun _ => true) (fun _ => true)
             (fun _ => true) (fun _ => true) (fun _ => true)
             (fun _ => Some 5000000%Z) in
  let name := "clip.mp4"%string in
  (Final.get_video_info w (Final.File name) = Some Sample.short_3x4
   /\ Final.is_target_ratio (Final.display_ratio Sample.short_3x4) = false
   /\ (0 <= 1080 * 1440 <= 11930464)%Z
   /\ 30 <= Final.fps Sample.short_3x4)
  /\ Final.process_single_video w name
     = Final.process_video w (Final.File name) name 1080 1920 true
  /\ Final.process_single_video w name
     = Final.process_video w (Final.File name) name 1080 1920
         (true && (1080 * 1440 <=? 11930464)%Z).
Proof.
  intros w name.
  assert (Hp : Final.get_video_info w (Final.File name)
               = Some Sample.short_3x4) by reflexivity.
  assert (Hr : Final.is_target_ratio (Final.display_ratio Sample.short_3x4)
               = false) by reflexivity.
  assert (Hpos : (0 <= Final.width Sample.short_3x4
                       * Final.height Sample.short_3x4)%Z)
    by (simpl; lia).
  assert (Hsmall : (Final.width Sample.short_3x4
                    * Final.height Sample.short_3x4 <= 11930464)%Z)
    by (simpl; lia).
  assert (Hfps : 30 <= Final.fps Sample.short_3x4)
    by (simpl; apply Qle_refl).
  split; [repeat split; try assumption; lia |].
  split.
  - exact (proj1 (X16_vram_guard_threshold w name Sample.short_3x4
                    Hp Hr Hpos) Hsmall).
  - exact (proj2 (X16_vram_guard_threshold w name Sample.short_3x4
                    Hp Hr Hpos) Hfps).
Defined.

(** ** The analytic feather *)

Lemma ramp_scaled (a : Q) : a / 30 * 255 == a * (17 # 2).
Proof. field. Qed.

Lemma alpha_expr_cases (W H X Y : Q) :
  (X < 30 /\ Final.alpha_expr W H X Y == X / 30 * 255)
  \/ (30 <= X /\ W - 30 < X /\ Final.alpha_expr W H X Y == (W - X) / 30 * 255)
  \/ (30 <= X <= W - 30 /\ Y < 30
      /\ Final.alpha_expr W H X Y == Y / 30 * 255)
  \/ (30 <= X <= W - 30 /\ 30 <= Y /\ H - 30 < Y
      /\ Final.alpha_expr W H X Y == (H - Y) / 30 * 255)
  \/ (30 <= X <= W - 30 /\ 30 <= Y <= H - 30
      /\ Final.alpha_expr W H X Y == 255).
Proof.
  unfold Final.alpha_expr.
  change (inject_Z Final.FEATHER_WIDTH) with (30 : Q). cbv zeta.
  destruct (Py.ltb X 30) eqn:E1;
    [apply ltb_lt in E1; left; split; [exact E1 | reflexivity] |].
  apply ltb_ge in E1. right.
  destruct (Py.ltb (W - 30) X) eqn:E2;
    [apply ltb_lt in E2; left; repeat split; auto; reflexivity |].
  apply ltb_ge in E2. right.
  destruct (Py.ltb Y 30) eqn:E3;
    [apply ltb_lt in E3; left; repeat split; auto; reflexivity |].
  apply ltb_ge in E3. right.
  destruct (Py.ltb (H - 30) Y) eqn:E4;
    [apply ltb_lt in E4; left; repeat split; auto; reflexivity |].
  apply ltb_ge in E4. right. repeat split; auto; reflexivity.
Qed.

(** X17.  The alpha value the analytic feather of
    [create_feathered_foreground] gives a pixel of the foreground lies
    between 0 and 255, and it is 255 (fully opaque) exactly on the pixels
    at least 30 away from all four edges: a foreground less than 60 wide or
    high has no fully opaque pixel. *)
Theorem X17_alpha_range_and_opaque_core (W H X Y : Q) :
  (0 <= X <= W -> 0 <= Y <= H ->
   0 <= Final.alpha_expr W H X Y <= 255)
  /\ (Final.alpha_expr W H X Y == 255
      <-> 30 <= X <= W - 30 /\ 30 <= Y <= H - 30)
  /\ (W < 60 \/ H < 60 -> ~ Final.alpha_expr W H X Y == 255).
Proof.
  assert (Hiff : Final.alpha_expr W H X Y == 255
                 <-> 30 <= X <= W - 30 /\ 30 <= Y <= H - 30).
  { destruct (alpha_expr_cases W H X Y)
      as [(H1 & E) | [(H1 & H2 & E) | [(H1 & H2 & E)
          | [(H1 & H2 & H3 & E) | (H1 & H2 & E)]]]];
      rewrite E, ?ramp_scaled; split; intros H0; lra. }
  split; [| split; [exact Hiff |]].
  - intros HX HY.
    destruct (alpha_expr_cases W H X Y)
      as [(H1 & E) | [(H1 & H2 & E) | [(H1 & H2 & E)
          | [(H1 & H2 & H3 & E) | (H1 & H2 & E)]]]];
      rewrite E, ?ramp_scaled; lra.
  - intros Hs E. apply Hiff in E. lra.
Qed.

Lemma X17_alpha_range_and_opaque_core_witness :
  ((0 <= 15 <= 40 /\ 0 <= 20 <= 53)
   /\ 0 <= Final.alpha_expr 40 53 15 20 <= 255)
  /\ ((40 < 60 \/ 53 < 60) /\ ~ Final.alpha_expr 40 53 15 20 == 255)
  /\ Final.alpha_expr 40 53 15 20 == 255 # 2.
Proof.
  assert (HX : 0 <= 15 <= 40) by lra.
  assert (HY : 0 <= 20 <= 53) by lra.
  assert (Hs : 40 < 60 \/ 53 < 60) by (left; lra).
  split; [split; [auto |] | split; [split; [exact Hs |] |]].
  - exact (proj1 (X17_alpha_range_and_opaque_core 40 53 15 20) HX HY).
  - exact (proj2 (proj2 (X17_alpha_range_and_opaque_core 40 53 15 20)) Hs).
  - reflexivity.
Defined.

(** ** The summary of the batch *)

Lemma filter_length_le {A} (f : A -> bool) (l : list A) :
  (List.length (List.filter f l) <= List.length l)%nat.
Proof.
  induction l as [| a l IH]; simpl; [lia |].
  destruct (f a); simpl; lia.
Qed.

Lemma filter_length_all {A} (f : A -> bool) (l : list A) :
  List.length (List.filter f l) = List.length l
  <-> forall a, In a l -> f a = true.
Proof.
  induction l as [| a l IH]; simpl; [tauto |].
  pose proof (filter_length_le f l) as Hle.
  destruct (f a) eqn:E; simpl.
  - split.
    + intros H b [<- | Hb]; [exact E |]. apply IH; [lia | exact Hb].
    + intros H. f_equal. apply IH. auto.
  - split; [lia |]. intros H. specialize (H a (or_introl eq_refl)).
    congruence.
Qed.

(** X18.  The count [process_all_videos] reports lies between 0 and the
    number of files, and it reaches that number, the case in which the
    batch does not warn that some videos failed, exactly when every unit
    answered success. *)
Theorem X18_summary_counts_successes
        (w : Final.world) (video_files : list string) :
  let success_count := fst (Final.process_all_videos w video_files) in
  let total_count := Z.of_nat (List.length video_files) in
  (0 <= success_count <= total_count)%Z
  /\ ((success_count <? total_count)%Z = false
      <-> forall f, In f video_files ->
                    fst (Final.process_single_video w f) = true).
Proof.
  cbv zeta. rewrite process_all_videos_count.
  pose proof (filter_length_le
                (fun f => fst (Final.process_single_video w f)) video_files)
    as Hle.
  split; [lia |].
  rewrite Z.ltb_ge, <- filter_length_all. lia.
Qed.

(** ** The graph of the GUI worker *)

Lemma commands_app (a b : list Gui.event) :
  Gui.commands (a ++ b) = Gui.commands a ++ Gui.commands b.
Proof.
  induction a as [| e a IH]; simpl; [reflexivity |].
  destruct e; simpl; now rewrite IH.
Qed.

Lemma watch_loop_commands (total_frames : Z) (p : Gui.pipe) :
  forall (s : Gui.watch) (evs : list Gui.event),
    Gui.commands (Gui.events_of (Gui.watch_loop total_frames p s evs))
    = Gui.commands evs.
Proof.
  induction p as [| | k rest IH]; intros s evs.
  - simpl. rewrite commands_app. simpl. now rewrite app_nil_r.
  - reflexivity.
  - assert (Hout : Gui.commands (snd (Gui.on_line total_frames k s)) = []).
    { destruct (on_line_out total_frames k s) as [-> | (f & _ & _ & ->)];
        reflexivity. }
    cbn [Gui.watch_loop].
    destruct (Gui.on_line total_frames k s) as [s' out]. simpl in Hout.
    assert (Hgo : Gui.commands
                    (Gui.events_of
                       (if Gui.stalled k s'
                        then Gui.Returns false
                               (evs ++ out ++ [Gui.LogStall; Gui.Terminate])
                        else Gui.watch_loop total_frames rest s' (evs ++ out)))
                  = Gui.commands evs).
    { destruct (Gui.stalled k s').
      - simpl. rewrite !commands_app, Hout. simpl. now rewrite app_nil_r.
      - rewrite IH, commands_app, Hout. now rewrite app_nil_r. }
    destruct (Gui.line k); [destruct (Gui.poll k) |]; try exact Hgo.
    reflexivity.
Qed.

Lemma run_ffmpeg_task_commands (c : Gui.child) (total_frames : Z) :
  Gui.commands (Gui.events_of (Gui.run_ffmpeg_task c total_frames)) = [].
Proof. unfold Gui.run_ffmpeg_task. apply watch_loop_commands. Qed.

Lemma gui_graph_is_plan (raw_w raw_h : Z) (ratio : Q) :
  let is_landscape := (raw_h <? raw_w)%Z in
  let '(w, h) := if is_landscape then (raw_h, raw_w) else (raw_w, raw_h) in
  map Graph.filters
      (Gui.filter_str is_landscape w h (Py.int_of (inject_Z w / ratio)))
  = map Graph.filters (Wallpaper.plan raw_w raw_h ratio).
Proof.
  unfold Wallpaper.plan, Wallpaper.working_size, Wallpaper.rotate,
    Wallpaper.target_height.
  destruct (raw_h <? raw_w)%Z; reflexivity.
Qed.

(** X19.  Whatever the two children do, the commands one unit of the GUI
    worker starts are the h264_nvenc command alone or followed by the
    libx264 one, and each carries the filters, in the same order and with
    the same sizes and offsets, that ve_wallpaper.py plans for the same
    source and preset. *)
Theorem X19_gui_runs_the_script_graph
        (raw_w raw_h total_f : Z) (label : string) (ratio : Q)
        (gpu cpu : Gui.child) (completed_tasks total_sub_tasks : Z) :
  let cmds :=
    Gui.commands
      (Gui.events_of (Gui.run_unit raw_w raw_h total_f label ratio gpu cpu
                                   completed_tasks total_sub_tasks)) in
  (map fst cmds = ["h264_nvenc"%string]
   \/ map fst cmds = ["h264_nvenc"; "libx264"]%string)
  /\ Forall (fun cmd =>
               map Graph.filters (snd cmd)
               = map Graph.filters (Wallpaper.plan raw_w raw_h ratio))
            cmds.
Proof.
  cbv zeta. pose proof (gui_graph_is_plan raw_w raw_h ratio) as Hg.
  cbv zeta in Hg. unfold Gui.run_unit.
  destruct (if (raw_h <? raw_w)%Z then (raw_h, raw_w) else (raw_w, raw_h))
    as [w h].
  pose proof (run_ffmpeg_task_commands gpu total_f) as Hgpu.
  pose proof (run_ffmpeg_task_commands cpu total_f) as Hcpu.
  destruct (Gui.run_ffmpeg_task gpu total_f) as [success e1 | e1];
    simpl in Hgpu.
  - destruct success; cbn [negb].
    + cbn [Gui.events_of]. rewrite !commands_app, Hgpu. simpl.
      split; [left; reflexivity | repeat constructor; exact Hg].
    + destruct (Gui.run_ffmpeg_task cpu total_f) as [ok e2 | e2];
        simpl in Hcpu; cbn [Gui.events_of];
        rewrite !commands_app, Hgpu, Hcpu; simpl;
        (split; [right; reflexivity | repeat constructor; exact Hg]).
  - cbn [Gui.events_of]. rewrite !commands_app, Hgpu. simpl.
    split; [left; reflexivity | repeat constructor; exact Hg].
Qed.

(** ** What [get_video_info] hands on *)

Lemma existsb_find {A} (f : A -> bool) (l : list A) :
  existsb f l = true <-> find f l <> None.
Proof.
  induction l as [| a l IH]; simpl; [split; [discriminate | congruence] |].
  destruct (f a); simpl; [split; [discriminate | reflexivity] | exact IH].
Qed.

Lemma zero_width_ratio (sar_ratio : Q) (height : Z) :
  Py.ltb Final.TARGET_RATIO
         (Float.div (Float.mul (inject_Z 0) sar_ratio) (inject_Z height))
  = false.
Proof. reflexivity. Qed.

(** X20.  A dictionary [get_video_info] builds never has height 0, has
    [has_audio] set exactly when it names an audio codec, and is one on
    which the scaling arithmetic of [create_feathered_foreground] divides
    by a non-zero size for every canvas: the sources [process_video] reads
    cannot make it fail with a division by zero. *)
Theorem X20_probed_source_is_safe
        (p : Final.probe) (info : Final.video_info) :
  Final.parse_video_info p = Some info ->
  Final.height info <> 0%Z
  /\ (Final.has_audio info = true <-> Final.audio_codec info <> None)
  /\ forall target_width target_height : Z,
      exists g,
        Final.foreground_geometry (Final.width info) (Final.height info)
                                  (Final.display_ratio info)
                                  target_width target_height = Some g.
Proof.
  unfold Final.parse_video_info.
  destruct (find (Final.is_type "video") (Final.streams p))
    as [video_stream |]; [| discriminate].
  destruct (Final.stream_width video_stream) as [width |]; [| discriminate].
  destruct (Final.stream_height video_stream) as [height |];
    [| discriminate].
  destruct (height =? 0)%Z eqn:Eh; [discriminate |].
  apply Z.eqb_neq in Eh. intros [= <-]. cbn [Final.height Final.width
    Final.display_ratio Final.has_audio Final.audio_codec].
  split; [exact Eh |]. split.
  - rewrite existsb_find.
    destruct (find (Final.is_type "audio") (Final.streams p));
      split; congruence.
  - intros tw th. unfold Final.foreground_geometry, Py.int_truediv.
    destruct (Py.ltb Final.TARGET_RATIO _) eqn:Er.
    + destruct (width =? 0)%Z eqn:Ew; [| eauto].
      apply Z.eqb_eq in Ew. subst width.
      rewrite zero_width_ratio in Er. discriminate.
    + apply Z.eqb_neq in Eh. rewrite Eh. eauto.
Qed.

Lemma X20_probed_source_is_safe_witness :
  let video := Final.mk_stream "video" (Some "h264"%string) (Some 1920%Z)
                 (Some 1080%Z) (Some (4, 3)%Z) (Some (30000, 1001)%Z) in
  let audio := Final.mk_stream "audio" None None None None None in
  let p := Final.mk_probe [audio; video] 12 in
  let info := Final.mk_info 1920 1080
                (Float.div (Float.mul 1920 (Float.div 4 3)) 1080)
                12 (Float.div 30000 1001) true
                (Some EmptyString) in
  Final.parse_video_info p = Some info
  /\ Final.height info <> 0%Z
  /\ (Final.has_audio info = true <-> Final.audio_codec info <> None)
  /\ forall target_width target_height : Z,
      exists g,
        Final.foreground_geometry (Final.width info) (Final.height info)
                                  (Final.display_ratio info)
                                  target_width target_height = Some g.
Proof.
  intros video audio p info.
  assert (H : Final.parse_video_info p = Some info) by reflexivity.
  split; [exact H |].
  exact (X20_probed_source_is_safe p info H).
Defined.
